(** * Schema compilation engine: SQL DDL and Mermaid ER output, and the
  schema store that recompiles on every edit.

  The development embeds [engine/types.ts], the SQL compiler, the Mermaid
  compiler, the actions of [store/schemaStore.ts] and the file names of
  the export menu.

  Conventions of the embedding.
  - A text is a [string] whose characters are UTF-16 code units below
    U+0100 (Basic Latin and Latin-1 Supplement), one character per code
    unit.  On these the case mappings and the whitespace class are the ones
    of JavaScript; an upper-cased text is kept as a list of code units,
    since upper-casing can leave the block.
  - A size ([length], [precision], [scale]) is an integer ([Z]) printed in
    decimal.  A numeric default is a [Number.t]: a safe integer, printed in
    decimal, or any other number, carried by the text
    [Number.prototype.toString] gives for it.
  - The wall clock ([new Date().toISOString()]) and the id generator are
    read by the caller and passed in as arguments.
  - An optional field is an [option]; [None] is [undefined]. *)

From Stdlib Require Import ZArith Ascii String List Lia DecimalString.
From stdpp Require Import base strings list gmap.

(** ** Texts *)

Module Text.

Definition nl : string := String "010"%char "".

(** [Array.prototype.join] on an array of strings. *)
Definition join (sep : string) (l : list string) : string :=
  String.concat sep l.

(** Truthiness of a string value. *)
Definition truthy (s : string) : bool :=
  match s with "" => false | _ => true end.

(** [o || dflt] and [o ? ... : ...] on an optional string. *)
Definition truthy_opt (o : option string) : bool :=
  match o with Some s => truthy s | None => false end.

Definition or_else (s dflt : string) : string :=
  if truthy s then s else dflt.

Definition between (lo hi c : ascii) : bool :=
  (N.leb (N_of_ascii lo) (N_of_ascii c)) && (N.leb (N_of_ascii c) (N_of_ascii hi)).

(** A capital letter: [A] to [Z], and U+00C0 to U+00DE but for the
    multiplication sign U+00D7. *)
Definition is_capital (c : ascii) : bool :=
  between "A"%char "Z"%char c
  || (between "192"%char "222"%char c && negb (Ascii.eqb c "215"%char)).

(** [c.toLowerCase()] for one code unit. *)
Definition lower_char (c : ascii) : ascii :=
  if is_capital c then ascii_of_N (N_of_ascii c + 32) else c.

(** [c.toUpperCase()] for one code unit, as code units: the small letters
    [a] to [z] and U+00E0 to U+00FE (but for the division sign U+00F7) move
    down by 32, the sharp s U+00DF becomes [SS], the micro sign U+00B5 becomes
    U+039C and the y with diaeresis U+00FF becomes U+0178. *)
Definition upper_units (c : ascii) : list N :=
  let n := N_of_ascii c in
  if between "a"%char "z"%char c then [(n - 32)%N]
  else if N.eqb n 181 then [924%N]
  else if N.eqb n 223 then [83%N; 83%N]
  else if N.eqb n 255 then [376%N]
  else if between "224"%char "254"%char c && negb (N.eqb n 247) then [(n - 32)%N]
  else [n].

Fixpoint map_chars (f : ascii -> ascii) (s : string) : string :=
  match s with
  | "" => ""
  | String c r => String (f c) (map_chars f r)
  end.

(** The code units of a text. *)
Fixpoint units (s : string) : list N :=
  match s with
  | "" => []
  | String c r => N_of_ascii c :: units r
  end.

(** The text of code units that are all below U+0100; it is applied to
    the upper-cased names of the index methods, which are. *)
Fixpoint of_units (l : list N) : string :=
  match l with
  | [] => ""
  | n :: r => String (ascii_of_N n) (of_units r)
  end.

(** [s.toUpperCase()], as code units. *)
Fixpoint toUpperCase (s : string) : list N :=
  match s with
  | "" => []
  | String c r => upper_units c ++ toUpperCase r
  end.

Definition toLowerCase : string -> string := map_chars lower_char.

(** [s.startsWith(p)]: the pattern is read off the front of the text. *)
Fixpoint starts_with (p s : string) : bool :=
  match p with
  | "" => true
  | String a p' =>
      match s with
      | "" => false
      | String b s' => Ascii.eqb a b && starts_with p' s'
      end
  end.

(** [hay.includes(needle)]. *)
Fixpoint includes (needle hay : string) : bool :=
  starts_with needle hay ||
  match hay with
  | "" => false
  | String _ r => includes needle r
  end.

(** [startsWith] and [includes] on code units. *)
Fixpoint starts_with_units (p s : list N) : bool :=
  match p with
  | [] => true
  | a :: p' =>
      match s with
      | [] => false
      | b :: s' => N.eqb a b && starts_with_units p' s'
      end
  end.

Fixpoint includes_units (needle hay : list N) : bool :=
  starts_with_units needle hay ||
  match hay with
  | [] => false
  | _ :: r => includes_units needle r
  end.

(** Number of positions of [hay] at which [needle] starts. *)
Fixpoint occurrences (needle hay : string) : nat :=
  (if starts_with needle hay then 1 else 0) +
  match hay with
  | "" => 0
  | String _ r => occurrences needle r
  end.

(** [s.replace(/c/g, by)] for a one-character pattern. *)
Fixpoint replace_char (c : ascii) (by_ : string) (s : string) : string :=
  match s with
  | "" => ""
  | String x r =>
      if Ascii.eqb x c then by_ +:+ replace_char c by_ r
      else String x (replace_char c by_ r)
  end.

(** [s.replace(/[^...]/g, '_')] for a character class [keep]. *)
Definition replace_outside (keep : ascii -> bool) (s : string) : string :=
  map_chars (fun c => if keep c then c else "_"%char) s.

(** The class [\s] of regular expressions, which is also what [trim]
    strips: tab, line feed, vertical tab, form feed, carriage return, space
    and the no-break space U+00A0. *)
Definition is_whitespace (c : ascii) : bool :=
  match c with
  | "009" | "010" | "011" | "012" | "013" | " " | "160" => true
  | _ => false
  end%char.

Fixpoint trimStart (s : string) : string :=
  match s with
  | "" => ""
  | String c r => if is_whitespace c then trimStart r else s
  end.

Fixpoint trimEnd (s : string) : string :=
  match s with
  | "" => ""
  | String c r =>
      match trimEnd r with
      | "" => if is_whitespace c then "" else String c ""
      | r' => String c r'
      end
  end.

Definition trim (s : string) : string := trimEnd (trimStart s).

(** The text cut at every line feed. *)
Fixpoint lines (s : string) : list string :=
  match s with
  | "" => [""]
  | String c r =>
      if Ascii.eqb c "010"%char then "" :: lines r
      else match lines r with
           | l :: ls => String c l :: ls
           | [] => [String c ""]
           end
  end.

(** No line feed occurs in the text. *)
Fixpoint single_line (s : string) : bool :=
  match s with
  | "" => true
  | String c r => negb (Ascii.eqb c "010"%char) && single_line r
  end.

(** The decimal notation of an integer. *)
Definition number_toString (z : Z) : string :=
  NilEmpty.string_of_int (Z.to_int z).

(** A JavaScript [Set<string>] read back in insertion order. *)
Definition set_add (acc : list string) (s : string) : list string :=
  if existsb (String.eqb s) acc then acc else acc ++ [s].

(** [s.replace(/\s+/g, '_')]: every maximal run of whitespace becomes one
    underscore.  [inrun] tells that the character before was whitespace. *)
Fixpoint replace_runs (inrun : bool) (s : string) : string :=
  match s with
  | "" => ""
  | String c r =>
      if is_whitespace c
      then (if inrun then replace_runs true r else String "_"%char (replace_runs true r))
      else String c (replace_runs false r)
  end.

Definition collapse_whitespace (s : string) : string := replace_runs false s.

End Text.

(** ** Numbers *)

Module Number.
Import Text.

(** A safe integer: at most 2^53 - 1 in absolute value. *)
Definition safe (z : Z) : bool := Z.leb (Z.abs z) 9007199254740991.

(** The characters [toString()] prints a number with: digits, signs, the
    point, the exponent mark and the letters of [NaN] and [Infinity]. *)
Definition numeral_char (c : ascii) : bool :=
  between "0"%char "9"%char c
  || existsb (Ascii.eqb c) (list_ascii_of_string "+-.eNaInfity").

Fixpoint numeral (s : string) : bool :=
  match s with
  | "" => true
  | String c r => numeral_char c && numeral r
  end.

(** A JavaScript number as the compiler reads it, through [typeof] and
    [toString()] only.  A safe integer is kept as an integer.  Any other
    number (a fraction, an integer beyond 2^53, [NaN], an infinity) is kept
    as the text [toString()] returns for it, such as [0.5] or [1e+21]: to
    print a number is the work of the language, not of the compiler. *)
Inductive t :=
| int (z : Z) (_ : Is_true (safe z))
| other (text : string) (_ : Is_true (truthy text && numeral text)).

(** [n.toString()]. *)
Definition toString (n : t) : string :=
  match n with
  | int z _ => number_toString z
  | other text _ => text
  end.

End Number.

(** ** The intermediate representation ([engine/types.ts]) *)

Module IR.

Inductive SQLDialect := mysql | postgresql.

Inductive ColumnType :=
| integer | bigint | smallint | serial | bigserial | varchar | text | char
| boolean | date | timestamp | timestamptz | time | decimal | numeric
| float | double | json | jsonb | uuid | blob | enum.

Inductive Cardinality := one_to_one | one_to_many | many_to_many.

Inductive OnDeleteAction := CASCADE | SET_NULL | SET_DEFAULT | RESTRICT | NO_ACTION.

(** The string each action is at run time. *)
Definition action_text (a : OnDeleteAction) : string :=
  match a with
  | CASCADE => "CASCADE"
  | SET_NULL => "SET NULL"
  | SET_DEFAULT => "SET DEFAULT"
  | RESTRICT => "RESTRICT"
  | NO_ACTION => "NO ACTION"
  end.

(** [defaultValue?: string | number | boolean | null]. *)
Inductive DefaultValue :=
| DNull
| DBool (b : bool)
| DNum (n : Number.t)
| DStr (s : string).

Inductive IndexType := btree | hash | gin | gist.

Definition index_type_text (t : IndexType) : string :=
  match t with
  | btree => "btree" | hash => "hash" | gin => "gin" | gist => "gist"
  end.

Inductive Direction := IN | OUT | INOUT.

Definition direction_text (d : Direction) : string :=
  match d with IN => "IN" | OUT => "OUT" | INOUT => "INOUT" end.

Inductive ReturnType := ret_type (c : ColumnType) | ret_void | ret_table.

Inductive Language := sql | plpgsql | plsql.

Definition language_text (l : Language) : string :=
  match l with sql => "sql" | plpgsql => "plpgsql" | plsql => "plsql" end.

Global Instance SQLDialect_eq_dec : EqDecision SQLDialect.
Proof. solve_decision. Defined.
Global Instance ColumnType_eq_dec : EqDecision ColumnType.
Proof. solve_decision. Defined.
Global Instance Cardinality_eq_dec : EqDecision Cardinality.
Proof. solve_decision. Defined.

End IR.

Module Column.
Record t := mk {
  id : string;
  name : string;
  type : IR.ColumnType;
  length : option Z;
  precision : option Z;
  scale : option Z;
  isPrimaryKey : bool;
  isNullable : bool;
  isUnique : bool;
  defaultValue : option IR.DefaultValue;
  enumValues : option (list string);
  comment : option string
}.
End Column.

Module Index.
Record t := mk {
  id : string;
  name : string;
  columns : list string;
  isUnique : bool;
  type : option IR.IndexType
}.
End Index.

Module ForeignKey.
Record t := mk {
  id : string;
  constraintName : string;
  columnName : string;
  referencedTable : string;
  referencedColumn : string;
  onDelete : IR.OnDeleteAction;
  onUpdate : option IR.OnDeleteAction
}.
End ForeignKey.

Module Table.
Record t := mk {
  id : string;
  name : string;
  schema : option string;
  columns : list Column.t;
  indexes : list Index.t;
  foreignKeys : list ForeignKey.t;
  comment : option string
}.
End Table.

Module Junction.
Record t := mk {
  name : string;
  sourceColumn : string;
  targetColumn : string
}.
End Junction.

Module Relationship.
Record t := mk {
  id : string;
  name : string;
  sourceTable : string;
  sourceColumn : string;
  targetTable : string;
  targetColumn : string;
  cardinality : IR.Cardinality;
  onDelete : IR.OnDeleteAction;
  junctionTable : option Junction.t
}.
End Relationship.

Module Param.
Record t := mk {
  name : string;
  type : IR.ColumnType;
  direction : IR.Direction;
  defaultValue : option string
}.
End Param.

Module Procedure.
Record t := mk {
  id : string;
  name : string;
  parameters : list Param.t;
  returnType : option IR.ReturnType;
  body : string;
  language : option IR.Language;
  comment : option string
}.
End Procedure.

Module Schema.
Record t := mk {
  id : string;
  name : string;
  description : string;
  dialect : IR.SQLDialect;
  tables : list Table.t;
  relationships : list Relationship.t;
  storedProcedures : list Procedure.t;
  createdAt : string;
  updatedAt : string
}.
End Schema.

(** [createEmptySchema(dialect = "postgresql")]; [fresh] is the value of
    [generateId()], [created] and [updated] the two clock readings. *)
Module Types.

Definition createEmptySchema (fresh created updated : string)
    (dialect : option IR.SQLDialect) : Schema.t :=
  Schema.mk fresh "New Schema" "" (default IR.postgresql dialect) [] [] []
    created updated.

End Types.

(** ** The SQL compiler ([SQLCompiler]) *)

Module SQL.
Import Text.

Definition typeMapping (d : IR.SQLDialect) (c : IR.ColumnType) : string :=
  match d with
  | IR.postgresql =>
      match c with
      | IR.integer => "INTEGER"
      | IR.bigint => "BIGINT"
      | IR.smallint => "SMALLINT"
      | IR.serial => "SERIAL"
      | IR.bigserial => "BIGSERIAL"
      | IR.varchar => "VARCHAR"
      | IR.text => "TEXT"
      | IR.char => "CHAR"
      | IR.boolean => "BOOLEAN"
      | IR.date => "DATE"
      | IR.timestamp => "TIMESTAMP"
      | IR.timestamptz => "TIMESTAMPTZ"
      | IR.time => "TIME"
      | IR.decimal => "DECIMAL"
      | IR.numeric => "NUMERIC"
      | IR.float => "REAL"
      | IR.double => "DOUBLE PRECISION"
      | IR.json => "JSON"
      | IR.jsonb => "JSONB"
      | IR.uuid => "UUID"
      | IR.blob => "BYTEA"
      | IR.enum => "VARCHAR"
      end
  | IR.mysql =>
      match c with
      | IR.integer => "INT"
      | IR.bigint => "BIGINT"
      | IR.smallint => "SMALLINT"
      | IR.serial => "INT AUTO_INCREMENT"
      | IR.bigserial => "BIGINT AUTO_INCREMENT"
      | IR.varchar => "VARCHAR"
      | IR.text => "TEXT"
      | IR.char => "CHAR"
      | IR.boolean => "TINYINT(1)"
      | IR.date => "DATE"
      | IR.timestamp => "TIMESTAMP"
      | IR.timestamptz => "TIMESTAMP"
      | IR.time => "TIME"
      | IR.decimal => "DECIMAL"
      | IR.numeric => "NUMERIC"
      | IR.float => "FLOAT"
      | IR.double => "DOUBLE"
      | IR.json => "JSON"
      | IR.jsonb => "JSON"
      | IR.uuid => "CHAR(36)"
      | IR.blob => "BLOB"
      | IR.enum => "ENUM"
      end
  end.

Definition is_postgresql (d : IR.SQLDialect) : bool :=
  match d with IR.postgresql => true | IR.mysql => false end.

Definition is_mysql (d : IR.SQLDialect) : bool :=
  match d with IR.mysql => true | IR.postgresql => false end.

Definition dquote : string := String "034"%char "".

Definition quote (d : IR.SQLDialect) (identifier : string) : string :=
  match d with
  | IR.postgresql => dquote +:+ identifier +:+ dquote
  | IR.mysql => "`" +:+ identifier +:+ "`"
  end.

Definition escapeString (str : string) : string :=
  replace_char "'"%char "''" str.

Definition rule : string := "-- ============================================".

Definition generateHeader (now : string) (s : Schema.t) : string :=
  let dialectName :=
    if is_postgresql (Schema.dialect s) then "PostgreSQL" else "MySQL" in
  rule +:+ nl +:+
  "-- Database Schema: " +:+ Schema.name s +:+ nl +:+
  "-- Dialect: " +:+ dialectName +:+ nl +:+
  "-- Generated: " +:+ now +:+ nl +:+
  "-- Description: " +:+ or_else (Schema.description s) "Auto-generated schema" +:+ nl +:+
  rule.

(** The namespaces collected by [generateSchemaStatements], in insertion
    order. *)
Definition schemaNames (s : Schema.t) : list string :=
  fold_left
    (fun schemas t =>
       match Table.schema t with
       | Some n =>
           if truthy n && negb (String.eqb n "public") then set_add schemas n
           else schemas
       | None => schemas
       end)
    (Schema.tables s) [].

Definition generateSchemaStatements (s : Schema.t) : string :=
  let schemas := schemaNames s in
  match schemas with
  | [] => ""
  | _ =>
      join nl
        (map (fun n => "CREATE SCHEMA IF NOT EXISTS " +:+ quote (Schema.dialect s) n +:+ ";")
             schemas)
  end.

(** [values.map(v => `'${v}'`).join(', ')]. *)
Definition enumLiterals (values : list string) : string :=
  join ", " (map (fun v => "'" +:+ v +:+ "'") values).

Definition enumTypeName (table : Table.t) (col : Column.t) : string :=
  Table.name table +:+ "_" +:+ Column.name col +:+ "_enum".

Definition enumStatements (s : Schema.t) : list string :=
  flat_map
    (fun table =>
       flat_map
         (fun col =>
            match Column.type col, Column.enumValues col with
            | IR.enum, Some (v :: vs) =>
                ["CREATE TYPE " +:+ enumTypeName table col +:+ " AS ENUM ("
                   +:+ enumLiterals (v :: vs) +:+ ");"]
            | _, _ => []
            end)
         (Table.columns table))
    (Schema.tables s).

Definition generateEnumTypes (s : Schema.t) : string :=
  match enumStatements s with
  | [] => ""
  | enums => "-- Enum Types" +:+ nl +:+ join nl enums
  end.

(** [n || dflt] on an optional number. *)
Definition num_or (o : option Z) (dflt : Z) : Z :=
  match o with
  | Some n => if Z.eqb n 0 then dflt else n
  | None => dflt
  end.

Definition getColumnType (d : IR.SQLDialect) (column : Column.t) (table : Table.t) : string :=
  let baseType := typeMapping d (Column.type column) in
  match Column.type column with
  | IR.varchar | IR.char =>
      baseType +:+ "(" +:+ number_toString (num_or (Column.length column) 255) +:+ ")"
  | IR.decimal | IR.numeric =>
      baseType +:+ "(" +:+ number_toString (num_or (Column.precision column) 10)
        +:+ ", " +:+ number_toString (num_or (Column.scale column) 2) +:+ ")"
  | IR.enum =>
      match d with
      | IR.postgresql => enumTypeName table column
      | IR.mysql =>
          "ENUM(" +:+ enumLiterals (default [] (Column.enumValues column)) +:+ ")"
      end
  | _ => baseType
  end.

(** The words that mark a string default as an SQL expression. *)
Definition is_sql_function (value : string) : bool :=
  includes_units (units "CURRENT_TIMESTAMP") (toUpperCase value)
  || includes_units (units "NOW()") (toUpperCase value)
  || includes_units (units "UUID") (toUpperCase value).

Definition formatDefaultValue (d : IR.SQLDialect) (column : Column.t) : string :=
  match Column.defaultValue column with
  | Some IR.DNull => "NULL"
  | Some (IR.DBool value) =>
      if is_mysql d then (if value then "1" else "0")
      else (if value then "TRUE" else "FALSE")
  | Some (IR.DNum value) => Number.toString value
  | Some (IR.DStr value) =>
      if is_sql_function value then value
      else "'" +:+ escapeString value +:+ "'"
  | None => "undefined"
  end.

(** [defaultValue !== undefined && defaultValue !== null]. *)
Definition has_default (column : Column.t) : bool :=
  match Column.defaultValue column with
  | None | Some IR.DNull => false
  | Some _ => true
  end.

(** The array [parts] of [generateColumn] when it is joined. *)
Definition columnParts (d : IR.SQLDialect) (column : Column.t) (table : Table.t) : list string :=
  ["  " +:+ quote d (Column.name column)]
  ++ [getColumnType d column table]
  ++ (if negb (Column.isNullable column) && negb (Column.isPrimaryKey column)
      then ["NOT NULL"] else [])
  ++ (if Column.isUnique column && negb (Column.isPrimaryKey column)
      then ["UNIQUE"] else [])
  ++ (if has_default column
      then ["DEFAULT " +:+ formatDefaultValue d column] else []).

Definition generateColumn (d : IR.SQLDialect) (column : Column.t) (table : Table.t) : string :=
  join " " (columnParts d column table).

Definition tableName (d : IR.SQLDialect) (table : Table.t) : string :=
  match Table.schema table with
  | Some sc =>
      if truthy sc then quote d sc +:+ "." +:+ quote d (Table.name table)
      else quote d (Table.name table)
  | None => quote d (Table.name table)
  end.

Definition pkColumns (table : Table.t) : list Column.t :=
  List.filter Column.isPrimaryKey (Table.columns table).

Definition primaryKeyLine (d : IR.SQLDialect) (pk : list Column.t) : string :=
  "  PRIMARY KEY (" +:+ join ", " (map (fun c => quote d (Column.name c)) pk) +:+ ")".

(** The array [columnDefs] of [generateTable] when it is joined. *)
Definition columnDefs (d : IR.SQLDialect) (table : Table.t) : list string :=
  map (fun col => generateColumn d col table) (Table.columns table)
  ++ match pkColumns table with
     | [] => []
     | pk => [primaryKeyLine d pk]
     end.

Definition engineSuffix (d : IR.SQLDialect) : string :=
  if is_mysql d then " ENGINE=InnoDB DEFAULT CHARSET=utf8mb4" else "".

Definition createTableLine (d : IR.SQLDialect) (table : Table.t) : string :=
  "CREATE TABLE " +:+ tableName d table +:+ " (".

Definition commentStatements (d : IR.SQLDialect) (table : Table.t) : list string :=
  if is_postgresql d then
    (match Table.comment table with
     | Some c =>
         if truthy c
         then ["COMMENT ON TABLE " +:+ tableName d table +:+ " IS '" +:+ escapeString c +:+ "';"]
         else []
     | None => []
     end)
    ++ flat_map
         (fun col =>
            match Column.comment col with
            | Some c =>
                if truthy c
                then ["COMMENT ON COLUMN " +:+ tableName d table +:+ "."
                        +:+ quote d (Column.name col) +:+ " IS '" +:+ escapeString c +:+ "';"]
                else []
            | None => []
            end)
         (Table.columns table)
  else [].

(** The array [lines] of [generateTable] when it is joined. *)
Definition tableLines (d : IR.SQLDialect) (table : Table.t) : list string :=
  (match Table.comment table with
   | Some c => if truthy c then ["-- " +:+ c] else []
   | None => []
   end)
  ++ [createTableLine d table]
  ++ [join ("," +:+ nl) (columnDefs d table)]
  ++ [")" +:+ engineSuffix d +:+ ";"]
  ++ commentStatements d table.

Definition generateTable (d : IR.SQLDialect) (table : Table.t) : string :=
  join nl (tableLines d table).

Definition generateTables (s : Schema.t) : string :=
  let tables := map (generateTable (Schema.dialect s)) (Schema.tables s) in
  "-- Tables" +:+ nl +:+ join (nl +:+ nl) tables.

Definition indexStatement (d : IR.SQLDialect) (table : Table.t) (index : Index.t) : string :=
  let unique := if Index.isUnique index then "UNIQUE " else "" in
  let columns := join ", " (map (quote d) (Index.columns index)) in
  let indexType :=
    match Index.type index with
    | Some ty =>
        if is_postgresql d && negb (String.eqb (IR.index_type_text ty) "btree")
        then " USING " +:+ of_units (toUpperCase (IR.index_type_text ty))
        else ""
    | None => ""
    end in
  "CREATE " +:+ unique +:+ "INDEX " +:+ quote d (Index.name index) +:+ " ON "
    +:+ tableName d table +:+ indexType +:+ " (" +:+ columns +:+ ");".

Definition indexStatements (s : Schema.t) : list string :=
  flat_map
    (fun table => map (indexStatement (Schema.dialect s) table) (Table.indexes table))
    (Schema.tables s).

Definition generateIndexes (s : Schema.t) : string :=
  match indexStatements s with
  | [] => ""
  | indexes => "-- Indexes" +:+ nl +:+ join nl indexes
  end.

Definition alterTableLine (d : IR.SQLDialect) (table : Table.t) : string :=
  "ALTER TABLE " +:+ tableName d table.

Definition foreignKeyStatement (d : IR.SQLDialect) (table : Table.t) (fk : ForeignKey.t) : string :=
  let refTable := quote d (ForeignKey.referencedTable fk) in
  alterTableLine d table +:+ nl +:+
  "  ADD CONSTRAINT " +:+ quote d (ForeignKey.constraintName fk) +:+ nl +:+
  "  FOREIGN KEY (" +:+ quote d (ForeignKey.columnName fk) +:+ ")" +:+ nl +:+
  "  REFERENCES " +:+ refTable +:+ " (" +:+ quote d (ForeignKey.referencedColumn fk) +:+ ")" +:+ nl +:+
  "  ON DELETE " +:+ IR.action_text (ForeignKey.onDelete fk)
    +:+ (match ForeignKey.onUpdate fk with
         | Some a => " ON UPDATE " +:+ IR.action_text a
         | None => ""
         end)
    +:+ ";".

Definition foreignKeyStatements (s : Schema.t) : list string :=
  flat_map
    (fun table => map (foreignKeyStatement (Schema.dialect s) table) (Table.foreignKeys table))
    (Schema.tables s).

Definition generateForeignKeys (s : Schema.t) : string :=
  match foreignKeyStatements s with
  | [] => ""
  | fks => "-- Foreign Key Constraints" +:+ nl +:+ join (nl +:+ nl) fks
  end.

(** [r.cardinality === 'many-to-many' && r.junctionTable]. *)
Definition has_junction (r : Relationship.t) : bool :=
  match Relationship.cardinality r, Relationship.junctionTable r with
  | IR.many_to_many, Some _ => true
  | _, _ => false
  end.

Definition intType (d : IR.SQLDialect) : string :=
  if is_postgresql d then "INTEGER" else "INT".

Definition junctionCreateLine (d : IR.SQLDialect) (jt : Junction.t) : string :=
  "CREATE TABLE " +:+ quote d (Junction.name jt) +:+ " (".

(** The statement of one junction table, without its leading comment. *)
Definition junctionCreate (d : IR.SQLDialect) (rel : Relationship.t) (jt : Junction.t) : string :=
  junctionCreateLine d jt +:+ nl +:+
  "  " +:+ quote d (Junction.sourceColumn jt) +:+ " " +:+ intType d +:+ " NOT NULL," +:+ nl +:+
  "  " +:+ quote d (Junction.targetColumn jt) +:+ " " +:+ intType d +:+ " NOT NULL," +:+ nl +:+
  "  created_at TIMESTAMP DEFAULT "
    +:+ (if is_postgresql d then "CURRENT_TIMESTAMP" else "CURRENT_TIMESTAMP") +:+ "," +:+ nl +:+
  "  PRIMARY KEY (" +:+ quote d (Junction.sourceColumn jt) +:+ ", "
    +:+ quote d (Junction.targetColumn jt) +:+ ")," +:+ nl +:+
  "  FOREIGN KEY (" +:+ quote d (Junction.sourceColumn jt) +:+ ") REFERENCES "
    +:+ quote d (Relationship.sourceTable rel) +:+ " ("
    +:+ quote d (Relationship.sourceColumn rel) +:+ ") ON DELETE CASCADE," +:+ nl +:+
  "  FOREIGN KEY (" +:+ quote d (Junction.targetColumn jt) +:+ ") REFERENCES "
    +:+ quote d (Relationship.targetTable rel) +:+ " ("
    +:+ quote d (Relationship.targetColumn rel) +:+ ") ON DELETE CASCADE" +:+ nl +:+
  ")" +:+ engineSuffix d +:+ ";".

Definition junctionStatement (d : IR.SQLDialect) (rel : Relationship.t) : list string :=
  match Relationship.junctionTable rel with
  | Some jt =>
      ["-- Junction table for " +:+ Relationship.sourceTable rel +:+ " <-> "
         +:+ Relationship.targetTable rel +:+ nl +:+ junctionCreate d rel jt]
  | None => []
  end.

Definition junctionStatements (s : Schema.t) : list string :=
  flat_map (junctionStatement (Schema.dialect s))
           (List.filter has_junction (Schema.relationships s)).

Definition generateJunctionTables (s : Schema.t) : string :=
  match junctionStatements s with
  | [] => ""
  | junctions => "-- Junction Tables (Many-to-Many)" +:+ nl +:+ join (nl +:+ nl) junctions
  end.

(** [proc.comment || proc.name]. *)
Definition procTitle (proc : Procedure.t) : string :=
  match Procedure.comment proc with
  | Some c => or_else c (Procedure.name proc)
  | None => Procedure.name proc
  end.

Definition generatePostgresFunction (d : IR.SQLDialect) (proc : Procedure.t) : string :=
  let params :=
    join ", "
      (map (fun p =>
              Param.name p +:+ " "
                +:+ (match Param.direction p with
                     | IR.IN => ""
                     | dir => IR.direction_text dir +:+ " "
                     end)
                +:+ typeMapping IR.postgresql (Param.type p))
           (Procedure.parameters proc)) in
  let returnType :=
    match Procedure.returnType proc with
    | Some IR.ret_void => "VOID"
    | Some IR.ret_table => "TABLE"
    | Some (IR.ret_type c) => typeMapping IR.postgresql c
    | None => "VOID"
    end in
  let language :=
    match Procedure.language proc with
    | Some l => IR.language_text l
    | None => "plpgsql"
    end in
  "-- " +:+ procTitle proc +:+ nl +:+
  "CREATE OR REPLACE FUNCTION " +:+ quote d (Procedure.name proc)
    +:+ "(" +:+ params +:+ ")" +:+ nl +:+
  "RETURNS " +:+ returnType +:+ nl +:+
  "LANGUAGE " +:+ language +:+ nl +:+
  "AS $$" +:+ nl +:+
  Procedure.body proc +:+ nl +:+
  "$$;".

Definition generateMySQLProcedure (d : IR.SQLDialect) (proc : Procedure.t) : string :=
  let params :=
    join ", "
      (map (fun p =>
              IR.direction_text (Param.direction p) +:+ " " +:+ Param.name p +:+ " "
                +:+ typeMapping IR.mysql (Param.type p))
           (Procedure.parameters proc)) in
  "-- " +:+ procTitle proc +:+ nl +:+
  "DELIMITER //" +:+ nl +:+
  "CREATE PROCEDURE " +:+ quote d (Procedure.name proc)
    +:+ "(" +:+ params +:+ ")" +:+ nl +:+
  "BEGIN" +:+ nl +:+
  Procedure.body proc +:+ nl +:+
  "END //" +:+ nl +:+
  "DELIMITER ;".

Definition generateStoredProcedures (s : Schema.t) : string :=
  match Schema.storedProcedures s with
  | [] => ""
  | procs =>
      "-- Stored Procedures and Functions" +:+ nl +:+
      join (nl +:+ nl)
        (map (fun proc =>
                if is_postgresql (Schema.dialect s)
                then generatePostgresFunction (Schema.dialect s) proc
                else generateMySQLProcedure (Schema.dialect s) proc)
             procs)
  end.

(** [if (x) sections.push(x)]. *)
Definition push_if (x : string) : list string :=
  if truthy x then [x] else [].

(** What [compile] pushes before the tables: the namespaces and the enum
    types, both for PostgreSQL only. *)
Definition preambleSections (s : Schema.t) : list string :=
  (if is_postgresql (Schema.dialect s)
      && existsb (fun t => truthy_opt (Table.schema t)) (Schema.tables s)
   then [generateSchemaStatements s] else [])
  ++ (if is_postgresql (Schema.dialect s) then push_if (generateEnumTypes s) else []).

(** What [compile] pushes after the foreign keys. *)
Definition trailingSections (s : Schema.t) : list string :=
  push_if (generateJunctionTables s)
  ++ push_if (generateStoredProcedures s).

(** The array [sections] of [compile] before it is filtered. *)
Definition sections (now : string) (s : Schema.t) : list string :=
  [generateHeader now s]
  ++ preambleSections s
  ++ [generateTables s]
  ++ push_if (generateIndexes s)
  ++ push_if (generateForeignKeys s)
  ++ trailingSections s.

(** [sections.filter(s => s.trim())]. *)
Definition nonblank (l : list string) : list string :=
  List.filter (fun x => truthy (trim x)) l.

(** [compile()]; [now] is the clock reading of [generateHeader]. *)
Definition compile (now : string) (s : Schema.t) : string :=
  join (nl +:+ nl) (nonblank (sections now s)).

Definition compileSQL : string -> Schema.t -> string := compile.

End SQL.

(** ** The Mermaid compiler ([MermaidCompiler]) *)

Module Mermaid.
Import Text.

Definition cardinalityMapping (c : IR.Cardinality) : string * string :=
  match c with
  | IR.one_to_one => ("||", "||")
  | IR.one_to_many => ("||", "o{")
  | IR.many_to_many => ("}o", "o{")
  end.

(** The class [[a-zA-Z0-9_]]. *)
Definition is_word_char (c : ascii) : bool :=
  between "a"%char "z"%char c || between "A"%char "Z"%char c
  || between "0"%char "9"%char c || Ascii.eqb c "_"%char.

Definition sanitizeName (name : string) : string :=
  replace_outside is_word_char name.

Definition sanitizeRelationName (name : string) : string :=
  replace_outside (fun c => is_word_char c || Ascii.eqb c " "%char) name.

Definition generateRelationName (source target : string) : string :=
  source +:+ "_to_" +:+ target.

Definition mapColumnType (column : Column.t) : string :=
  match Column.type column with
  | IR.integer => "int"
  | IR.bigint => "bigint"
  | IR.smallint => "smallint"
  | IR.serial => "serial"
  | IR.bigserial => "bigserial"
  | IR.varchar => "varchar"
  | IR.text => "text"
  | IR.char => "char"
  | IR.boolean => "boolean"
  | IR.date => "date"
  | IR.timestamp => "timestamp"
  | IR.timestamptz => "timestamptz"
  | IR.time => "time"
  | IR.decimal => "decimal"
  | IR.numeric => "numeric"
  | IR.float => "float"
  | IR.double => "double"
  | IR.json => "json"
  | IR.jsonb => "jsonb"
  | IR.uuid => "uuid"
  | IR.blob => "blob"
  | IR.enum => "enum"
  end.

Definition generateColumnLine (column : Column.t) : string :=
  let type := mapColumnType column in
  let name := sanitizeName (Column.name column) in
  let markers :=
    (if Column.isPrimaryKey column then ["PK"] else [])
    ++ (if Column.isUnique column && negb (Column.isPrimaryKey column) then ["UK"] else []) in
  let markerStr :=
    match markers with
    | [] => ""
    | _ => " " +:+ SQL.dquote +:+ join "," markers +:+ SQL.dquote
    end in
  type +:+ " " +:+ name +:+ markerStr.

Definition generateTableDefinition (table : Table.t) : list string :=
  ["    " +:+ sanitizeName (Table.name table) +:+ " {"]
  ++ map (fun col => "        " +:+ generateColumnLine col) (Table.columns table)
  ++ ["    }"].

Definition generateRelationship (rel : Relationship.t) : string :=
  let '(l, r) := cardinalityMapping (Relationship.cardinality rel) in
  let sourceName := sanitizeName (Relationship.sourceTable rel) in
  let targetName := sanitizeName (Relationship.targetTable rel) in
  let relationName :=
    if truthy (Relationship.name rel)
    then sanitizeRelationName (Relationship.name rel)
    else generateRelationName (Relationship.sourceTable rel) (Relationship.targetTable rel) in
  "    " +:+ sourceName +:+ " " +:+ l +:+ "--" +:+ r +:+ " " +:+ targetName
    +:+ " : " +:+ SQL.dquote +:+ relationName +:+ SQL.dquote.

(** The key [`${a}-${b}`] kept in [existingRels]. *)
Definition relKey (a b : string) : string := a +:+ "-" +:+ b.

(** The line synthesized for a foreign key of [owner] to [referenced]. *)
Definition implicitLine (referenced owner : string) : string :=
  "    " +:+ sanitizeName referenced +:+ " ||--o{ " +:+ sanitizeName owner
    +:+ " : " +:+ SQL.dquote +:+ "has_" +:+ owner +:+ SQL.dquote.

(** The keys of the explicit relationships. *)
Definition explicitKeys (s : Schema.t) : gset string :=
  list_to_set
    (map (fun r => relKey (Relationship.sourceTable r) (Relationship.targetTable r))
         (Schema.relationships s)).

(** One turn of the inner [forEach]: the state is the array [lines] and
    the set [existingRels]. *)
Definition implicitStep (owner : string) (st : list string * gset string)
    (fk : ForeignKey.t) : list string * gset string :=
  let '(lines, existingRels) := st in
  let key := relKey owner (ForeignKey.referencedTable fk) in
  let reverseKey := relKey (ForeignKey.referencedTable fk) owner in
  if negb (bool_decide (key ∈ existingRels))
     && negb (bool_decide (reverseKey ∈ existingRels))
  then (lines ++ [implicitLine (ForeignKey.referencedTable fk) owner],
        existingRels ∪ {[key]})
  else st.

Definition implicitPass (s : Schema.t) : list string * gset string :=
  fold_left
    (fun st table => fold_left (implicitStep (Table.name table)) (Table.foreignKeys table) st)
    (Schema.tables s)
    ([], explicitKeys s).

Definition generateImplicitRelationships (s : Schema.t) : list string :=
  fst (implicitPass s).

Definition compile (s : Schema.t) : string :=
  join nl
    (["erDiagram"]
     ++ flat_map generateTableDefinition (Schema.tables s)
     ++ map generateRelationship (Schema.relationships s)
     ++ generateImplicitRelationships s).

Definition compileMermaid : Schema.t -> string := compile.

Inductive Theme := theme_default | theme_dark | theme_forest | theme_neutral.

Definition theme_text (t : Theme) : string :=
  match t with
  | theme_default => "default"
  | theme_dark => "dark"
  | theme_forest => "forest"
  | theme_neutral => "neutral"
  end.

(** [compileMermaidWithTheme(schema, theme = 'default')]. *)
Definition compileMermaidWithTheme (s : Schema.t) (theme : option Theme) : string :=
  let diagram := compileMermaid s in
  let config := "%%{init: {'theme': '" +:+ theme_text (default theme_default theme)
                  +:+ "'}}%%" +:+ nl in
  config +:+ diagram.

End Mermaid.

(** ** The schema store ([useSchemaStore]) *)

(** [Partial<RelationshipDefinition>]: a key that is absent is [None]; the
  optional [junctionTable] can also be present and [undefined]. *)
Module RelationshipPatch.
Record t := mk {
  id : option string;
  name : option string;
  sourceTable : option string;
  sourceColumn : option string;
  targetTable : option string;
  targetColumn : option string;
  cardinality : option IR.Cardinality;
  onDelete : option IR.OnDeleteAction;
  junctionTable : option (option Junction.t)
}.

(** [{ ...r, ...updates }]. *)
Definition apply (r : Relationship.t) (updates : t) : Relationship.t :=
  Relationship.mk
    (default (Relationship.id r) (id updates))
    (default (Relationship.name r) (name updates))
    (default (Relationship.sourceTable r) (sourceTable updates))
    (default (Relationship.sourceColumn r) (sourceColumn updates))
    (default (Relationship.targetTable r) (targetTable updates))
    (default (Relationship.targetColumn r) (targetColumn updates))
    (default (Relationship.cardinality r) (cardinality updates))
    (default (Relationship.onDelete r) (onDelete updates))
    (default (Relationship.junctionTable r) (junctionTable updates)).
End RelationshipPatch.

(** [Partial<SchemaDefinition>]. *)
Module SchemaPatch.
Record t := mk {
  id : option string;
  name : option string;
  description : option string;
  dialect : option IR.SQLDialect;
  tables : option (list Table.t);
  relationships : option (list Relationship.t);
  storedProcedures : option (list Procedure.t);
  createdAt : option string;
  updatedAt : option string
}.

(** [{ ...schema, ...updates }]. *)
Definition apply (s : Schema.t) (updates : t) : Schema.t :=
  Schema.mk
    (default (Schema.id s) (id updates))
    (default (Schema.name s) (name updates))
    (default (Schema.description s) (description updates))
    (default (Schema.dialect s) (dialect updates))
    (default (Schema.tables s) (tables updates))
    (default (Schema.relationships s) (relationships updates))
    (default (Schema.storedProcedures s) (storedProcedures updates))
    (default (Schema.createdAt s) (createdAt updates))
    (default (Schema.updatedAt s) (updatedAt updates)).
End SchemaPatch.

(** [Partial<TableDefinition>]; an optional field can also be present and
    [undefined]. *)
Module TablePatch.
Record t := mk {
  id : option string;
  name : option string;
  schema : option (option string);
  columns : option (list Column.t);
  indexes : option (list Index.t);
  foreignKeys : option (list ForeignKey.t);
  comment : option (option string)
}.

(** [{ ...t, ...updates }]. *)
Definition apply (tb : Table.t) (updates : t) : Table.t :=
  Table.mk
    (default (Table.id tb) (id updates))
    (default (Table.name tb) (name updates))
    (default (Table.schema tb) (schema updates))
    (default (Table.columns tb) (columns updates))
    (default (Table.indexes tb) (indexes updates))
    (default (Table.foreignKeys tb) (foreignKeys updates))
    (default (Table.comment tb) (comment updates)).
End TablePatch.

(** [Partial<ColumnDefinition>]. *)
Module ColumnPatch.
Record t := mk {
  id : option string;
  name : option string;
  type : option IR.ColumnType;
  length : option (option Z);
  precision : option (option Z);
  scale : option (option Z);
  isPrimaryKey : option bool;
  isNullable : option bool;
  isUnique : option bool;
  defaultValue : option (option IR.DefaultValue);
  enumValues : option (option (list string));
  comment : option (option string)
}.

(** [{ ...c, ...updates }]. *)
Definition apply (c : Column.t) (updates : t) : Column.t :=
  Column.mk
    (default (Column.id c) (id updates))
    (default (Column.name c) (name updates))
    (default (Column.type c) (type updates))
    (default (Column.length c) (length updates))
    (default (Column.precision c) (precision updates))
    (default (Column.scale c) (scale updates))
    (default (Column.isPrimaryKey c) (isPrimaryKey updates))
    (default (Column.isNullable c) (isNullable updates))
    (default (Column.isUnique c) (isUnique updates))
    (default (Column.defaultValue c) (defaultValue updates))
    (default (Column.enumValues c) (enumValues updates))
    (default (Column.comment c) (comment updates)).
End ColumnPatch.

(** [Partial<StoredProcedureDefinition>]. *)
Module ProcedurePatch.
Record t := mk {
  id : option string;
  name : option string;
  parameters : option (list Param.t);
  returnType : option (option IR.ReturnType);
  body : option string;
  language : option (option IR.Language);
  comment : option (option string)
}.

(** [{ ...p, ...updates }]. *)
Definition apply (p : Procedure.t) (updates : t) : Procedure.t :=
  Procedure.mk
    (default (Procedure.id p) (id updates))
    (default (Procedure.name p) (name updates))
    (default (Procedure.parameters p) (parameters updates))
    (default (Procedure.returnType p) (returnType updates))
    (default (Procedure.body p) (body updates))
    (default (Procedure.language p) (language updates))
    (default (Procedure.comment p) (comment updates)).
End ProcedurePatch.

Module Store.
Import Text.

Record t := mk {
  schema : option Schema.t;
  compiledSQL : string;
  compiledMermaid : string;
  isLoading : bool;
  isGenerating : bool;
  error : option string;
  selectedTableId : option string;
  selectedRelationshipId : option string;
  userPrompt : string
}.

Definition initial : t := mk None "" "" false false None None None "".

(** [{ ...schema, updatedAt }], [{ ...schema, tables }] and
    [{ ...schema, relationships }]. *)
Definition with_updatedAt (stamp : string) (s : Schema.t) : Schema.t :=
  Schema.mk (Schema.id s) (Schema.name s) (Schema.description s) (Schema.dialect s)
    (Schema.tables s) (Schema.relationships s) (Schema.storedProcedures s)
    (Schema.createdAt s) stamp.

Definition with_tables (ts : list Table.t) (s : Schema.t) : Schema.t :=
  Schema.mk (Schema.id s) (Schema.name s) (Schema.description s) (Schema.dialect s)
    ts (Schema.relationships s) (Schema.storedProcedures s)
    (Schema.createdAt s) (Schema.updatedAt s).

Definition with_relationships (rs : list Relationship.t) (s : Schema.t) : Schema.t :=
  Schema.mk (Schema.id s) (Schema.name s) (Schema.description s) (Schema.dialect s)
    (Schema.tables s) rs (Schema.storedProcedures s)
    (Schema.createdAt s) (Schema.updatedAt s).

(** [set(updateAndRecompile(state, schemaUpdater))].  [stamp] is the clock
    reading stored in [updatedAt], [now] the later one read by the SQL
    header.  Without a schema the partial state is empty and [set] changes
    nothing. *)
Definition updateAndRecompile (stamp now : string) (state : t)
    (schemaUpdater : Schema.t -> Schema.t) : t :=
  match schema state with
  | None => state
  | Some s =>
      let updatedSchema := schemaUpdater (with_updatedAt stamp s) in
      mk (Some updatedSchema)
         (SQL.compileSQL now updatedSchema)
         (Mermaid.compileMermaid updatedSchema)
         (isLoading state) (isGenerating state) (error state)
         (selectedTableId state) (selectedRelationshipId state) (userPrompt state)
  end.

Definition setSchema (now : string) (s : Schema.t) (state : t) : t :=
  mk (Some s) (SQL.compileSQL now s) (Mermaid.compileMermaid s)
     (isLoading state) (isGenerating state) None
     (selectedTableId state) (selectedRelationshipId state) (userPrompt state).

Definition deleteTable (stamp now : string) (tableId : string) (state : t) : t :=
  match schema state with
  | None => state
  | Some s0 =>
      match find (fun t => String.eqb (Table.id t) tableId) (Schema.tables s0) with
      | None => state
      | Some table =>
          updateAndRecompile stamp now state
            (fun schema =>
               with_relationships
                 (List.filter
                    (fun r =>
                       negb (String.eqb (Relationship.sourceTable r) (Table.name table))
                       && negb (String.eqb (Relationship.targetTable r) (Table.name table)))
                    (Schema.relationships schema))
                 (with_tables
                    (List.filter
                       (fun t => negb (String.eqb (Table.id t) tableId))
                       (Schema.tables schema))
                    schema))
      end
  end.

Definition with_id (i : string) (r : Relationship.t) : Relationship.t :=
  Relationship.mk i (Relationship.name r)
    (Relationship.sourceTable r) (Relationship.sourceColumn r)
    (Relationship.targetTable r) (Relationship.targetColumn r)
    (Relationship.cardinality r) (Relationship.onDelete r)
    (Relationship.junctionTable r).

(** [fresh] is the value [generateId()] would return. *)
Definition addRelationship (stamp now fresh : string) (relationship : Relationship.t)
    (state : t) : t :=
  updateAndRecompile stamp now state
    (fun schema =>
       with_relationships
         (Schema.relationships schema
            ++ [with_id (or_else (Relationship.id relationship) fresh) relationship])
         schema).

Definition updateRelationship (stamp now : string) (relationshipId : string)
    (updates : RelationshipPatch.t) (state : t) : t :=
  updateAndRecompile stamp now state
    (fun schema =>
       with_relationships
         (map (fun r =>
                 if String.eqb (Relationship.id r) relationshipId
                 then RelationshipPatch.apply r updates else r)
              (Schema.relationships schema))
         schema).

Definition deleteRelationship (stamp now : string) (relationshipId : string)
    (state : t) : t :=
  updateAndRecompile stamp now state
    (fun schema =>
       with_relationships
         (List.filter
            (fun r => negb (String.eqb (Relationship.id r) relationshipId))
            (Schema.relationships schema))
         schema).

(** The descriptor [changeCardinality] builds from the relationship found. *)
Definition junctionFor (rel : Relationship.t) : Junction.t :=
  Junction.mk
    (Relationship.sourceTable rel +:+ "_" +:+ Relationship.targetTable rel)
    (toLowerCase (Relationship.sourceTable rel) +:+ "_id")
    (toLowerCase (Relationship.targetTable rel) +:+ "_id").

(** [{ ...r, cardinality, junctionTable }]. *)
Definition with_cardinality (c : IR.Cardinality) (jt : option Junction.t)
    (r : Relationship.t) : Relationship.t :=
  Relationship.mk (Relationship.id r) (Relationship.name r)
    (Relationship.sourceTable r) (Relationship.sourceColumn r)
    (Relationship.targetTable r) (Relationship.targetColumn r)
    c (Relationship.onDelete r) jt.

Definition changeCardinality (stamp now : string) (relationshipId : string)
    (cardinality : IR.Cardinality) (state : t) : t :=
  match schema state with
  | None => state
  | Some s0 =>
      match find (fun r => String.eqb (Relationship.id r) relationshipId)
                 (Schema.relationships s0) with
      | None => state
      | Some rel =>
          let junctionTable :=
            match cardinality with
            | IR.many_to_many => Some (junctionFor rel)
            | _ => None
            end in
          updateAndRecompile stamp now state
            (fun schema =>
               with_relationships
                 (map (fun r =>
                         if String.eqb (Relationship.id r) relationshipId
                         then with_cardinality cardinality junctionTable r else r)
                      (Schema.relationships schema))
                 schema)
      end
  end.

(** [{ ...schema, dialect }] and [{ ...schema, storedProcedures }]. *)
Definition with_dialect (d : IR.SQLDialect) (s : Schema.t) : Schema.t :=
  Schema.mk (Schema.id s) (Schema.name s) (Schema.description s) d
    (Schema.tables s) (Schema.relationships s) (Schema.storedProcedures s)
    (Schema.createdAt s) (Schema.updatedAt s).

Definition with_storedProcedures (ps : list Procedure.t) (s : Schema.t) : Schema.t :=
  Schema.mk (Schema.id s) (Schema.name s) (Schema.description s) (Schema.dialect s)
    (Schema.tables s) (Schema.relationships s) ps
    (Schema.createdAt s) (Schema.updatedAt s).

(** [{ ...t, id }], [{ ...t, columns }], [{ ...t, indexes }] and
    [{ ...t, foreignKeys }] on a table. *)
Definition table_with_id (i : string) (t : Table.t) : Table.t :=
  Table.mk i (Table.name t) (Table.schema t) (Table.columns t) (Table.indexes t)
    (Table.foreignKeys t) (Table.comment t).

Definition with_columns (cs : list Column.t) (t : Table.t) : Table.t :=
  Table.mk (Table.id t) (Table.name t) (Table.schema t) cs (Table.indexes t)
    (Table.foreignKeys t) (Table.comment t).

Definition with_indexes (ixs : list Index.t) (t : Table.t) : Table.t :=
  Table.mk (Table.id t) (Table.name t) (Table.schema t) (Table.columns t) ixs
    (Table.foreignKeys t) (Table.comment t).

Definition with_foreignKeys (fks : list ForeignKey.t) (t : Table.t) : Table.t :=
  Table.mk (Table.id t) (Table.name t) (Table.schema t) (Table.columns t)
    (Table.indexes t) fks (Table.comment t).

Definition column_with_id (i : string) (c : Column.t) : Column.t :=
  Column.mk i (Column.name c) (Column.type c) (Column.length c) (Column.precision c)
    (Column.scale c) (Column.isPrimaryKey c) (Column.isNullable c) (Column.isUnique c)
    (Column.defaultValue c) (Column.enumValues c) (Column.comment c).

Definition index_with_id (i : string) (x : Index.t) : Index.t :=
  Index.mk i (Index.name x) (Index.columns x) (Index.isUnique x) (Index.type x).

Definition foreignKey_with_id (i : string) (fk : ForeignKey.t) : ForeignKey.t :=
  ForeignKey.mk i (ForeignKey.constraintName fk) (ForeignKey.columnName fk)
    (ForeignKey.referencedTable fk) (ForeignKey.referencedColumn fk)
    (ForeignKey.onDelete fk) (ForeignKey.onUpdate fk).

Definition procedure_with_id (i : string) (p : Procedure.t) : Procedure.t :=
  Procedure.mk i (Procedure.name p) (Procedure.parameters p) (Procedure.returnType p)
    (Procedure.body p) (Procedure.language p) (Procedure.comment p).

(** [schema.tables.map(t => t.id === tableId ? f(t) : t)]. *)
Definition map_table (tableId : string) (f : Table.t -> Table.t) (s : Schema.t) : Schema.t :=
  with_tables
    (map (fun t => if String.eqb (Table.id t) tableId then f t else t) (Schema.tables s))
    s.

Definition clearSchema (state : t) : t :=
  mk None "" "" (isLoading state) (isGenerating state) None None None (userPrompt state).

Definition updateSchema (stamp now : string) (updates : SchemaPatch.t) (state : t) : t :=
  match schema state with
  | None => state
  | Some _ =>
      updateAndRecompile stamp now state (fun schema => SchemaPatch.apply schema updates)
  end.

Definition setDialect (stamp now : string) (dialect : IR.SQLDialect) (state : t) : t :=
  match schema state with
  | None => state
  | Some _ => updateAndRecompile stamp now state (fun schema => with_dialect dialect schema)
  end.

Definition addTable (stamp now fresh : string) (table : Table.t) (state : t) : t :=
  updateAndRecompile stamp now state
    (fun schema =>
       with_tables
         (Schema.tables schema ++ [table_with_id (or_else (Table.id table) fresh) table])
         schema).

Definition updateTable (stamp now : string) (tableId : string) (updates : TablePatch.t)
    (state : t) : t :=
  updateAndRecompile stamp now state
    (map_table tableId (fun t => TablePatch.apply t updates)).

Definition selectTable (tableId : option string) (state : t) : t :=
  mk (schema state) (compiledSQL state) (compiledMermaid state)
     (isLoading state) (isGenerating state) (error state)
     tableId None (userPrompt state).

Definition addColumn (stamp now fresh : string) (tableId : string) (column : Column.t)
    (state : t) : t :=
  updateAndRecompile stamp now state
    (map_table tableId
       (fun t =>
          with_columns
            (Table.columns t ++ [column_with_id (or_else (Column.id column) fresh) column])
            t)).

Definition updateColumn (stamp now : string) (tableId columnId : string)
    (updates : ColumnPatch.t) (state : t) : t :=
  updateAndRecompile stamp now state
    (map_table tableId
       (fun t =>
          with_columns
            (map (fun c =>
                    if String.eqb (Column.id c) columnId
                    then ColumnPatch.apply c updates else c)
                 (Table.columns t))
            t)).

Definition deleteColumn (stamp now : string) (tableId columnId : string) (state : t) : t :=
  updateAndRecompile stamp now state
    (map_table tableId
       (fun t =>
          with_columns
            (List.filter (fun c => negb (String.eqb (Column.id c) columnId))
                         (Table.columns t))
            t)).

Definition selectRelationship (relationshipId : option string) (state : t) : t :=
  mk (schema state) (compiledSQL state) (compiledMermaid state)
     (isLoading state) (isGenerating state) (error state)
     None relationshipId (userPrompt state).

Definition addIndex (stamp now fresh : string) (tableId : string) (index : Index.t)
    (state : t) : t :=
  updateAndRecompile stamp now state
    (map_table tableId
       (fun t =>
          with_indexes
            (Table.indexes t ++ [index_with_id (or_else (Index.id index) fresh) index])
            t)).

Definition deleteIndex (stamp now : string) (tableId indexId : string) (state : t) : t :=
  updateAndRecompile stamp now state
    (map_table tableId
       (fun t =>
          with_indexes
            (List.filter (fun i => negb (String.eqb (Index.id i) indexId))
                         (Table.indexes t))
            t)).

Definition addForeignKey (stamp now fresh : string) (tableId : string)
    (fk : ForeignKey.t) (state : t) : t :=
  updateAndRecompile stamp now state
    (map_table tableId
       (fun t =>
          with_foreignKeys
            (Table.foreignKeys t
               ++ [foreignKey_with_id (or_else (ForeignKey.id fk) fresh) fk])
            t)).

Definition deleteForeignKey (stamp now : string) (tableId fkId : string) (state : t) : t :=
  updateAndRecompile stamp now state
    (map_table tableId
       (fun t =>
          with_foreignKeys
            (List.filter (fun fk => negb (String.eqb (ForeignKey.id fk) fkId))
                         (Table.foreignKeys t))
            t)).

Definition addStoredProcedure (stamp now fresh : string) (proc : Procedure.t)
    (state : t) : t :=
  updateAndRecompile stamp now state
    (fun schema =>
       with_storedProcedures
         (Schema.storedProcedures schema
            ++ [procedure_with_id (or_else (Procedure.id proc) fresh) proc])
         schema).

Definition updateStoredProcedure (stamp now : string) (procId : string)
    (updates : ProcedurePatch.t) (state : t) : t :=
  updateAndRecompile stamp now state
    (fun schema =>
       with_storedProcedures
         (map (fun p =>
                 if String.eqb (Procedure.id p) procId
                 then ProcedurePatch.apply p updates else p)
              (Schema.storedProcedures schema))
         schema).

Definition deleteStoredProcedure (stamp now : string) (procId : string) (state : t) : t :=
  updateAndRecompile stamp now state
    (fun schema =>
       with_storedProcedures
         (List.filter (fun p => negb (String.eqb (Procedure.id p) procId))
                      (Schema.storedProcedures schema))
         schema).

Definition setLoading (loading : bool) (state : t) : t :=
  mk (schema state) (compiledSQL state) (compiledMermaid state)
     loading (isGenerating state) (error state)
     (selectedTableId state) (selectedRelationshipId state) (userPrompt state).

Definition setGenerating (generating : bool) (state : t) : t :=
  mk (schema state) (compiledSQL state) (compiledMermaid state)
     (isLoading state) generating (error state)
     (selectedTableId state) (selectedRelationshipId state) (userPrompt state).

Definition setError (e : option string) (state : t) : t :=
  mk (schema state) (compiledSQL state) (compiledMermaid state)
     (isLoading state) (isGenerating state) e
     (selectedTableId state) (selectedRelationshipId state) (userPrompt state).

Definition setUserPrompt (prompt : string) (state : t) : t :=
  mk (schema state) (compiledSQL state) (compiledMermaid state)
     (isLoading state) (isGenerating state) (error state)
     (selectedTableId state) (selectedRelationshipId state) prompt.

Definition recompile (now : string) (state : t) : t :=
  match schema state with
  | None => state
  | Some s =>
      mk (Some s) (SQL.compileSQL now s) (Mermaid.compileMermaid s)
         (isLoading state) (isGenerating state) (error state)
         (selectedTableId state) (selectedRelationshipId state) (userPrompt state)
  end.

End Store.

(** ** The actions of the store as a transition system *)

Module Actions.

(** One call of an action of the store, with the clock readings and the
    fresh id it consumes. *)
Inductive t :=
| SetSchema (now : string) (s : Schema.t)
| ClearSchema
| UpdateSchema (stamp now : string) (updates : SchemaPatch.t)
| SetDialect (stamp now : string) (dialect : IR.SQLDialect)
| AddTable (stamp now fresh : string) (table : Table.t)
| UpdateTable (stamp now tableId : string) (updates : TablePatch.t)
| DeleteTable (stamp now tableId : string)
| SelectTable (tableId : option string)
| AddColumn (stamp now fresh tableId : string) (column : Column.t)
| UpdateColumn (stamp now tableId columnId : string) (updates : ColumnPatch.t)
| DeleteColumn (stamp now tableId columnId : string)
| AddRelationship (stamp now fresh : string) (relationship : Relationship.t)
| UpdateRelationship (stamp now relationshipId : string) (updates : RelationshipPatch.t)
| DeleteRelationship (stamp now relationshipId : string)
| SelectRelationship (relationshipId : option string)
| ChangeCardinality (stamp now relationshipId : string) (cardinality : IR.Cardinality)
| AddIndex (stamp now fresh tableId : string) (index : Index.t)
| DeleteIndex (stamp now tableId indexId : string)
| AddForeignKey (stamp now fresh tableId : string) (fk : ForeignKey.t)
| DeleteForeignKey (stamp now tableId fkId : string)
| AddStoredProcedure (stamp now fresh : string) (proc : Procedure.t)
| UpdateStoredProcedure (stamp now procId : string) (updates : ProcedurePatch.t)
| DeleteStoredProcedure (stamp now procId : string)
| SetLoading (loading : bool)
| SetGenerating (generating : bool)
| SetError (e : option string)
| SetUserPrompt (prompt : string)
| Recompile (now : string).

Definition run (a : t) (state : Store.t) : Store.t :=
  match a with
  | SetSchema now s => Store.setSchema now s state
  | ClearSchema => Store.clearSchema state
  | UpdateSchema stamp now updates => Store.updateSchema stamp now updates state
  | SetDialect stamp now dialect => Store.setDialect stamp now dialect state
  | AddTable stamp now fresh table => Store.addTable stamp now fresh table state
  | UpdateTable stamp now tableId updates => Store.updateTable stamp now tableId updates state
  | DeleteTable stamp now tableId => Store.deleteTable stamp now tableId state
  | SelectTable tableId => Store.selectTable tableId state
  | AddColumn stamp now fresh tableId column =>
      Store.addColumn stamp now fresh tableId column state
  | UpdateColumn stamp now tableId columnId updates =>
      Store.updateColumn stamp now tableId columnId updates state
  | DeleteColumn stamp now tableId columnId =>
      Store.deleteColumn stamp now tableId columnId state
  | AddRelationship stamp now fresh relationship =>
      Store.addRelationship stamp now fresh relationship state
  | UpdateRelationship stamp now relationshipId updates =>
      Store.updateRelationship stamp now relationshipId updates state
  | DeleteRelationship stamp now relationshipId =>
      Store.deleteRelationship stamp now relationshipId state
  | SelectRelationship relationshipId => Store.selectRelationship relationshipId state
  | ChangeCardinality stamp now relationshipId cardinality =>
      Store.changeCardinality stamp now relationshipId cardinality state
  | AddIndex stamp now fresh tableId index =>
      Store.addIndex stamp now fresh tableId index state
  | DeleteIndex stamp now tableId indexId => Store.deleteIndex stamp now tableId indexId state
  | AddForeignKey stamp now fresh tableId fk =>
      Store.addForeignKey stamp now fresh tableId fk state
  | DeleteForeignKey stamp now tableId fkId =>
      Store.deleteForeignKey stamp now tableId fkId state
  | AddStoredProcedure stamp now fresh proc =>
      Store.addStoredProcedure stamp now fresh proc state
  | UpdateStoredProcedure stamp now procId updates =>
      Store.updateStoredProcedure stamp now procId updates state
  | DeleteStoredProcedure stamp now procId =>
      Store.deleteStoredProcedure stamp now procId state
  | SetLoading loading => Store.setLoading loading state
  | SetGenerating generating => Store.setGenerating generating state
  | SetError e => Store.setError e state
  | SetUserPrompt prompt => Store.setUserPrompt prompt state
  | Recompile now => Store.recompile now state
  end.

(** The state after a sequence of calls, starting from the initial state. *)
Definition after (actions : list t) : Store.t :=
  fold_left (fun state a => run a state) actions Store.initial.

(** The calls that edit the schema held by the store. *)
Definition edits (a : t) : bool :=
  match a with
  | SetSchema _ _ | ClearSchema | SelectTable _ | SelectRelationship _
  | SetLoading _ | SetGenerating _ | SetError _ | SetUserPrompt _ => false
  | _ => true
  end.

End Actions.

(** ** Export helpers of the user interface *)

Module ExportOptions.
Import Text.

(** The file name [handleDownloadSQL], [handleDownloadMermaid] and
    [handleDownloadJSON] build from the schema name and their suffix. *)
Definition fileName (name suffix : string) : string :=
  collapse_whitespace (toLowerCase name) +:+ suffix.

Definition sqlFileName (s : Schema.t) : string := fileName (Schema.name s) "_schema.sql".

Definition mermaidFileName (s : Schema.t) : string :=
  fileName (Schema.name s) "_diagram.mmd".

Definition jsonFileName (s : Schema.t) : string := fileName (Schema.name s) "_schema.json".

End ExportOptions.

(** ** Vocabulary of the statements *)

Module Shape.
Import Text.

(** [x] occurs in [s] as a contiguous piece. *)
Definition within (x s : string) : Prop :=
  exists pre post : string, s = pre +:+ x +:+ post.

(** A line that opens a [CREATE TABLE] statement, and one that opens an
    [ALTER TABLE] statement. *)
Definition is_create_table (l : string) : bool := starts_with "CREATE TABLE " l.

Definition is_alter_table (l : string) : bool := starts_with "ALTER TABLE " l.

(** The lines of [x] that [P] singles out, in order. *)
Definition marked (P : string -> bool) (x : string) : list string :=
  List.filter P (lines x).

(** The texts a schema supplies (names, comments, string defaults, enum
    values) are free of line feeds.  Bodies of stored procedures are not
    constrained. *)
Definition opt_single_line (o : option string) : bool :=
  match o with Some s => single_line s | None => true end.

Definition column_single_line (c : Column.t) : bool :=
  single_line (Column.name c)
  && match Column.defaultValue c with
     | Some (IR.DStr v) => single_line v
     | _ => true
     end
  && forallb single_line (default [] (Column.enumValues c))
  && opt_single_line (Column.comment c).

Definition index_single_line (i : Index.t) : bool :=
  single_line (Index.name i) && forallb single_line (Index.columns i).

Definition foreignKey_single_line (fk : ForeignKey.t) : bool :=
  single_line (ForeignKey.constraintName fk)
  && single_line (ForeignKey.columnName fk)
  && single_line (ForeignKey.referencedTable fk)
  && single_line (ForeignKey.referencedColumn fk).

Definition table_single_line (t : Table.t) : bool :=
  single_line (Table.name t)
  && opt_single_line (Table.schema t)
  && opt_single_line (Table.comment t)
  && forallb column_single_line (Table.columns t)
  && forallb index_single_line (Table.indexes t)
  && forallb foreignKey_single_line (Table.foreignKeys t).

Definition junction_single_line (jt : Junction.t) : bool :=
  single_line (Junction.name jt)
  && single_line (Junction.sourceColumn jt)
  && single_line (Junction.targetColumn jt).

Definition relationship_single_line (r : Relationship.t) : bool :=
  single_line (Relationship.sourceTable r)
  && single_line (Relationship.sourceColumn r)
  && single_line (Relationship.targetTable r)
  && single_line (Relationship.targetColumn r)
  && match Relationship.junctionTable r with
     | Some jt => junction_single_line jt
     | None => true
     end.

Definition schema_single_line (s : Schema.t) : bool :=
  single_line (Schema.name s)
  && single_line (Schema.description s)
  && forallb table_single_line (Schema.tables s)
  && forallb relationship_single_line (Schema.relationships s).

(** The string default reads as an SQL expression: its upper-cased text
    holds one of the three marker words. *)
Definition within_units (x l : list N) : Prop :=
  exists pre post : list N, l = pre ++ x ++ post.

Definition sql_function_marker (v : string) : Prop :=
  within_units (units "CURRENT_TIMESTAMP") (toUpperCase v)
  \/ within_units (units "NOW()") (toUpperCase v)
  \/ within_units (units "UUID") (toUpperCase v).


(** The descriptors of the junction tables [generateJunctionTables] emits,
    in the order of the relationships. *)
Definition junctionTables (s : Schema.t) : list Junction.t :=
  flat_map
    (fun r => match Relationship.junctionTable r with Some jt => [jt] | None => [] end)
    (List.filter SQL.has_junction (Schema.relationships s)).

(** The owning table of every declared foreign key, in emission order. *)
Definition foreignKeyOwners (s : Schema.t) : list Table.t :=
  flat_map (fun t => map (fun _ => t) (Table.foreignKeys t)) (Schema.tables s).

(** The foreign keys in the order the diagram pass visits them, each as
    (owning table, referenced table). *)
Definition fkPairs (s : Schema.t) : list (string * string) :=
  flat_map
    (fun t => map (fun fk => (Table.name t, ForeignKey.referencedTable fk))
                  (Table.foreignKeys t))
    (Schema.tables s).

(** An explicit relationship joins the two tables, in either direction. *)
Definition covered (s : Schema.t) (a b : string) : Prop :=
  exists r, In r (Schema.relationships s)
    /\ ((Relationship.sourceTable r = a /\ Relationship.targetTable r = b)
        \/ (Relationship.sourceTable r = b /\ Relationship.targetTable r = a)).

Definition hyphen_free (x : string) : bool := negb (includes "-" x).

(** No table name used by a table, a foreign key or a relationship holds a
    hyphen, so that a key [a-b] stands for one pair only. *)
Definition hyphen_free_names (s : Schema.t) : bool :=
  forallb
    (fun t =>
       hyphen_free (Table.name t)
       && forallb (fun fk => hyphen_free (ForeignKey.referencedTable fk))
                  (Table.foreignKeys t))
    (Schema.tables s)
  && forallb
       (fun r => hyphen_free (Relationship.sourceTable r)
                 && hyphen_free (Relationship.targetTable r))
       (Schema.relationships s).

(** The same two tables, in the same or in the opposite order. *)
Definition same_pair (p q : string * string) : Prop :=
  q = p \/ q = (snd p, fst p).

(** The diagram pass with, in place of each pushed line, the pair
    (referenced table, owning table) the line is made from. *)
Definition pairStep (st : list (string * string) * gset string)
    (p : string * string) : list (string * string) * gset string :=
  let '(emitted, existingRels) := st in
  let '(owner, referenced) := p in
  if negb (bool_decide (Mermaid.relKey owner referenced ∈ existingRels))
     && negb (bool_decide (Mermaid.relKey referenced owner ∈ existingRels))
  then (emitted ++ [(referenced, owner)],
        existingRels ∪ {[Mermaid.relKey owner referenced]})
  else st.

Definition pairPass (s : Schema.t) : list (string * string) * gset string :=
  fold_left pairStep (fkPairs s) ([], Mermaid.explicitKeys s).

(** The line of a pair (referenced table, owning table). *)
Definition pairLine (p : string * string) : string :=
  Mermaid.implicitLine (fst p) (snd p).

(** The junction descriptor is present exactly on a many-to-many
    relationship. *)
Definition junction_invariant (r : Relationship.t) : Prop :=
  is_Some (Relationship.junctionTable r) <-> Relationship.cardinality r = IR.many_to_many.

(** Both endpoints of every relationship name a table of the schema. *)
Definition resolvable (s : Schema.t) : Prop :=
  forall r, In r (Schema.relationships s) ->
    (exists t, In t (Schema.tables s) /\ Table.name t = Relationship.sourceTable r)
    /\ (exists t, In t (Schema.tables s) /\ Table.name t = Relationship.targetTable r).

(** The sections [compile] pushes up to the indexes, and those it pushes
    from the foreign keys on. *)
Definition frontSections (now : string) (s : Schema.t) : list string :=
  [SQL.generateHeader now s]
  ++ SQL.preambleSections s
  ++ [SQL.generateTables s]
  ++ SQL.push_if (SQL.generateIndexes s).

Definition backSections (s : Schema.t) : list string :=
  SQL.push_if (SQL.generateForeignKeys s) ++ SQL.trailingSections s.

(** The lines of the output that come from each group; the empty line that
    sets the groups apart goes with the second. *)
Definition frontLines (now : string) (s : Schema.t) : list string :=
  lines (join (nl +:+ nl) (SQL.nonblank (frontSections now s))).

Definition after_blank (back : list string) : list string :=
  match back with
  | [] => []
  | _ => "" :: lines (join (nl +:+ nl) back)
  end.

Definition backLines (s : Schema.t) : list string :=
  after_blank (SQL.nonblank (backSections s)).

End Shape.

(** ** Vocabulary of the further properties *)

Module Laws.
Import Text.

(** Every character of the text is in the class. *)
Fixpoint all_chars (p : ascii -> bool) (s : string) : bool :=
  match s with
  | "" => true
  | String c r => p c && all_chars p r
  end.

(** The connector Mermaid draws for a cardinality. *)
Definition connector (c : IR.Cardinality) : string :=
  match c with
  | IR.one_to_one => "||--||"
  | IR.one_to_many => "||--o{"
  | IR.many_to_many => "}o--o{"
  end.

(** The clause [generateIndexes] adds for an index method. *)
Definition methodClause (d : IR.SQLDialect) (ty : option IR.IndexType) : string :=
  match d, ty with
  | IR.postgresql, Some IR.hash => " USING HASH"
  | IR.postgresql, Some IR.gin => " USING GIN"
  | IR.postgresql, Some IR.gist => " USING GIST"
  | _, _ => ""
  end.

(** A namespace [generateSchemaStatements] creates: not empty, not
    [public]. *)
Definition named_namespace (n : string) : Prop := n <> "" /\ n <> "public".

(** The cached outputs are those of the schema held: empty without a
    schema, else its diagram and its SQL for some clock reading. *)
Definition in_sync (st : Store.t) : Prop :=
  match Store.schema st with
  | None => Store.compiledSQL st = "" /\ Store.compiledMermaid st = ""
  | Some s =>
      (exists now, Store.compiledSQL st = SQL.compile now s)
      /\ Store.compiledMermaid st = Mermaid.compile s
  end.

(** At most one of a table and a relationship is selected. *)
Definition one_selection (st : Store.t) : Prop :=
  Store.selectedTableId st = None \/ Store.selectedRelationshipId st = None.

End Laws.

(** ** Sample schemas *)

Module Samples.

Definition id_column : Column.t :=
  Column.mk "c1" "id" IR.serial None None None true false false None None None.

Definition users : Table.t :=
  Table.mk "t1" "users" None [id_column] [] [] None.

(** The one-table schema of the scenario: a [users] table with a serial
    primary key. *)
Definition blog (d : IR.SQLDialect) : Schema.t :=
  Schema.mk "s1" "Blog" "" d [users] [] [] "2026-01-01T00:00:00.000Z"
    "2026-01-01T00:00:00.000Z".

(** A nullable text column whose default is [null]. *)
Definition note_column : Column.t :=
  Column.mk "c3" "note" IR.text None None None false true false (Some IR.DNull) None None.

(** A column with a string default that holds a quote. *)
Definition surname_column : Column.t :=
  Column.mk "c4" "surname" IR.varchar (Some 40%Z) None None false false false
    (Some (IR.DStr "O'Brien")) None None.

Definition courses : Table.t :=
  Table.mk "t2" "courses" None [id_column] [] [] None.

Definition enrolment : Relationship.t :=
  Relationship.mk "r1" "enrols" "users" "id" "courses" "id" IR.many_to_many IR.CASCADE
    (Some (Junction.mk "users_courses" "users_id" "courses_id")).

(** Two tables joined by a many-to-many relationship. *)
Definition campus (d : IR.SQLDialect) : Schema.t :=
  Schema.mk "s2" "Campus" "Students and courses" d [users; courses] [enrolment] []
    "2026-01-01T00:00:00.000Z" "2026-01-01T00:00:00.000Z".

Definition teacher_fk : ForeignKey.t :=
  ForeignKey.mk "f1" "fk_courses_teacher" "teacher_id" "users" "id" IR.CASCADE None.

Definition taught_courses : Table.t :=
  Table.mk "t2" "courses" None [id_column] [] [teacher_fk] None.

(** The same two tables, the courses now holding a foreign key to the
    users, next to the many-to-many relationship. *)
Definition academy (d : IR.SQLDialect) : Schema.t :=
  Schema.mk "s3" "Academy" "" d [users; taught_courses] [enrolment] []
    "2026-01-01T00:00:00.000Z" "2026-01-01T00:00:00.000Z".

Definition department_fk : ForeignKey.t :=
  ForeignKey.mk "f2" "fk_employees_department" "department_id" "departments" "id"
    IR.RESTRICT None.

Definition head_fk : ForeignKey.t :=
  ForeignKey.mk "f3" "fk_departments_head" "head_id" "employees" "id" IR.SET_NULL None.

Definition employees : Table.t :=
  Table.mk "t3" "employees" None [id_column] [] [department_fk] None.

Definition departments : Table.t :=
  Table.mk "t4" "departments" None [id_column] [] [head_fk] None.

(** Two tables that reference each other through foreign keys, with no
    explicit relationship. *)
Definition staff : Schema.t :=
  Schema.mk "s4" "Staff" "" IR.postgresql [employees; departments] [] []
    "2026-01-01T00:00:00.000Z" "2026-01-01T00:00:00.000Z".

Definition teaches : Relationship.t :=
  Relationship.mk "r2" "teaches" "users" "id" "courses" "teacher_id" IR.one_to_many
    IR.CASCADE None.

(** A teacher has many courses: one explicit one-to-many relationship. *)
Definition school : Schema.t :=
  Schema.mk "s5" "School" "" IR.postgresql [users; taught_courses] [teaches] []
    "2026-01-01T00:00:00.000Z" "2026-01-01T00:00:00.000Z".

(** The store once [school] has been loaded. *)
Definition loaded : Store.t :=
  Store.setSchema "2026-01-01T09:00:00.000Z" school Store.initial.

(** The update [{ cardinality: 'many-to-many' }]. *)
Definition to_many_to_many : RelationshipPatch.t :=
  RelationshipPatch.mk None None None None None None (Some IR.many_to_many) None None.

End Samples.

(** ** Further sample schemas *)

Module Cases.

Definition mail_column : Column.t :=
  Column.mk "c5" "mail" IR.varchar None None None false false true None None None.

Definition role_column : Column.t :=
  Column.mk "c6" "role" IR.enum None None None false false false None
    (Some ["admin"; "guest"]) None.

Definition mail_index : Index.t :=
  Index.mk "i1" "idx_users_mail" ["mail"] true (Some IR.hash).

(** A table in a namespace of its own, with an enum column and an index. *)
Definition members : Table.t :=
  Table.mk "t5" "users" (Some "auth") [Samples.id_column; role_column; mail_column]
    [mail_index] [] None.

Definition directory (d : IR.SQLDialect) : Schema.t :=
  Schema.mk "s6" "Directory" "" d [members] [] []
    "2026-01-01T00:00:00.000Z" "2026-01-01T00:00:00.000Z".

(** Columns with a boolean, a numeric and an expression default. *)
Definition active_column : Column.t :=
  Column.mk "c7" "active" IR.boolean None None None false false false
    (Some (IR.DBool true)) None None.

Definition quota_column : Column.t :=
  Column.mk "c8" "quota" IR.integer None None None false false false
    (Some (IR.DNum (Number.int 42 I))) None None.

Definition ratio_column : Column.t :=
  Column.mk "c9" "ratio" IR.float None None None false false false
    (Some (IR.DNum (Number.other "0.5" I))) None None.

Definition joined_column : Column.t :=
  Column.mk "c10" "joined" IR.timestamp None None None false false false
    (Some (IR.DStr "now()")) None None.

Definition accounts : Table.t :=
  Table.mk "t6" "accounts" None
    [Samples.id_column; Samples.surname_column; active_column; quota_column;
     ratio_column; joined_column; Samples.note_column]
    [] [] None.

Definition registry (d : IR.SQLDialect) : Schema.t :=
  Schema.mk "s8" "Registry" "" d [accounts] [] []
    "2026-01-01T00:00:00.000Z" "2026-01-01T00:00:00.000Z".

(** A second table under the id of [courses], and a relationship to it,
    both added to the loaded [school]. *)
Definition lessons : Table.t :=
  Table.mk "t2" "lessons" None [Samples.id_column] [] [] None.

Definition attends : Relationship.t :=
  Relationship.mk "r3" "attends" "users" "id" "lessons" "id" IR.one_to_many IR.CASCADE None.

Definition twins : Store.t :=
  Store.addRelationship "2026-01-01T09:20:00.000Z" "2026-01-01T09:20:00.001Z"
    "1767259200000-a1b2c3d4e" attends
    (Store.addTable "2026-01-01T09:10:00.000Z" "2026-01-01T09:10:00.001Z"
       "1767258600000-z9y8x7w6v" lessons Samples.loaded).

(** A relationship whose source table has a name that opens with the
    capital letter U+00C9. *)
Definition inscrit : Relationship.t :=
  Relationship.mk "r4" "inscrit" (String "201" "cole") "id" "Classe" "id" IR.one_to_many
    IR.CASCADE None.

Definition lycee : Schema.t :=
  Schema.mk "s9" "Lycee" "" IR.postgresql [] [inscrit] []
    "2026-01-01T00:00:00.000Z" "2026-01-01T00:00:00.000Z".

Definition enrolled : Store.t :=
  Store.setSchema "2026-01-01T09:00:00.000Z" lycee Store.initial.

(** A schema whose name holds neither whitespace nor capital letters. *)
Definition lowercase : Schema.t :=
  Schema.mk "s10" "my_shop" "" IR.mysql [] [] []
    "2026-01-01T00:00:00.000Z" "2026-01-01T00:00:00.000Z".

Definition purge : Procedure.t :=
  Procedure.mk "p1" "purge_sessions" [] None "BEGIN DELETE FROM sessions; END;" None None.

(** A schema that holds one stored procedure and nothing else. *)
Definition housekeeping : Schema.t :=
  Schema.mk "s7" "Housekeeping" "" IR.postgresql [] [] [purge]
    "2026-01-01T00:00:00.000Z" "2026-01-01T00:00:00.000Z".

End Cases.

(** * Properties *)

(** ** Facts about texts *)

Section TextFacts.
Import Text.

Lemma append_cons (c : ascii) (s t : string) : String c s +:+ t = String c (s +:+ t).
Proof. reflexivity. Qed.

Lemma append_nil_l (s : string) : "" +:+ s = s.
Proof. reflexivity. Qed.

Lemma append_nil_r (s : string) : s +:+ "" = s.
Proof. induction s as [|c s IH]; [reflexivity|]. rewrite append_cons, IH. reflexivity. Qed.

Lemma append_assoc (s t u : string) : (s +:+ t) +:+ u = s +:+ t +:+ u.
Proof.
  induction s as [|c s IH]; [reflexivity|].
  rewrite !append_cons, IH. reflexivity.
Qed.

Lemma append_eq_self (s t : string) : s +:+ t = s -> t = "".
Proof.
  intros H. apply (String.app_inj s). rewrite append_nil_r. exact H.
Qed.

Lemma lines_not_nil (s : string) : lines s <> [].
Proof.
  induction s as [|c s IH]; simpl; [discriminate|].
  destruct (Ascii.eqb c "010"); [discriminate|].
  destruct (lines s); [contradiction|discriminate].
Qed.

Lemma lines_app_nl (a b : string) : lines (a +:+ nl +:+ b) = lines a ++ lines b.
Proof.
  induction a as [|c a IH].
  - reflexivity.
  - rewrite append_cons. simpl. rewrite IH.
    destruct (Ascii.eqb c "010"); [reflexivity|].
    pose proof (lines_not_nil a) as Hne.
    destruct (lines a); [contradiction|reflexivity].
Qed.

Lemma lines_single (s : string) : single_line s = true -> lines s = [s].
Proof.
  induction s as [|c s IH]; simpl; [reflexivity|].
  intros [Hc Hs]%andb_prop. rewrite (negb_true_iff _) in Hc. rewrite Hc.
  rewrite (IH Hs). reflexivity.
Qed.

Lemma single_line_app (a b : string) :
  single_line (a +:+ b) = single_line a && single_line b.
Proof.
  induction a as [|c a IH]; [reflexivity|].
  rewrite append_cons. simpl. rewrite IH, andb_assoc. reflexivity.
Qed.

Lemma starts_with_app (n b : string) : starts_with n (n +:+ b) = true.
Proof.
  induction n as [|c n IH]; [reflexivity|].
  rewrite append_cons. simpl. rewrite Ascii.eqb_refl. exact IH.
Qed.

Lemma includes_unfold (n hay : string) :
  includes n hay
  = starts_with n hay
    || match hay with "" => false | String _ r => includes n r end.
Proof. destruct hay; reflexivity. Qed.

Lemma includes_app (n a b : string) : includes n (a +:+ n +:+ b) = true.
Proof.
  induction a as [|c a IH].
  - rewrite append_nil_l, includes_unfold, starts_with_app. reflexivity.
  - rewrite append_cons, includes_unfold, IH. apply orb_true_r.
Qed.

Lemma starts_with_split (n h : string) :
  starts_with n h = true -> exists b, h = n +:+ b.
Proof.
  revert h. induction n as [|c n IH]; intros h H.
  - exists h. reflexivity.
  - destruct h as [|x h]; [discriminate|]. simpl in H.
    apply andb_prop in H as [Hc Hr]. apply Ascii.eqb_eq in Hc as ->.
    destruct (IH h Hr) as [b ->]. exists b. reflexivity.
Qed.

(** [includes] decides [within]. *)
Lemma includes_within (n h : string) : includes n h = true <-> Shape.within n h.
Proof.
  split.
  - induction h as [|c h IH]; rewrite includes_unfold; intros H.
    + rewrite orb_false_r in H. destruct (starts_with_split _ _ H) as [b Hb].
      exists "", b. exact Hb.
    + apply orb_prop in H as [H|H].
      * destruct (starts_with_split _ _ H) as [b Hb]. exists "", b. exact Hb.
      * destruct (IH H) as (a & b & ->). exists (String c a), b. reflexivity.
  - intros (a & b & ->). apply includes_app.
Qed.

Lemma starts_with_units_app (n b : list N) : starts_with_units n (n ++ b) = true.
Proof.
  induction n as [|c n IH]; [reflexivity|]. simpl. rewrite N.eqb_refl. exact IH.
Qed.

Lemma starts_with_units_split (n h : list N) :
  starts_with_units n h = true -> exists b, h = n ++ b.
Proof.
  revert h. induction n as [|c n IH]; intros h H.
  - exists h. reflexivity.
  - destruct h as [|x h]; [discriminate|]. simpl in H.
    apply andb_prop in H as [Hc Hr]. apply N.eqb_eq in Hc as ->.
    destruct (IH h Hr) as [b ->]. exists b. reflexivity.
Qed.

Lemma includes_units_unfold (n hay : list N) :
  includes_units n hay
  = starts_with_units n hay
    || match hay with [] => false | _ :: r => includes_units n r end.
Proof. destruct hay; reflexivity. Qed.

(** [includes_units] decides [within_units]. *)
Lemma includes_units_within (n h : list N) :
  includes_units n h = true <-> Shape.within_units n h.
Proof.
  split.
  - induction h as [|c h IH]; rewrite includes_units_unfold; intros H.
    + rewrite orb_false_r in H. destruct (starts_with_units_split _ _ H) as [b Hb].
      exists [], b. exact Hb.
    + apply orb_prop in H as [H|H].
      * destruct (starts_with_units_split _ _ H) as [b Hb]. exists [], b. exact Hb.
      * destruct (IH H) as (a & b & ->). exists (c :: a), b. reflexivity.
  - intros (a & b & ->). induction a as [|c a IH].
    + rewrite includes_units_unfold. simpl app. rewrite starts_with_units_app. reflexivity.
    + simpl app. rewrite includes_units_unfold, IH. apply orb_true_r.
Qed.

Lemma trim_truthy (c : ascii) (r : string) :
  is_whitespace c = false -> truthy (trim (String c r)) = true.
Proof.
  intros Hc. unfold trim. simpl trimStart. rewrite Hc.
  simpl. destruct (trimEnd r); [rewrite Hc|]; reflexivity.
Qed.

End TextFacts.

(** ** The SQL compiler: shape of the output *)

Section SqlShape.
Import Text.

Lemma join_cons (sep x : string) (l : list string) :
  join sep (x :: l) = x +:+ match l with [] => "" | _ => sep +:+ join sep l end.
Proof. destruct l; simpl; [rewrite append_nil_r|]; reflexivity. Qed.

Lemma header_kept (now : string) (s : Schema.t) :
  truthy (trim (SQL.generateHeader now s)) = true.
Proof. apply trim_truthy. reflexivity. Qed.

Lemma tables_kept (s : Schema.t) : truthy (trim (SQL.generateTables s)) = true.
Proof. apply trim_truthy. reflexivity. Qed.

Lemma nonblank_app (l k : list string) :
  SQL.nonblank (l ++ k) = SQL.nonblank l ++ SQL.nonblank k.
Proof. apply List.filter_app. Qed.

Lemma nonblank_sections (now : string) (s : Schema.t) :
  SQL.nonblank (SQL.sections now s)
  = SQL.generateHeader now s
      :: SQL.nonblank
           (SQL.preambleSections s ++ [SQL.generateTables s]
              ++ SQL.push_if (SQL.generateIndexes s)
              ++ SQL.push_if (SQL.generateForeignKeys s)
              ++ SQL.trailingSections s).
Proof.
  unfold SQL.sections. rewrite nonblank_app. unfold SQL.nonblank at 1. simpl.
  rewrite header_kept. reflexivity.
Qed.

(** The header is always the first section and nothing after it reads the
    clock. *)
Lemma compile_header (s : Schema.t) :
  exists rest : string, forall now, SQL.compile now s = SQL.generateHeader now s +:+ rest.
Proof.
  eexists. intros now. unfold SQL.compile.
  rewrite nonblank_sections, join_cons. reflexivity.
Qed.

Lemma within_refl (x : string) : Shape.within x x.
Proof. exists "", "". rewrite append_nil_r. reflexivity. Qed.

Lemma within_trans (x y z : string) :
  Shape.within x y -> Shape.within y z -> Shape.within x z.
Proof.
  intros (a & b & ->) (c & d & ->).
  exists (c +:+ a), (b +:+ d). rewrite !append_assoc. reflexivity.
Qed.

Lemma within_app_r (x a b : string) : Shape.within x b -> Shape.within x (a +:+ b).
Proof.
  intros (c & d & ->). exists (a +:+ c), d. rewrite !append_assoc. reflexivity.
Qed.

Lemma within_app_l (x a b : string) : Shape.within x a -> Shape.within x (a +:+ b).
Proof.
  intros (c & d & ->). exists c, (d +:+ b). rewrite !append_assoc. reflexivity.
Qed.

Lemma within_join (sep x : string) (l : list string) :
  In x l -> Shape.within x (join sep l).
Proof.
  induction l as [|y l IH]; [contradiction|].
  intros [->|Hin]; rewrite join_cons.
  - apply within_app_l, within_refl.
  - destruct l as [|z l]; [contradiction|].
    apply within_app_r, within_app_r, IH, Hin.
Qed.

Lemma push_if_In (x : string) : truthy x = true -> In x (SQL.push_if x).
Proof. intros H. unfold SQL.push_if. rewrite H. left. reflexivity. Qed.

(** Every section that is pushed and is not blank is part of the output. *)
Lemma section_within (now x : string) (s : Schema.t) :
  In x (SQL.sections now s) -> truthy (trim x) = true ->
  Shape.within x (SQL.compile now s).
Proof.
  intros Hin Hx. apply within_join. apply List.filter_In. auto.
Qed.


End SqlShape.

(** ** Statements of the SQL sections *)

Section SqlPieces.
Import Text.

Lemma dash_section_within (now x r : string) (s : Schema.t) :
  In x (SQL.sections now s) -> x = String "-" r -> Shape.within x (SQL.compile now s).
Proof.
  intros Hin ->. apply section_within; [exact Hin|]. apply trim_truthy. reflexivity.
Qed.

Lemma join_app_sep (sep : string) (l k : list string) :
  l <> [] -> k <> [] -> join sep (l ++ k) = join sep l +:+ sep +:+ join sep k.
Proof.
  intros Hl Hk. induction l as [|x l IH]; [contradiction|].
  destruct l as [|y l].
  - destruct k as [|z k]; [contradiction|]. reflexivity.
  - change (join sep ((x :: y :: l) ++ k)) with (x +:+ sep +:+ join sep ((y :: l) ++ k)).
    rewrite IH by discriminate.
    change (join sep (x :: y :: l)) with (x +:+ sep +:+ join sep (y :: l)).
    rewrite !append_assoc. reflexivity.
Qed.

(** A run of entries of a joined list is a piece of the joined text. *)
Lemma within_join_run (sep : string) (a m b : list string) :
  m <> [] -> Shape.within (join sep m) (join sep (a ++ m ++ b)).
Proof.
  intros Hm.
  assert (Hmb : Shape.within (join sep m) (join sep (m ++ b))).
  { destruct b as [|y b]; [rewrite List.app_nil_r; apply within_refl|].
    rewrite join_app_sep by (auto; discriminate). apply within_app_l, within_refl. }
  destruct a as [|x a]; [exact Hmb|].
  rewrite join_app_sep; [|discriminate|destruct m; [contradiction|discriminate]].
  apply within_app_r, within_app_r, Hmb.
Qed.

Lemma foreignKeys_section_within (now : string) (s : Schema.t) :
  SQL.foreignKeyStatements s <> [] ->
  Shape.within (SQL.generateForeignKeys s) (SQL.compile now s).
Proof.
  intros Hne.
  assert (Hshape : exists r, SQL.generateForeignKeys s = String "-" r).
  { unfold SQL.generateForeignKeys.
    destruct (SQL.foreignKeyStatements s); [contradiction|]. eexists. reflexivity. }
  destruct Hshape as [r Hr]. apply (dash_section_within now _ r); [|exact Hr].
  unfold SQL.sections. rewrite !in_app_iff. do 4 right. left.
  apply push_if_In. rewrite Hr. reflexivity.
Qed.

Lemma indexes_section_within (now : string) (s : Schema.t) :
  SQL.indexStatements s <> [] ->
  Shape.within (SQL.generateIndexes s) (SQL.compile now s).
Proof.
  intros Hne.
  assert (Hshape : exists r, SQL.generateIndexes s = String "-" r).
  { unfold SQL.generateIndexes.
    destruct (SQL.indexStatements s); [contradiction|]. eexists. reflexivity. }
  destruct Hshape as [r Hr]. apply (dash_section_within now _ r); [|exact Hr].
  unfold SQL.sections. rewrite !in_app_iff. do 3 right. left.
  apply push_if_In. rewrite Hr. reflexivity.
Qed.

Lemma procedures_section_within (now : string) (s : Schema.t) :
  Schema.storedProcedures s <> [] ->
  Shape.within (SQL.generateStoredProcedures s) (SQL.compile now s).
Proof.
  intros Hne.
  assert (Hshape : exists r, SQL.generateStoredProcedures s = String "-" r).
  { unfold SQL.generateStoredProcedures.
    destruct (Schema.storedProcedures s); [contradiction|]. eexists. reflexivity. }
  destruct Hshape as [r Hr]. apply (dash_section_within now _ r); [|exact Hr].
  unfold SQL.sections, SQL.trailingSections. rewrite !in_app_iff. do 6 right.
  apply push_if_In. rewrite Hr. reflexivity.
Qed.

Lemma enum_section_within (now : string) (s : Schema.t) :
  Schema.dialect s = IR.postgresql ->
  SQL.enumStatements s <> [] ->
  Shape.within (SQL.generateEnumTypes s) (SQL.compile now s).
Proof.
  intros Hd Hne.
  assert (Hshape : exists r, SQL.generateEnumTypes s = String "-" r).
  { unfold SQL.generateEnumTypes.
    destruct (SQL.enumStatements s); [contradiction|]. eexists. reflexivity. }
  destruct Hshape as [r Hr]. apply (dash_section_within now _ r); [|exact Hr].
  unfold SQL.sections, SQL.preambleSections. rewrite !in_app_iff, Hd. right. left. right.
  apply push_if_In. rewrite Hr. reflexivity.
Qed.

Lemma tables_section_within (now : string) (s : Schema.t) :
  Shape.within (SQL.generateTables s) (SQL.compile now s).
Proof.
  apply (dash_section_within now _ ("- Tables" +:+ nl +:+
           join (nl +:+ nl) (map (SQL.generateTable (Schema.dialect s)) (Schema.tables s))));
    [|reflexivity].
  unfold SQL.sections. rewrite !in_app_iff. right. right. left. left. reflexivity.
Qed.

Lemma not_nil_of_In {A : Type} (x : A) (l : list A) : In x l -> l <> [].
Proof. intros H ->. contradiction. Qed.

End SqlPieces.

(** ** Lines of a generated text *)

Section MarkedLines.
Import Text.

Variable P : string -> bool.
Hypothesis P_statement : P = Shape.is_create_table \/ P = Shape.is_alter_table.

Lemma P_empty : P "" = false.
Proof. destruct P_statement as [-> | ->]; reflexivity. Qed.

Lemma marked_empty : Shape.marked P "" = [].
Proof. unfold Shape.marked. simpl. rewrite P_empty. reflexivity. Qed.

Lemma marked_nl (a b : string) :
  Shape.marked P (a +:+ nl +:+ b) = Shape.marked P a ++ Shape.marked P b.
Proof. unfold Shape.marked. rewrite lines_app_nl. apply List.filter_app. Qed.

Lemma marked_single (x : string) :
  single_line x = true -> Shape.marked P x = if P x then [x] else [].
Proof. intros H. unfold Shape.marked. rewrite (lines_single x H). reflexivity. Qed.

Lemma marked_quiet (x : string) :
  single_line x = true -> P x = false -> Shape.marked P x = [].
Proof. intros H Hx. rewrite (marked_single x H), Hx. reflexivity. Qed.

Lemma marked_join_nl (l : list string) :
  Shape.marked P (join nl l) = flat_map (Shape.marked P) l.
Proof.
  induction l as [|x l IH]; [apply marked_empty|].
  destruct l as [|y l].
  - simpl. rewrite List.app_nil_r. reflexivity.
  - change (join nl (x :: y :: l)) with (x +:+ nl +:+ join nl (y :: l)).
    rewrite marked_nl, IH. reflexivity.
Qed.

(** Sections and statements are set apart by an empty line. *)
Lemma marked_join_blank (l : list string) :
  Shape.marked P (join (nl +:+ nl) l) = flat_map (Shape.marked P) l.
Proof.
  induction l as [|x l IH]; [apply marked_empty|].
  destruct l as [|y l].
  - simpl. rewrite List.app_nil_r. reflexivity.
  - change (join (nl +:+ nl) (x :: y :: l))
      with (x +:+ nl +:+ "" +:+ nl +:+ join (nl +:+ nl) (y :: l)).
    rewrite !marked_nl, marked_empty, IH. reflexivity.
Qed.

(** A heading line, then a body. *)
Lemma marked_headed (h body : string) :
  single_line h = true -> P h = false ->
  Shape.marked P (h +:+ nl +:+ body) = Shape.marked P body.
Proof. intros H Hh. rewrite marked_nl, (marked_quiet h H Hh). reflexivity. Qed.

Lemma flat_map_marked_single (l : list string) :
  forallb single_line l = true ->
  flat_map (Shape.marked P) l = List.filter P l.
Proof.
  induction l as [|x l IH]; [reflexivity|].
  intros [Hx Hl]%andb_prop. simpl.
  rewrite (marked_single x Hx), (IH Hl). destruct (P x); reflexivity.
Qed.

(** Entries that open with a blank, joined by a comma and a line feed, as
    the column list of a table is. *)
Lemma marked_indented (l : list string) :
  Forall (fun x => single_line x = true /\ starts_with " " x = true) l ->
  Shape.marked P (join ("," +:+ nl) l) = [].
Proof.
  assert (Hblank : forall x, starts_with " " x = true -> P (x +:+ ",") = false /\ P x = false).
  { intros x Hx. apply starts_with_split in Hx as [b ->].
    destruct P_statement as [-> | ->]; split; reflexivity. }
  induction 1 as [|x l [Hx Hsp] Hl IH]; [apply marked_empty|].
  destruct l as [|y l].
  - simpl. apply marked_quiet; [exact Hx|]. apply (proj2 (Hblank x Hsp)).
  - change (join ("," +:+ nl) (x :: y :: l))
      with (x +:+ "," +:+ nl +:+ join ("," +:+ nl) (y :: l)).
    rewrite <- (append_assoc x ","), marked_nl, IH, List.app_nil_r.
    apply marked_quiet.
    + rewrite single_line_app, Hx. reflexivity.
    + apply (proj1 (Hblank x Hsp)).
Qed.

(** The lines of a text made of sections, cut between two groups of
    sections. *)
Lemma lines_join_blank_app (front back : list string) :
  front <> [] ->
  lines (join (nl +:+ nl) (front ++ back))
  = lines (join (nl +:+ nl) front) ++ Shape.after_blank back.
Proof.
  unfold Shape.after_blank.
  induction front as [|x front IH]; [contradiction|]. intros _.
  destruct front as [|y front].
  - destruct back as [|z back].
    + simpl. rewrite List.app_nil_r. reflexivity.
    + change (join (nl +:+ nl) ([x] ++ z :: back))
        with (x +:+ nl +:+ "" +:+ nl +:+ join (nl +:+ nl) (z :: back)).
      rewrite !lines_app_nl. reflexivity.
  - change (join (nl +:+ nl) ((x :: y :: front) ++ back))
      with (x +:+ nl +:+ "" +:+ nl +:+ join (nl +:+ nl) ((y :: front) ++ back)).
    change (join (nl +:+ nl) (x :: y :: front))
      with (x +:+ nl +:+ "" +:+ nl +:+ join (nl +:+ nl) (y :: front)).
    rewrite !lines_app_nl, IH by discriminate.
    rewrite <- !List.app_assoc. reflexivity.
Qed.

Lemma after_blank_app (a b : list string) :
  Shape.after_blank (a ++ b) = Shape.after_blank a ++ Shape.after_blank b.
Proof.
  destruct a as [|x a]; [reflexivity|].
  unfold Shape.after_blank at 1 2. cbn [app].
  change (x :: a ++ b) with ((x :: a) ++ b).
  rewrite lines_join_blank_app by discriminate. reflexivity.
Qed.

End MarkedLines.

(** ** Texts without line feeds *)

Section SingleLine.
Import Text.

Lemma single_line_quote (d : IR.SQLDialect) (x : string) :
  single_line (SQL.quote d x) = single_line x.
Proof.
  destruct d; unfold SQL.quote; rewrite !single_line_app; simpl;
    rewrite andb_true_r; reflexivity.
Qed.

Lemma single_line_join (sep : string) (l : list string) :
  single_line sep = true -> forallb single_line l = true ->
  single_line (join sep l) = true.
Proof.
  intros Hsep. induction l as [|x l IH]; [reflexivity|].
  intros [Hx Hl]%andb_prop. rewrite join_cons, single_line_app, Hx.
  destruct l; [reflexivity|]. rewrite single_line_app, Hsep. apply IH, Hl.
Qed.

Lemma single_line_uint (u : Decimal.uint) :
  single_line (NilEmpty.string_of_uint u) = true.
Proof. induction u; simpl; auto. Qed.

Lemma single_line_number (z : Z) : single_line (number_toString z) = true.
Proof.
  unfold number_toString. destruct (Z.to_int z); simpl; apply single_line_uint.
Qed.

Lemma single_line_numeral (x : string) :
  Number.numeral x = true -> single_line x = true.
Proof.
  induction x as [|c x IH]; [reflexivity|]. simpl.
  intros [Hc Hx]%andb_prop. rewrite (IH Hx), andb_true_r.
  destruct (Ascii.eqb_spec c "010") as [-> |_]; [discriminate Hc|reflexivity].
Qed.

Lemma single_line_toString (n : Number.t) : single_line (Number.toString n) = true.
Proof.
  destruct n as [z H|text H]; simpl; [apply single_line_number|].
  apply Is_true_true, andb_prop in H as [_ H]. apply single_line_numeral, H.
Qed.

Lemma single_line_escape (x : string) :
  single_line (SQL.escapeString x) = single_line x.
Proof.
  unfold SQL.escapeString. induction x as [|c x IH]; [reflexivity|].
  simpl. destruct (Ascii.eqb c "'") eqn:E.
  - apply Ascii.eqb_eq in E as ->. rewrite single_line_app, IH. reflexivity.
  - simpl. rewrite IH. reflexivity.
Qed.

Lemma single_line_action (a : IR.OnDeleteAction) : single_line (IR.action_text a) = true.
Proof. destruct a; reflexivity. Qed.

Lemma single_line_enumLiterals (vs : list string) :
  forallb single_line vs = true -> single_line (SQL.enumLiterals vs) = true.
Proof.
  intros H. unfold SQL.enumLiterals. apply single_line_join; [reflexivity|].
  induction vs as [|v vs IH]; [reflexivity|].
  apply andb_prop in H as [Hv Hvs]. simpl.
  rewrite !single_line_app, Hv, (IH Hvs). reflexivity.
Qed.

End SingleLine.

(** ** Lines of the SQL sections *)

Section SectionLines.
Import Text.

Variable d : IR.SQLDialect.

Lemma column_name_single (c : Column.t) :
  Shape.column_single_line c = true -> single_line (Column.name c) = true.
Proof. unfold Shape.column_single_line. rewrite !andb_true_iff. tauto. Qed.

Lemma single_line_tableName (t : Table.t) :
  Shape.table_single_line t = true -> single_line (SQL.tableName d t) = true.
Proof.
  unfold Shape.table_single_line. rewrite !andb_true_iff.
  intros (((((Hn & Hs) & _) & _) & _) & _).
  unfold SQL.tableName. destruct (Table.schema t) as [sc|]; simpl in Hs.
  - destruct (truthy sc); rewrite ?single_line_app, !single_line_quote, ?Hs, Hn; reflexivity.
  - rewrite single_line_quote. exact Hn.
Qed.

Lemma single_line_getColumnType (c : Column.t) (t : Table.t) :
  Shape.table_single_line t = true -> Shape.column_single_line c = true ->
  single_line (SQL.getColumnType d c t) = true.
Proof.
  unfold Shape.table_single_line, Shape.column_single_line. rewrite !andb_true_iff.
  intros (((((Hn & _) & _) & _) & _) & _) (((Hc & _) & Hv) & _).
  unfold SQL.getColumnType, SQL.enumTypeName.
  destruct (Column.type c), d;
    rewrite ?single_line_app, ?single_line_number, ?Hn, ?Hc,
      ?(single_line_enumLiterals _ Hv);
    reflexivity.
Qed.

Lemma single_line_formatDefaultValue (c : Column.t) :
  Shape.column_single_line c = true ->
  single_line (SQL.formatDefaultValue d c) = true.
Proof.
  unfold Shape.column_single_line. rewrite !andb_true_iff.
  intros (((_ & Hd) & _) & _). unfold SQL.formatDefaultValue.
  destruct (Column.defaultValue c) as [[|b|n|v]|]; try reflexivity.
  - destruct d, b; reflexivity.
  - apply single_line_toString.
  - destruct (SQL.is_sql_function v); [exact Hd|].
    rewrite !single_line_app, single_line_escape, Hd. reflexivity.
Qed.

Lemma single_line_generateColumn (c : Column.t) (t : Table.t) :
  Shape.table_single_line t = true -> Shape.column_single_line c = true ->
  single_line (SQL.generateColumn d c t) = true.
Proof.
  intros Ht Hc. unfold SQL.generateColumn. apply single_line_join; [reflexivity|].
  unfold SQL.columnParts. rewrite !forallb_app. simpl.
  rewrite single_line_app, single_line_quote, (single_line_getColumnType c t Ht Hc).
  assert (Hn : single_line (Column.name c) = true).
  { revert Hc. unfold Shape.column_single_line. rewrite !andb_true_iff. tauto. }
  rewrite Hn. simpl.
  repeat match goal with |- context [if ?b then _ else _] => destruct b end; simpl;
    rewrite ?append_nil_l, ?(single_line_formatDefaultValue c Hc); reflexivity.
Qed.

Lemma indented_generateColumn (c : Column.t) (t : Table.t) :
  starts_with " " (SQL.generateColumn d c t) = true.
Proof. unfold SQL.generateColumn, SQL.columnParts. simpl app. rewrite join_cons. reflexivity. Qed.

Lemma columns_of_table (t : Table.t) :
  Shape.table_single_line t = true ->
  forallb Shape.column_single_line (Table.columns t) = true.
Proof. unfold Shape.table_single_line. rewrite !andb_true_iff. tauto. Qed.

Lemma single_line_primaryKeyLine (pk : list Column.t) :
  forallb Shape.column_single_line pk = true ->
  single_line (SQL.primaryKeyLine d pk) = true.
Proof.
  intros H. unfold SQL.primaryKeyLine. rewrite !single_line_app. simpl.
  rewrite andb_true_r. apply single_line_join; [reflexivity|].
  induction pk as [|c pk IH]; [reflexivity|].
  apply andb_prop in H as [Hc Hpk]. simpl.
  rewrite single_line_quote, (IH Hpk), (column_name_single c Hc). reflexivity.
Qed.

Lemma columnDefs_indented (t : Table.t) :
  Shape.table_single_line t = true ->
  Forall (fun x => single_line x = true /\ starts_with " " x = true) (SQL.columnDefs d t).
Proof.
  intros Ht. pose proof (columns_of_table t Ht) as Hcols.
  unfold SQL.columnDefs. apply Forall_app. split.
  - apply List.Forall_forall. intros x [c [<- Hin]]%in_map_iff. split.
    + apply single_line_generateColumn; [exact Ht|].
      apply (proj1 (forallb_forall _ _) Hcols c Hin).
    + apply indented_generateColumn.
  - assert (Hpk : forallb Shape.column_single_line (SQL.pkColumns t) = true).
    { apply forallb_forall. intros c [Hin _]%List.filter_In.
      apply (proj1 (forallb_forall _ _) Hcols c Hin). }
    destruct (SQL.pkColumns t) as [|c pk]; constructor; [|constructor].
    split; [apply single_line_primaryKeyLine, Hpk|reflexivity].
Qed.

Variable P : string -> bool.
Hypothesis P_statement : P = Shape.is_create_table \/ P = Shape.is_alter_table.

Ltac P_cases := destruct P_statement as [-> | ->].

Lemma marked_commentStatements (t : Table.t) :
  Shape.table_single_line t = true ->
  flat_map (Shape.marked P) (SQL.commentStatements d t) = [].
Proof.
  intros Ht. pose proof (single_line_tableName t Ht) as Htn.
  pose proof (columns_of_table t Ht) as Hcols.
  assert (Hcomment : Shape.opt_single_line (Table.comment t) = true).
  { revert Ht. unfold Shape.table_single_line. rewrite !andb_true_iff. tauto. }
  unfold SQL.commentStatements. destruct (SQL.is_postgresql d); [|reflexivity].
  rewrite flat_map_app.
  match goal with |- ?a ++ ?b = [] => assert (Ha : a = []); [|assert (Hb : b = [])] end.
  - destruct (Table.comment t) as [c|]; [|reflexivity].
    destruct (truthy c); [|reflexivity]. simpl. rewrite List.app_nil_r.
    apply marked_quiet; [|P_cases; reflexivity].
    rewrite !single_line_app, Htn, single_line_escape. simpl in Hcomment.
    rewrite Hcomment. reflexivity.
  - clear Ha. induction (Table.columns t) as [|c cs IH]; [reflexivity|].
    apply andb_prop in Hcols as [Hc Hcs]. simpl.
    rewrite flat_map_app, (IH Hcs), List.app_nil_r.
    pose proof (column_name_single c Hc) as Hn.
    assert (Hcm : Shape.opt_single_line (Column.comment c) = true).
    { revert Hc. unfold Shape.column_single_line. rewrite !andb_true_iff. tauto. }
    destruct (Column.comment c) as [cm|]; [|reflexivity].
    destruct (truthy cm); [|reflexivity]. simpl. rewrite List.app_nil_r.
    apply marked_quiet; [|P_cases; reflexivity].
    rewrite !single_line_app, Htn, single_line_quote, Hn, single_line_escape.
    simpl in Hcm. rewrite Hcm. reflexivity.
  - rewrite Ha, Hb. reflexivity.
Qed.

Lemma marked_statements {A : Type} (f g : A -> string) (l : list A) :
  (forall a, In a l -> Shape.marked P (f a) = List.filter P [g a]) ->
  flat_map (Shape.marked P) (map f l) = List.filter P (map g l).
Proof.
  induction l as [|a l IH]; [reflexivity|]. intros H. simpl.
  rewrite (H a (or_introl eq_refl)), IH by (intros b Hb; apply H; right; exact Hb).
  simpl. destruct (P (g a)); reflexivity.
Qed.

Lemma marked_silent {A : Type} (f : A -> string) (l : list A) :
  (forall a, In a l -> Shape.marked P (f a) = []) ->
  flat_map (Shape.marked P) (map f l) = [].
Proof.
  induction l as [|a l IH]; [reflexivity|]. intros H. simpl.
  rewrite (H a (or_introl eq_refl)), IH by (intros b Hb; apply H; right; exact Hb).
  reflexivity.
Qed.

(** The one marked line a table can contribute is its [CREATE TABLE] line. *)
Lemma marked_generateTable (t : Table.t) :
  Shape.table_single_line t = true ->
  Shape.marked P (SQL.generateTable d t) = List.filter P [SQL.createTableLine d t].
Proof.
  intros Ht. unfold SQL.generateTable. rewrite (marked_join_nl P P_statement).
  unfold SQL.tableLines. rewrite !flat_map_app, (marked_commentStatements t Ht).
  assert (Hc : flat_map (Shape.marked P)
                 match Table.comment t with
                 | Some c => if truthy c then ["-- " +:+ c] else []
                 | None => []
                 end = []).
  { assert (Hcomment : Shape.opt_single_line (Table.comment t) = true).
    { revert Ht. unfold Shape.table_single_line. rewrite !andb_true_iff. tauto. }
    destruct (Table.comment t) as [c|]; [|reflexivity].
    destruct (truthy c); [|reflexivity]. simpl. rewrite List.app_nil_r.
    apply marked_quiet; [|P_cases; reflexivity].
    rewrite single_line_app. exact Hcomment. }
  rewrite Hc. simpl.
  rewrite (marked_indented P P_statement _ (columnDefs_indented t Ht)).
  rewrite (marked_quiet P (")" +:+ SQL.engineSuffix d +:+ ";")).
  - rewrite !List.app_nil_r. apply marked_single.
    unfold SQL.createTableLine. rewrite !single_line_app, (single_line_tableName t Ht).
    reflexivity.
  - destruct d; reflexivity.
  - P_cases; reflexivity.
Qed.

Lemma foreignKeyStatement_lines (t : Table.t) (fk : ForeignKey.t) :
  SQL.foreignKeyStatement d t fk
  = join nl
      [SQL.alterTableLine d t;
       "  ADD CONSTRAINT " +:+ SQL.quote d (ForeignKey.constraintName fk);
       "  FOREIGN KEY (" +:+ SQL.quote d (ForeignKey.columnName fk) +:+ ")";
       "  REFERENCES " +:+ SQL.quote d (ForeignKey.referencedTable fk) +:+ " ("
         +:+ SQL.quote d (ForeignKey.referencedColumn fk) +:+ ")";
       "  ON DELETE " +:+ IR.action_text (ForeignKey.onDelete fk)
         +:+ (match ForeignKey.onUpdate fk with
              | Some a => " ON UPDATE " +:+ IR.action_text a
              | None => ""
              end)
         +:+ ";"].
Proof.
  unfold SQL.foreignKeyStatement, join. simpl String.concat.
  rewrite !append_assoc. reflexivity.
Qed.

(** The one marked line of a foreign-key statement is its [ALTER TABLE]
    line. *)
Lemma marked_foreignKeyStatement (t : Table.t) (fk : ForeignKey.t) :
  Shape.table_single_line t = true ->
  Shape.foreignKey_single_line fk = true ->
  Shape.marked P (SQL.foreignKeyStatement d t fk) = List.filter P [SQL.alterTableLine d t].
Proof.
  intros Ht. unfold Shape.foreignKey_single_line. rewrite !andb_true_iff.
  intros (((H1 & H2) & H3) & H4).
  rewrite foreignKeyStatement_lines, (marked_join_nl P P_statement).
  rewrite flat_map_marked_single.
  - simpl. destruct (P (SQL.alterTableLine d t)); P_cases; reflexivity.
  - simpl. unfold SQL.alterTableLine.
    rewrite !single_line_app, !single_line_quote, (single_line_tableName t Ht),
      H1, H2, H3, H4, single_line_action.
    destruct (ForeignKey.onUpdate fk) as [a|];
      rewrite ?single_line_app, ?single_line_action; reflexivity.
Qed.

Lemma junctionCreate_lines (rel : Relationship.t) (jt : Junction.t) :
  SQL.junctionCreate d rel jt
  = join nl
      [SQL.junctionCreateLine d jt;
       "  " +:+ SQL.quote d (Junction.sourceColumn jt) +:+ " " +:+ SQL.intType d +:+ " NOT NULL,";
       "  " +:+ SQL.quote d (Junction.targetColumn jt) +:+ " " +:+ SQL.intType d +:+ " NOT NULL,";
       "  created_at TIMESTAMP DEFAULT CURRENT_TIMESTAMP,";
       "  PRIMARY KEY (" +:+ SQL.quote d (Junction.sourceColumn jt) +:+ ", "
         +:+ SQL.quote d (Junction.targetColumn jt) +:+ "),";
       "  FOREIGN KEY (" +:+ SQL.quote d (Junction.sourceColumn jt) +:+ ") REFERENCES "
         +:+ SQL.quote d (Relationship.sourceTable rel) +:+ " ("
         +:+ SQL.quote d (Relationship.sourceColumn rel) +:+ ") ON DELETE CASCADE,";
       "  FOREIGN KEY (" +:+ SQL.quote d (Junction.targetColumn jt) +:+ ") REFERENCES "
         +:+ SQL.quote d (Relationship.targetTable rel) +:+ " ("
         +:+ SQL.quote d (Relationship.targetColumn rel) +:+ ") ON DELETE CASCADE";
       ")" +:+ SQL.engineSuffix d +:+ ";"].
Proof.
  unfold SQL.junctionCreate, join. simpl String.concat.
  replace (if SQL.is_postgresql d then "CURRENT_TIMESTAMP" else "CURRENT_TIMESTAMP")
    with "CURRENT_TIMESTAMP" by (destruct d; reflexivity).
  rewrite !append_assoc. reflexivity.
Qed.

(** The one marked line of a junction table is its [CREATE TABLE] line. *)
Lemma marked_junctionStatement (rel : Relationship.t) :
  Shape.relationship_single_line rel = true ->
  flat_map (Shape.marked P) (SQL.junctionStatement d rel)
  = List.filter P
      (map (SQL.junctionCreateLine d)
           (match Relationship.junctionTable rel with Some jt => [jt] | None => [] end)).
Proof.
  unfold Shape.relationship_single_line, SQL.junctionStatement. rewrite !andb_true_iff.
  intros ((((H1 & H2) & H3) & H4) & Hjt).
  destruct (Relationship.junctionTable rel) as [jt|]; [|reflexivity].
  revert Hjt. unfold Shape.junction_single_line. rewrite !andb_true_iff.
  intros ((J1 & J2) & J3). simpl. rewrite List.app_nil_r.
  rewrite <- (append_assoc "-- Junction table for "), <- (append_assoc _ " <-> "),
    <- (append_assoc _ (Relationship.targetTable rel)).
  rewrite marked_headed.
  - rewrite junctionCreate_lines, (marked_join_nl P P_statement), flat_map_marked_single.
    + simpl. destruct (P (SQL.junctionCreateLine d jt)); destruct d; P_cases; reflexivity.
    + simpl. unfold SQL.junctionCreateLine.
      rewrite !single_line_app, !single_line_quote, H1, H2, H3, H4, J1, J2, J3.
      destruct d; reflexivity.
  - rewrite !single_line_app, H1, H3. reflexivity.
  - rewrite !append_assoc. P_cases; reflexivity.
Qed.

Lemma marked_indexStatement (t : Table.t) (i : Index.t) :
  Shape.table_single_line t = true ->
  Shape.index_single_line i = true ->
  Shape.marked P (SQL.indexStatement d t i) = [].
Proof.
  intros Ht [Hn Hcols]%andb_prop. unfold SQL.indexStatement.
  apply marked_quiet.
  - rewrite !single_line_app, single_line_quote, Hn, (single_line_tableName t Ht).
    rewrite (single_line_join ", " (map (SQL.quote d) (Index.columns i))); [|reflexivity|].
    + destruct (Index.isUnique i), (Index.type i) as [[]|], d; reflexivity.
    + clear Hn. induction (Index.columns i) as [|c cs IH]; [reflexivity|].
      apply andb_prop in Hcols as [Hc Hcs]. simpl.
      rewrite single_line_quote, Hc. apply IH, Hcs.
  - destruct (Index.isUnique i); P_cases; reflexivity.
Qed.

End SectionLines.

(** ** Lines of the compiled SQL *)

Section SchemaLines.
Import Text.

Lemma schema_tables_single (s : Schema.t) :
  Shape.schema_single_line s = true ->
  forallb Shape.table_single_line (Schema.tables s) = true.
Proof. unfold Shape.schema_single_line. rewrite !andb_true_iff. tauto. Qed.

Lemma schema_relationships_single (s : Schema.t) :
  Shape.schema_single_line s = true ->
  forallb Shape.relationship_single_line (Schema.relationships s) = true.
Proof. unfold Shape.schema_single_line. rewrite !andb_true_iff. tauto. Qed.

Lemma generateHeader_lines (now : string) (s : Schema.t) :
  SQL.generateHeader now s
  = join nl
      [SQL.rule;
       "-- Database Schema: " +:+ Schema.name s;
       "-- Dialect: " +:+ (if SQL.is_postgresql (Schema.dialect s) then "PostgreSQL" else "MySQL");
       "-- Generated: " +:+ now;
       "-- Description: " +:+ or_else (Schema.description s) "Auto-generated schema";
       SQL.rule].
Proof.
  unfold SQL.generateHeader, join. simpl String.concat.
  rewrite !append_assoc. reflexivity.
Qed.

Variable P : string -> bool.
Hypothesis P_statement : P = Shape.is_create_table \/ P = Shape.is_alter_table.

Ltac P_cases := destruct P_statement as [-> | ->].

Lemma marked_generateHeader (now : string) (s : Schema.t) :
  single_line now = true ->
  Shape.schema_single_line s = true ->
  Shape.marked P (SQL.generateHeader now s) = [].
Proof.
  intros Hnow. unfold Shape.schema_single_line. rewrite !andb_true_iff.
  intros (((Hn & Hd) & _) & _).
  rewrite generateHeader_lines, (marked_join_nl P P_statement), flat_map_marked_single.
  - P_cases; reflexivity.
  - simpl. rewrite !single_line_app, Hn, Hnow.
    assert (Hor : single_line (or_else (Schema.description s) "Auto-generated schema") = true).
    { unfold or_else. destruct (truthy (Schema.description s)); [exact Hd|reflexivity]. }
    rewrite Hor. destruct (SQL.is_postgresql (Schema.dialect s)); reflexivity.
Qed.

Lemma schemaNames_single (s : Schema.t) :
  forallb Shape.table_single_line (Schema.tables s) = true ->
  forallb single_line (SQL.schemaNames s) = true.
Proof.
  unfold SQL.schemaNames.
  assert (Hgen : forall ts acc,
    forallb Shape.table_single_line ts = true ->
    forallb single_line acc = true ->
    forallb single_line
      (fold_left
         (fun schemas t =>
            match Table.schema t with
            | Some n =>
                if truthy n && negb (String.eqb n "public") then set_add schemas n
                else schemas
            | None => schemas
            end) ts acc) = true).
  { induction ts as [|t ts IH]; intros acc Hts Hacc; [exact Hacc|].
    apply andb_prop in Hts as [Ht Hts]. simpl. apply IH; [exact Hts|].
    assert (Hs : Shape.opt_single_line (Table.schema t) = true).
    { revert Ht. unfold Shape.table_single_line. rewrite !andb_true_iff. tauto. }
    destruct (Table.schema t) as [n|]; [|exact Hacc].
    destruct (truthy n && negb (String.eqb n "public")); [|exact Hacc].
    unfold set_add. destruct (existsb (String.eqb n) acc); [exact Hacc|].
    rewrite forallb_app, Hacc. simpl. simpl in Hs. rewrite Hs. reflexivity. }
  intros H. apply Hgen; [exact H|reflexivity].
Qed.

Lemma marked_generateSchemaStatements (s : Schema.t) :
  forallb Shape.table_single_line (Schema.tables s) = true ->
  Shape.marked P (SQL.generateSchemaStatements s) = [].
Proof.
  intros H. pose proof (schemaNames_single s H) as Hn.
  unfold SQL.generateSchemaStatements.
  destruct (SQL.schemaNames s) as [|n ns] eqn:E; [apply (marked_empty P P_statement)|].
  rewrite (marked_join_nl P P_statement). apply marked_silent.
  intros a Ha. apply marked_quiet; [|P_cases; reflexivity].
  rewrite !single_line_app, single_line_quote.
  rewrite (proj1 (forallb_forall _ _) Hn a Ha). reflexivity.
Qed.

Lemma marked_generateEnumTypes (s : Schema.t) :
  forallb Shape.table_single_line (Schema.tables s) = true ->
  Shape.marked P (SQL.generateEnumTypes s) = [].
Proof.
  intros H. unfold SQL.generateEnumTypes.
  assert (Hall : flat_map (Shape.marked P) (SQL.enumStatements s) = []).
  { unfold SQL.enumStatements.
    induction (Schema.tables s) as [|t ts IH]; [reflexivity|].
    apply andb_prop in H as [Ht Hts]. simpl. rewrite flat_map_app, (IH Hts), List.app_nil_r.
    pose proof (columns_of_table t Ht) as Hcols.
    assert (Hname : single_line (Table.name t) = true).
    { revert Ht. unfold Shape.table_single_line. rewrite !andb_true_iff. tauto. }
    clear IH Ht.
    induction (Table.columns t) as [|c cs IHc]; [reflexivity|].
    apply andb_prop in Hcols as [Hc Hcs]. simpl. rewrite flat_map_app, (IHc Hcs), List.app_nil_r.
    pose proof (column_name_single c Hc) as Hcn.
    assert (Hv : forallb single_line (default [] (Column.enumValues c)) = true).
    { revert Hc. unfold Shape.column_single_line. rewrite !andb_true_iff. tauto. }
    destruct (Column.type c); try reflexivity.
    destruct (Column.enumValues c) as [[|v vs]|]; try reflexivity.
    simpl. rewrite List.app_nil_r. apply marked_quiet; [|P_cases; reflexivity].
    unfold SQL.enumTypeName. change (default [] (Some (v :: vs))) with (v :: vs) in Hv.
    rewrite !single_line_app, Hname, Hcn, (single_line_enumLiterals _ Hv). reflexivity. }
  destruct (SQL.enumStatements s) as [|e es]; [apply (marked_empty P P_statement)|].
  rewrite marked_headed; [|reflexivity|P_cases; reflexivity].
  rewrite (marked_join_nl P P_statement). exact Hall.
Qed.

Lemma marked_generateTables (s : Schema.t) :
  forallb Shape.table_single_line (Schema.tables s) = true ->
  Shape.marked P (SQL.generateTables s)
  = List.filter P (map (SQL.createTableLine (Schema.dialect s)) (Schema.tables s)).
Proof.
  intros H. unfold SQL.generateTables.
  rewrite marked_headed; [|reflexivity|P_cases; reflexivity].
  rewrite (marked_join_blank P P_statement). apply marked_statements.
  intros t Ht. apply (marked_generateTable _ P P_statement).
  apply (proj1 (forallb_forall _ _) H t Ht).
Qed.

Lemma marked_generateIndexes (s : Schema.t) :
  forallb Shape.table_single_line (Schema.tables s) = true ->
  Shape.marked P (SQL.generateIndexes s) = [].
Proof.
  intros H. unfold SQL.generateIndexes.
  assert (Hall : flat_map (Shape.marked P) (SQL.indexStatements s) = []).
  { unfold SQL.indexStatements.
    induction (Schema.tables s) as [|t ts IH]; [reflexivity|].
    apply andb_prop in H as [Ht Hts]. simpl. rewrite flat_map_app, (IH Hts), List.app_nil_r.
    apply marked_silent. intros i Hi. apply (marked_indexStatement _ P P_statement); [exact Ht|].
    assert (Hidx : forallb Shape.index_single_line (Table.indexes t) = true).
    { revert Ht. unfold Shape.table_single_line. rewrite !andb_true_iff. tauto. }
    apply (proj1 (forallb_forall _ _) Hidx i Hi). }
  destruct (SQL.indexStatements s) as [|e es]; [apply (marked_empty P P_statement)|].
  rewrite marked_headed; [|reflexivity|P_cases; reflexivity].
  rewrite (marked_join_nl P P_statement). exact Hall.
Qed.

Lemma marked_generateForeignKeys (s : Schema.t) :
  forallb Shape.table_single_line (Schema.tables s) = true ->
  Shape.marked P (SQL.generateForeignKeys s)
  = List.filter P (map (SQL.alterTableLine (Schema.dialect s)) (Shape.foreignKeyOwners s)).
Proof.
  intros H. unfold SQL.generateForeignKeys.
  assert (Hall : flat_map (Shape.marked P) (SQL.foreignKeyStatements s)
                 = List.filter P (map (SQL.alterTableLine (Schema.dialect s))
                                      (Shape.foreignKeyOwners s))).
  { unfold SQL.foreignKeyStatements, Shape.foreignKeyOwners.
    induction (Schema.tables s) as [|t ts IH]; [reflexivity|].
    apply andb_prop in H as [Ht Hts]. simpl.
    rewrite flat_map_app, map_app, List.filter_app, (IH Hts). f_equal.
    rewrite map_map. apply marked_statements. intros fk Hfk.
    apply (marked_foreignKeyStatement _ P P_statement); [exact Ht|].
    assert (Hfks : forallb Shape.foreignKey_single_line (Table.foreignKeys t) = true).
    { revert Ht. unfold Shape.table_single_line. rewrite !andb_true_iff. tauto. }
    apply (proj1 (forallb_forall _ _) Hfks fk Hfk). }
  destruct (SQL.foreignKeyStatements s) as [|e es].
  - rewrite <- Hall. apply (marked_empty P P_statement).
  - rewrite marked_headed; [|reflexivity|P_cases; reflexivity].
    rewrite (marked_join_blank P P_statement). exact Hall.
Qed.

Lemma marked_generateJunctionTables (s : Schema.t) :
  forallb Shape.relationship_single_line (Schema.relationships s) = true ->
  Shape.marked P (SQL.generateJunctionTables s)
  = List.filter P (map (SQL.junctionCreateLine (Schema.dialect s)) (Shape.junctionTables s)).
Proof.
  intros H. unfold SQL.generateJunctionTables.
  assert (Hall : flat_map (Shape.marked P) (SQL.junctionStatements s)
                 = List.filter P (map (SQL.junctionCreateLine (Schema.dialect s))
                                      (Shape.junctionTables s))).
  { unfold SQL.junctionStatements, Shape.junctionTables.
    assert (Hsub : forallb Shape.relationship_single_line
                     (List.filter SQL.has_junction (Schema.relationships s)) = true).
    { apply forallb_forall. intros r [Hr _]%List.filter_In.
      apply (proj1 (forallb_forall _ _) H r Hr). }
    induction (List.filter SQL.has_junction (Schema.relationships s)) as [|r rs IH];
      [reflexivity|].
    apply andb_prop in Hsub as [Hr Hrs]. simpl.
    rewrite flat_map_app, map_app, List.filter_app, (IH Hrs). f_equal.
    apply (marked_junctionStatement _ P P_statement). exact Hr. }
  destruct (SQL.junctionStatements s) as [|e es].
  - rewrite <- Hall. apply (marked_empty P P_statement).
  - rewrite marked_headed; [|reflexivity|P_cases; reflexivity].
    rewrite (marked_join_blank P P_statement). exact Hall.
Qed.

Lemma nonblank_push_if (x : string) :
  (x = "" \/ exists r, x = String "-" r) ->
  SQL.nonblank (SQL.push_if x) = SQL.push_if x.
Proof.
  intros [-> | [r ->]]; [reflexivity|].
  unfold SQL.push_if, SQL.nonblank. simpl truthy. simpl List.filter.
  rewrite trim_truthy; reflexivity.
Qed.

Lemma flat_map_marked_push_if (x : string) :
  flat_map (Shape.marked P) (SQL.push_if x) = Shape.marked P x.
Proof.
  unfold SQL.push_if. destruct x; simpl.
  - symmetry. apply (marked_empty P P_statement).
  - apply List.app_nil_r.
Qed.

(** The marked lines of a section that is pushed when it is not empty,
    with the empty line that sets it apart. *)
Lemma marked_group (x : string) :
  (x = "" \/ exists r, x = String "-" r) ->
  List.filter P (Shape.after_blank (SQL.nonblank (SQL.push_if x))) = Shape.marked P x.
Proof.
  intros Hx. rewrite (nonblank_push_if x Hx).
  destruct Hx as [-> | [r ->]].
  - simpl. symmetry. apply (marked_empty P P_statement).
  - unfold SQL.push_if, Shape.after_blank. simpl truthy. cbn iota.
    simpl List.filter. rewrite (P_empty P P_statement). reflexivity.
Qed.

Lemma marked_nonblank_silent (l : list string) :
  (forall x, In x l -> Shape.marked P x = []) ->
  flat_map (Shape.marked P) (SQL.nonblank l) = [].
Proof.
  induction l as [|x l IH]; intros H; [reflexivity|].
  unfold SQL.nonblank in *. simpl.
  destruct (truthy (trim x)); simpl;
    rewrite ?(H x (or_introl eq_refl)), IH; auto; intros y Hy; apply H; right; exact Hy.
Qed.

Lemma marked_frontLines (now : string) (s : Schema.t) :
  single_line now = true ->
  Shape.schema_single_line s = true ->
  List.filter P (Shape.frontLines now s)
  = List.filter P (map (SQL.createTableLine (Schema.dialect s)) (Schema.tables s)).
Proof.
  intros Hnow Hs. pose proof (schema_tables_single s Hs) as Ht.
  unfold Shape.frontLines. fold (Shape.marked P (join (nl +:+ nl)
    (SQL.nonblank (Shape.frontSections now s)))).
  rewrite (marked_join_blank P P_statement). unfold Shape.frontSections.
  rewrite !nonblank_app, !flat_map_app.
  rewrite (marked_nonblank_silent (SQL.preambleSections s)).
  - rewrite (marked_nonblank_silent (SQL.push_if (SQL.generateIndexes s))).
    + unfold SQL.nonblank. simpl List.filter. rewrite header_kept, tables_kept. simpl.
      rewrite (marked_generateHeader now s Hnow Hs), (marked_generateTables s Ht).
      rewrite !List.app_nil_r. reflexivity.
    + intros x Hx. unfold SQL.push_if in Hx.
      destruct (truthy (SQL.generateIndexes s)); [|contradiction].
      destruct Hx as [<-|[]]. apply marked_generateIndexes, Ht.
  - intros x Hx. unfold SQL.preambleSections in Hx. apply in_app_iff in Hx as [Hx|Hx].
    + destruct (SQL.is_postgresql (Schema.dialect s)
                && existsb (fun t => truthy_opt (Table.schema t)) (Schema.tables s));
        [|contradiction].
      destruct Hx as [<-|[]]. apply marked_generateSchemaStatements, Ht.
    + destruct (SQL.is_postgresql (Schema.dialect s)); [|contradiction].
      unfold SQL.push_if in Hx. destruct (truthy (SQL.generateEnumTypes s)); [|contradiction].
      destruct Hx as [<-|[]]. apply marked_generateEnumTypes, Ht.
Qed.

Lemma marked_backLines (s : Schema.t) :
  Shape.schema_single_line s = true ->
  List.filter P (Shape.backLines s)
  = List.filter P (map (SQL.alterTableLine (Schema.dialect s)) (Shape.foreignKeyOwners s))
    ++ List.filter P (map (SQL.junctionCreateLine (Schema.dialect s)) (Shape.junctionTables s))
    ++ Shape.marked P (SQL.generateStoredProcedures s).
Proof.
  intros Hs. pose proof (schema_tables_single s Hs) as Ht.
  pose proof (schema_relationships_single s Hs) as Hr.
  assert (Hback : List.filter P (Shape.backLines s)
                  = flat_map (Shape.marked P) (SQL.nonblank (Shape.backSections s))).
  { unfold Shape.backLines, Shape.after_blank.
    destruct (SQL.nonblank (Shape.backSections s)) as [|b bs] eqn:E; [reflexivity|].
    rewrite <- (marked_join_blank P P_statement). unfold Shape.marked. simpl List.filter.
    rewrite (P_empty P P_statement). reflexivity. }
  rewrite Hback. unfold Shape.backSections, SQL.trailingSections.
  rewrite !nonblank_app, !flat_map_app, !nonblank_push_if, !flat_map_marked_push_if.
  - rewrite (marked_generateForeignKeys s Ht), (marked_generateJunctionTables s Hr).
    reflexivity.
  - unfold SQL.generateStoredProcedures.
    destruct (Schema.storedProcedures s); [left|right; eexists]; reflexivity.
  - unfold SQL.generateJunctionTables.
    destruct (SQL.junctionStatements s); [left|right; eexists]; reflexivity.
  - unfold SQL.generateForeignKeys.
    destruct (SQL.foreignKeyStatements s); [left|right; eexists]; reflexivity.
Qed.

End SchemaLines.

Section CompileLines.
Import Text.

(** The output falls into the lines of the sections up to the indexes and
    the lines of the sections from the foreign keys on. *)
Lemma compile_lines (now : string) (s : Schema.t) :
  lines (SQL.compile now s) = Shape.frontLines now s ++ Shape.backLines s.
Proof.
  unfold SQL.compile, Shape.frontLines, Shape.backLines.
  replace (SQL.sections now s) with (Shape.frontSections now s ++ Shape.backSections s).
  - rewrite nonblank_app. apply lines_join_blank_app.
    unfold Shape.frontSections. rewrite nonblank_app. unfold SQL.nonblank at 1.
    simpl List.filter. rewrite header_kept. discriminate.
  - unfold SQL.sections, Shape.frontSections, Shape.backSections.
    rewrite <- !List.app_assoc. reflexivity.
Qed.

Lemma create_lines_kept {A : Type} (f : A -> string) (l : list A) :
  (forall a, Shape.is_create_table (f a) = true) ->
  List.filter Shape.is_create_table (map f l) = map f l.
Proof.
  intros H. induction l as [|a l IH]; [reflexivity|]. simpl. rewrite H, IH. reflexivity.
Qed.

Lemma alter_lines_kept {A : Type} (f : A -> string) (l : list A) :
  (forall a, Shape.is_alter_table (f a) = true) ->
  List.filter Shape.is_alter_table (map f l) = map f l.
Proof.
  intros H. induction l as [|a l IH]; [reflexivity|]. simpl. rewrite H, IH. reflexivity.
Qed.

Lemma lines_dropped {A : Type} (P : string -> bool) (f : A -> string) (l : list A) :
  (forall a, P (f a) = false) -> List.filter P (map f l) = [].
Proof.
  intros H. induction l as [|a l IH]; [reflexivity|]. simpl. rewrite H, IH. reflexivity.
Qed.

End CompileLines.

(** ** The implicit relationships of the diagram *)

Section Implicit.
Import Text.

Lemma hyphen_free_cons (c : ascii) (x : string) :
  Shape.hyphen_free (String c x) = true -> c <> "-"%char /\ Shape.hyphen_free x = true.
Proof.
  unfold Shape.hyphen_free. rewrite includes_unfold.
  change (starts_with "-" (String c x)) with (Ascii.eqb "-" c && true).
  destruct (Ascii.eqb_spec "-"%char c) as [<-|Hne]; [discriminate|].
  intros H. split; [congruence|exact H].
Qed.

Lemma hyphen_split (a b c d : string) :
  Shape.hyphen_free a = true -> Shape.hyphen_free c = true ->
  a +:+ String "-" b = c +:+ String "-" d -> a = c /\ b = d.
Proof.
  revert c.
  induction a as [|x a IH]; intros [|y c] Ha Hc H;
    rewrite ?append_nil_l, ?append_cons in H.
  - split; [reflexivity|]. congruence.
  - apply hyphen_free_cons in Hc as [Hy _]. congruence.
  - apply hyphen_free_cons in Ha as [Hx _]. congruence.
  - apply hyphen_free_cons in Ha as [_ Ha]. apply hyphen_free_cons in Hc as [_ Hc].
    assert (Hxy : x = y) by congruence. subst y.
    assert (Hr : a +:+ String "-" b = c +:+ String "-" d) by congruence.
    destruct (IH c Ha Hc Hr) as [-> ->]. auto.
Qed.

(** A key names one ordered pair when the first names hold no hyphen. *)
Lemma relKey_inj (a b c d : string) :
  Shape.hyphen_free a = true -> Shape.hyphen_free c = true ->
  Mermaid.relKey a b = Mermaid.relKey c d -> a = c /\ b = d.
Proof. apply hyphen_split. Qed.

Lemma explicitKeys_spec (s : Schema.t) (k : string) :
  k ∈ Mermaid.explicitKeys s
  <-> exists r, In r (Schema.relationships s)
        /\ k = Mermaid.relKey (Relationship.sourceTable r) (Relationship.targetTable r).
Proof.
  unfold Mermaid.explicitKeys. rewrite elem_of_list_to_set, list_elem_of_In, in_map_iff.
  split; intros (r & H1 & H2); exists r; auto.
Qed.

(** The pass over pairs runs in step with the pass of the compiler. *)
Lemma implicitStep_pairStep (owner : string) (fk : ForeignKey.t)
    (emitted : list (string * string)) (keys : gset string) :
  Mermaid.implicitStep owner (map Shape.pairLine emitted, keys) fk
  = (map Shape.pairLine
         (fst (Shape.pairStep (emitted, keys) (owner, ForeignKey.referencedTable fk))),
     snd (Shape.pairStep (emitted, keys) (owner, ForeignKey.referencedTable fk))).
Proof.
  unfold Mermaid.implicitStep, Shape.pairStep.
  destruct (negb (bool_decide (Mermaid.relKey owner (ForeignKey.referencedTable fk) ∈ keys))
            && negb (bool_decide (Mermaid.relKey (ForeignKey.referencedTable fk) owner ∈ keys)));
    [|reflexivity].
  simpl. rewrite map_app. reflexivity.
Qed.

Lemma implicit_inner (owner : string) (fks : list ForeignKey.t)
    (emitted : list (string * string)) (keys : gset string) :
  fold_left (Mermaid.implicitStep owner) fks (map Shape.pairLine emitted, keys)
  = (map Shape.pairLine
         (fst (fold_left Shape.pairStep
                 (map (fun fk => (owner, ForeignKey.referencedTable fk)) fks)
                 (emitted, keys))),
     snd (fold_left Shape.pairStep
            (map (fun fk => (owner, ForeignKey.referencedTable fk)) fks)
            (emitted, keys))).
Proof.
  revert emitted keys. induction fks as [|fk fks IH]; intros emitted keys; [reflexivity|].
  cbn [fold_left map]. rewrite implicitStep_pairStep.
  destruct (Shape.pairStep (emitted, keys) (owner, ForeignKey.referencedTable fk))
    as [emitted' keys'] eqn:E.
  cbn [fst snd]. apply IH.
Qed.

Lemma implicit_outer (ts : list Table.t) (emitted : list (string * string))
    (keys : gset string) :
  fold_left
    (fun st table => fold_left (Mermaid.implicitStep (Table.name table))
                               (Table.foreignKeys table) st)
    ts (map Shape.pairLine emitted, keys)
  = (map Shape.pairLine
         (fst (fold_left Shape.pairStep
                 (flat_map
                    (fun t => map (fun fk => (Table.name t, ForeignKey.referencedTable fk))
                                  (Table.foreignKeys t)) ts)
                 (emitted, keys))),
     snd (fold_left Shape.pairStep
            (flat_map
               (fun t => map (fun fk => (Table.name t, ForeignKey.referencedTable fk))
                             (Table.foreignKeys t)) ts)
            (emitted, keys))).
Proof.
  revert emitted keys. induction ts as [|t ts IH]; intros emitted keys; [reflexivity|].
  cbn [fold_left flat_map]. rewrite implicit_inner, !fold_left_app.
  destruct (fold_left Shape.pairStep
              (map (fun fk => (Table.name t, ForeignKey.referencedTable fk))
                   (Table.foreignKeys t)) (emitted, keys)) as [emitted' keys'].
  cbn [fst snd]. apply IH.
Qed.

Lemma implicit_lines (s : Schema.t) :
  Mermaid.generateImplicitRelationships s = map Shape.pairLine (fst (Shape.pairPass s)).
Proof.
  unfold Mermaid.generateImplicitRelationships, Mermaid.implicitPass, Shape.pairPass,
    Shape.fkPairs.
  exact (f_equal fst (implicit_outer (Schema.tables s) [] (Mermaid.explicitKeys s))).
Qed.

(** What holds of the pairs emitted and of the set of keys after the pairs
    [ps] have been visited, starting from the keys [K0]. *)
Record pass_invariant (K0 : gset string) (ps : list (string * string))
    (st : list (string * string) * gset string) : Prop := {
  inv_keys : forall k,
    k ∈ snd st <-> k ∈ K0 \/ exists r o, In (r, o) (fst st) /\ k = Mermaid.relKey o r;
  inv_source : forall r o,
    In (r, o) (fst st) ->
    In (o, r) ps /\ (Mermaid.relKey o r ∉ K0) /\ (Mermaid.relKey r o ∉ K0);
  inv_seen : forall o r,
    In (o, r) ps -> Mermaid.relKey o r ∈ snd st \/ Mermaid.relKey r o ∈ snd st;
  inv_once : forall i j r o r' o',
    i < j -> fst st !! i = Some (r, o) -> fst st !! j = Some (r', o') ->
    Mermaid.relKey o' r' <> Mermaid.relKey o r /\ Mermaid.relKey r' o' <> Mermaid.relKey o r
}.

Lemma pass_invariant_start (K0 : gset string) : pass_invariant K0 [] ([], K0).
Proof.
  split; simpl.
  - intros k. split; [auto|]. intros [H|(r & o & [] & _)]. exact H.
  - intros r o [].
  - intros o r [].
  - intros i j r o r' o' _ H. rewrite lookup_nil in H. discriminate.
Qed.

Lemma pass_invariant_step (K0 : gset string) (ps : list (string * string))
    (st : list (string * string) * gset string) (p : string * string) :
  pass_invariant K0 ps st -> pass_invariant K0 (ps ++ [p]) (Shape.pairStep st p).
Proof.
  destruct st as [E K], p as [o r]. intros [Hkeys Hsrc Hseen Honce]. simpl in *.
  unfold Shape.pairStep.
  destruct (bool_decide (Mermaid.relKey o r ∈ K)) eqn:E1; simpl.
  { apply bool_decide_eq_true in E1. split; simpl; auto.
    - intros r0 o0 H. destruct (Hsrc r0 o0 H) as (H1 & H2). split; [|exact H2].
      apply in_app_iff. left. exact H1.
    - intros o0 r0 [H|[H|[]]]%in_app_iff; [apply Hseen, H|].
      injection H as <- <-. left. exact E1. }
  destruct (bool_decide (Mermaid.relKey r o ∈ K)) eqn:E2; simpl.
  { apply bool_decide_eq_true in E2. split; simpl; auto.
    - intros r0 o0 H. destruct (Hsrc r0 o0 H) as (H1 & H2). split; [|exact H2].
      apply in_app_iff. left. exact H1.
    - intros o0 r0 [H|[H|[]]]%in_app_iff; [apply Hseen, H|].
      injection H as <- <-. right. exact E2. }
  apply bool_decide_eq_false in E1. apply bool_decide_eq_false in E2.
  split; simpl.
  - intros k. rewrite elem_of_union, elem_of_singleton, Hkeys. split.
    + intros [[H|(r0 & o0 & H1 & H2)]| ->].
      * left. exact H.
      * right. exists r0, o0. split; [apply in_app_iff; left; exact H1|exact H2].
      * right. exists r, o. split; [apply in_app_iff; right; left; reflexivity|reflexivity].
    + intros [H|(r0 & o0 & [H1|[H1|[]]]%in_app_iff & H2)].
      * left. left. exact H.
      * left. right. exists r0, o0. auto.
      * injection H1 as <- <-. right. exact H2.
  - intros r0 o0 [H|[H|[]]]%in_app_iff.
    + destruct (Hsrc r0 o0 H) as (H1 & H2). split; [|exact H2].
      apply in_app_iff. left. exact H1.
    + injection H as <- <-. split; [apply in_app_iff; right; left; reflexivity|].
      split; intros H0; [apply E1|apply E2]; apply Hkeys; left; exact H0.
  - intros o0 r0 [H|[H|[]]]%in_app_iff.
    + destruct (Hseen o0 r0 H) as [H'|H']; [left|right];
        apply elem_of_union; left; exact H'.
    + injection H as <- <-. left. apply elem_of_union. right.
      apply elem_of_singleton. reflexivity.
  - intros i j r0 o0 r1 o1 Hij Hi Hj.
    destruct (decide (j < length E)) as [Hlt|Hge].
    + rewrite lookup_app_l in Hi by lia. rewrite lookup_app_l in Hj by lia.
      exact (Honce i j r0 o0 r1 o1 Hij Hi Hj).
    + assert (i < length E) as Hi'.
      { apply lookup_lt_Some in Hj. rewrite length_app in Hj. simpl in Hj. lia. }
      rewrite lookup_app_l in Hi by lia.
      rewrite lookup_app_r in Hj by lia.
      destruct (j - length E) as [|n] eqn:En; [|destruct n; discriminate].
      simpl in Hj. injection Hj as <- <-.
      assert (Hin : Mermaid.relKey o0 r0 ∈ K).
      { apply Hkeys. right. exists r0, o0. split; [|reflexivity].
        apply list_elem_of_In. eapply list_elem_of_lookup_2. exact Hi. }
      split; intros Heq; [apply E1|apply E2]; rewrite Heq; exact Hin.
Qed.

Lemma pass_invariant_fold (K0 : gset string) (ps : list (string * string)) :
  pass_invariant K0 ps (fold_left Shape.pairStep ps ([], K0)).
Proof.
  induction ps as [|p ps IH] using rev_ind; [apply pass_invariant_start|].
  rewrite fold_left_app. simpl. apply pass_invariant_step, IH.
Qed.

(** The list of emitted pairs only grows. *)
Lemma pairStep_grows (st : list (string * string) * gset string) (p : string * string) :
  exists more, fst (Shape.pairStep st p) = fst st ++ more.
Proof.
  destruct st as [E K], p as [o r]. unfold Shape.pairStep.
  destruct (negb (bool_decide (Mermaid.relKey o r ∈ K))
            && negb (bool_decide (Mermaid.relKey r o ∈ K))).
  - exists [(r, o)]. reflexivity.
  - exists []. simpl. rewrite List.app_nil_r. reflexivity.
Qed.

Lemma pairPass_grows (ps : list (string * string))
    (st : list (string * string) * gset string) :
  exists more, fst (fold_left Shape.pairStep ps st) = fst st ++ more.
Proof.
  revert st. induction ps as [|p ps IH]; intros st; simpl.
  - exists []. rewrite List.app_nil_r. reflexivity.
  - destruct (pairStep_grows st p) as [m1 H1].
    destruct (IH (Shape.pairStep st p)) as [m2 H2].
    exists (m1 ++ m2). rewrite H2, H1, List.app_assoc. reflexivity.
Qed.

(** An emitted pair comes from the first foreign key that joins its two
    tables. *)
Lemma emitted_from_first (K0 : gset string) (ps : list (string * string)) (r o : string) :
  In (r, o) (fst (fold_left Shape.pairStep ps ([], K0))) ->
  exists before after,
    ps = before ++ (o, r) :: after
    /\ forall p, In p before -> ~ Shape.same_pair p (o, r).
Proof.
  induction ps as [|[o0 r0] ps IH] using rev_ind; [contradiction|].
  rewrite fold_left_app. simpl.
  pose proof (pass_invariant_fold K0 ps) as Hinv.
  destruct (fold_left Shape.pairStep ps ([], K0)) as [E K] eqn:Hfold.
  assert (Hold : In (r, o) E ->
            exists before after,
              ps ++ [(o0, r0)] = before ++ (o, r) :: after
              /\ forall p, In p before -> ~ Shape.same_pair p (o, r)).
  { intros Hin. destruct (IH Hin) as (b & a & -> & Hb).
    exists b, (a ++ [(o0, r0)]). split; [|exact Hb].
    rewrite <- List.app_assoc. reflexivity. }
  unfold Shape.pairStep.
  destruct (bool_decide (Mermaid.relKey o0 r0 ∈ K)) eqn:E1; simpl; [exact Hold|].
  destruct (bool_decide (Mermaid.relKey r0 o0 ∈ K)) eqn:E2; simpl; [exact Hold|].
  intros [Hin|[Heq|[]]]%in_app_iff; [exact (Hold Hin)|].
  injection Heq as <- <-. exists ps, []. split; [reflexivity|].
  apply bool_decide_eq_false in E1. apply bool_decide_eq_false in E2.
  destruct Hinv as [_ _ Hseen _]. simpl in Hseen.
  intros [o' r'] Hp Hsame.
  destruct (Hseen o' r' Hp) as [H|H];
    destruct Hsame as [Heq|Heq]; simpl in Heq; injection Heq as -> ->; contradiction.
Qed.

(** The first foreign key that joins two tables no key stands for is
    emitted, in its own direction. *)
Lemma first_is_emitted (K0 : gset string) (before after : list (string * string))
    (o r : string) :
  (forall a b, In (a, b) (before ++ [(o, r)]) ->
     Shape.hyphen_free a = true /\ Shape.hyphen_free b = true) ->
  Mermaid.relKey o r ∉ K0 ->
  Mermaid.relKey r o ∉ K0 ->
  (forall p, In p before -> ~ Shape.same_pair p (o, r)) ->
  In (r, o) (fst (fold_left Shape.pairStep (before ++ (o, r) :: after) ([], K0))).
Proof.
  intros Hfree H1 H2 Hfirst. rewrite fold_left_app. cbn [fold_left].
  pose proof (pass_invariant_fold K0 before) as Hinv.
  destruct (fold_left Shape.pairStep before ([], K0)) as [E K] eqn:Hfold.
  destruct Hinv as [Hkeys Hsrc _ _]. simpl in Hkeys, Hsrc.
  assert (Hown : Shape.hyphen_free o = true /\ Shape.hyphen_free r = true).
  { apply Hfree, in_app_iff. right. left. reflexivity. }
  assert (Hout : forall a b, (a = o /\ b = r) \/ (a = r /\ b = o) -> Mermaid.relKey a b ∉ K).
  { intros a b Hab [HK|(r' & o' & HE & Heq)]%Hkeys.
    - destruct Hab as [[-> ->]|[-> ->]]; contradiction.
    - destruct (Hsrc r' o' HE) as (Hps & _).
      assert (Ho' : Shape.hyphen_free o' = true).
      { apply (Hfree o' r'), in_app_iff. left. exact Hps. }
      assert (Ha : Shape.hyphen_free a = true).
      { destruct Hab as [[-> _]|[-> _]]; tauto. }
      destruct (relKey_inj a b o' r' Ha Ho' Heq) as [Hao Hbr].
      apply (Hfirst (o', r') Hps). unfold Shape.same_pair. simpl.
      destruct Hab as [[Ha1 Hb1]|[Ha1 Hb1]]; [left|right]; congruence. }
  assert (Hstep : Shape.pairStep (E, K) (o, r)
                  = (E ++ [(r, o)], K ∪ {[Mermaid.relKey o r]})).
  { unfold Shape.pairStep.
    rewrite !bool_decide_eq_false_2 by (apply Hout; auto). reflexivity. }
  rewrite Hstep.
  destruct (pairPass_grows after (E ++ [(r, o)], K ∪ {[Mermaid.relKey o r]})) as [more ->].
  simpl. rewrite !in_app_iff. left. right. left. reflexivity.
Qed.

End Implicit.

(** ** Column lines *)

Section ColumnLines.
Import Text.

(** The column line, part by part. *)
Lemma generateColumn_line (d : IR.SQLDialect) (c : Column.t) (t : Table.t) :
  SQL.generateColumn d c t
  = "  " +:+ SQL.quote d (Column.name c) +:+ " " +:+ SQL.getColumnType d c t
      +:+ (if negb (Column.isNullable c) && negb (Column.isPrimaryKey c)
           then " NOT NULL" else "")
      +:+ (if Column.isUnique c && negb (Column.isPrimaryKey c) then " UNIQUE" else "")
      +:+ (if SQL.has_default c then " DEFAULT " +:+ SQL.formatDefaultValue d c else "").
Proof.
  unfold SQL.generateColumn, SQL.columnParts, join.
  destruct (negb (Column.isNullable c) && negb (Column.isPrimaryKey c)),
    (Column.isUnique c && negb (Column.isPrimaryKey c)), (SQL.has_default c);
    simpl String.concat; rewrite ?append_assoc, ?append_nil_r; reflexivity.
Qed.



(** The statement of a table is a piece of what [generateTable] returns,
    and that is a piece of the output. *)
Lemma table_statement_within (d : IR.SQLDialect) (t : Table.t) :
  Shape.within
    ("CREATE TABLE " +:+ SQL.tableName d t +:+ " (" +:+ nl +:+
     join ("," +:+ nl) (SQL.columnDefs d t) +:+ nl +:+
     ")" +:+ SQL.engineSuffix d +:+ ";")
    (SQL.generateTable d t).
Proof.
  unfold SQL.generateTable, SQL.tableLines.
  rewrite (List.app_assoc [SQL.createTableLine d t]),
    (List.app_assoc _ [_] (SQL.commentStatements d t)).
  eapply within_trans; [|apply within_join_run; discriminate].
  unfold SQL.createTableLine, join. simpl String.concat.
  rewrite !append_assoc. apply within_refl.
Qed.


Lemma table_within (now : string) (s : Schema.t) (t : Table.t) :
  In t (Schema.tables s) ->
  Shape.within (SQL.generateTable (Schema.dialect s) t) (SQL.compile now s).
Proof.
  intros Ht. eapply within_trans; [|apply tables_section_within].
  unfold SQL.generateTables. apply within_app_r, within_app_r.
  apply within_join, (in_map (SQL.generateTable (Schema.dialect s)) _ t Ht).
Qed.

Lemma column_line_within (now : string) (s : Schema.t) (t : Table.t) (c : Column.t) :
  In t (Schema.tables s) -> In c (Table.columns t) ->
  Shape.within (SQL.generateColumn (Schema.dialect s) c t) (SQL.compile now s).
Proof.
  intros Ht Hc. eapply within_trans; [|apply (table_within now s t Ht)].
  eapply within_trans; [|apply table_statement_within].
  do 4 apply within_app_r. apply within_app_l, within_join.
  unfold SQL.columnDefs. apply in_app_iff. left.
  apply (in_map (fun col => SQL.generateColumn (Schema.dialect s) col t) _ c Hc).
Qed.

End ColumnLines.

(** ** Tables of the store *)

Section StoreFacts.

(** With distinct ids, a table is known by its id. *)
Lemma unique_by_id (ts : list Table.t) (a b : Table.t) :
  NoDup (map Table.id ts) -> In a ts -> In b ts -> Table.id a = Table.id b -> a = b.
Proof.
  induction ts as [|t ts IH]; [contradiction|].
  intros Hnd Ha Hb Hid. apply NoDup_cons in Hnd as [Hnotin Hnd].
  assert (Hmem : forall x, In x ts -> Table.id x ∈ map Table.id ts).
  { intros x Hx. apply list_elem_of_In, in_map, Hx. }
  destruct Ha as [<-|Ha], Hb as [<-|Hb].
  - reflexivity.
  - exfalso. apply Hnotin. rewrite Hid. apply Hmem, Hb.
  - exfalso. apply Hnotin. rewrite <- Hid. apply Hmem, Ha.
  - apply IH; assumption.
Qed.

End StoreFacts.

(** ** Claims *)

Section Claims.
Import Text.

(** C1. The SQL compiler is a function of the schema and of the one clock
    reading made by the header: two compilations of the same schema give
    the same text up to the [-- Generated:] line, which carries the
    reading and nothing else; with equal readings the texts are equal. *)
Theorem sql_compile_deterministic (s : Schema.t) (now1 now2 : string) :
  single_line now1 = true ->
  single_line now2 = true ->
  exists pre post : string,
    SQL.compile now1 s = pre +:+ nl +:+ "-- Generated: " +:+ now1 +:+ nl +:+ post
    /\ SQL.compile now2 s = pre +:+ nl +:+ "-- Generated: " +:+ now2 +:+ nl +:+ post
    /\ lines (SQL.compile now1 s) = lines pre ++ ("-- Generated: " +:+ now1) :: lines post
    /\ lines (SQL.compile now2 s) = lines pre ++ ("-- Generated: " +:+ now2) :: lines post
    /\ (now1 = now2 -> SQL.compile now1 s = SQL.compile now2 s).
Proof.
  intros H1 H2. destruct (compile_header s) as [rest Hrest].
  set (dn := if SQL.is_postgresql (Schema.dialect s) then "PostgreSQL" else "MySQL").
  set (pre := SQL.rule +:+ nl +:+ "-- Database Schema: " +:+ Schema.name s +:+ nl
                +:+ "-- Dialect: " +:+ dn).
  set (post := ("-- Description: "
                  +:+ or_else (Schema.description s) "Auto-generated schema" +:+ nl
                  +:+ SQL.rule) +:+ rest).
  exists pre, post.
  assert (Hshape : forall now,
    SQL.compile now s = pre +:+ nl +:+ ("-- Generated: " +:+ now) +:+ nl +:+ post).
  { intros now. rewrite Hrest. unfold SQL.generateHeader, pre, post. fold dn.
    rewrite !append_assoc. reflexivity. }
  assert (Hlines : forall now, single_line now = true ->
    lines (SQL.compile now s) = lines pre ++ ("-- Generated: " +:+ now) :: lines post).
  { intros now Hnow. rewrite Hshape.
    rewrite (lines_app_nl pre), (lines_app_nl ("-- Generated: " +:+ now) post).
    rewrite (lines_single ("-- Generated: " +:+ now)); [reflexivity|].
    rewrite single_line_app, Hnow. reflexivity. }
  split; [rewrite Hshape, !append_assoc; reflexivity|].
  split; [rewrite Hshape, !append_assoc; reflexivity|].
  split; [exact (Hlines now1 H1)|].
  split; [exact (Hlines now2 H2)|].
  intros ->. reflexivity.
Qed.

Lemma sql_compile_deterministic_witness :
  exists pre post : string,
    SQL.compile "2026-01-01T10:00:00.000Z" (Samples.blog IR.mysql)
    = pre +:+ nl +:+ "-- Generated: " +:+ "2026-01-01T10:00:00.000Z" +:+ nl +:+ post
    /\ SQL.compile "2026-01-01T10:00:00.250Z" (Samples.blog IR.mysql)
       = pre +:+ nl +:+ "-- Generated: " +:+ "2026-01-01T10:00:00.250Z" +:+ nl +:+ post
    /\ lines (SQL.compile "2026-01-01T10:00:00.000Z" (Samples.blog IR.mysql))
       = lines pre ++ ("-- Generated: " +:+ "2026-01-01T10:00:00.000Z") :: lines post
    /\ lines (SQL.compile "2026-01-01T10:00:00.250Z" (Samples.blog IR.mysql))
       = lines pre ++ ("-- Generated: " +:+ "2026-01-01T10:00:00.250Z") :: lines post
    /\ ("2026-01-01T10:00:00.000Z" = "2026-01-01T10:00:00.250Z" ->
        SQL.compile "2026-01-01T10:00:00.000Z" (Samples.blog IR.mysql)
        = SQL.compile "2026-01-01T10:00:00.250Z" (Samples.blog IR.mysql)).
Proof.
  apply (sql_compile_deterministic (Samples.blog IR.mysql)
           "2026-01-01T10:00:00.000Z" "2026-01-01T10:00:00.250Z"); reflexivity.
Defined.

(** C2 (counterexample).  Two tables and one many-to-many relationship give
    three [CREATE TABLE] statements: the junction table adds its own. *)
Lemma junction_table_adds_create_table :
  length (Schema.tables (Samples.campus IR.mysql)) = 2
  /\ occurrences "CREATE TABLE"
       (SQL.compile "2026-01-01T10:00:00.000Z" (Samples.campus IR.mysql)) = 3
  /\ List.filter Shape.is_create_table
       (lines (SQL.compile "2026-01-01T10:00:00.000Z" (Samples.campus IR.mysql)))
     = ["CREATE TABLE `users` ("; "CREATE TABLE `courses` ("; "CREATE TABLE `users_courses` ("].
Proof. repeat split; vm_compute; reflexivity. Qed.

(** C2 (amended).  When the texts of the schema hold no line feed, the
    lines of the compiled SQL that open a [CREATE TABLE] statement are, in
    this order: one per table of [S.tables] in the order of [S.tables], then
    one per many-to-many relationship with a junction descriptor, then
    whatever such lines the stored-procedure section carries.  This holds
    for both dialects. *)
Theorem create_table_statements (now : string) (s : Schema.t) :
  single_line now = true ->
  Shape.schema_single_line s = true ->
  List.filter Shape.is_create_table (lines (SQL.compile now s))
  = map (SQL.createTableLine (Schema.dialect s)) (Schema.tables s)
    ++ map (SQL.junctionCreateLine (Schema.dialect s)) (Shape.junctionTables s)
    ++ Shape.marked Shape.is_create_table (SQL.generateStoredProcedures s).
Proof.
  intros Hnow Hs.
  rewrite compile_lines, List.filter_app.
  rewrite (marked_frontLines _ (or_introl eq_refl) now s Hnow Hs).
  rewrite (marked_backLines _ (or_introl eq_refl) s Hs).
  rewrite (create_lines_kept (SQL.createTableLine (Schema.dialect s))),
    (create_lines_kept (SQL.junctionCreateLine (Schema.dialect s))),
    (lines_dropped _ (SQL.alterTableLine (Schema.dialect s)));
    [reflexivity|reflexivity|intros jt; apply starts_with_app|intros t; apply starts_with_app].
Qed.

Lemma create_table_statements_witness :
  List.filter Shape.is_create_table
    (lines (SQL.compile "2026-01-01T10:00:00.000Z" (Samples.campus IR.postgresql)))
  = map (SQL.createTableLine IR.postgresql) [Samples.users; Samples.courses]
    ++ map (SQL.junctionCreateLine IR.postgresql)
           [Junction.mk "users_courses" "users_id" "courses_id"]
    ++ [].
Proof.
  apply (create_table_statements "2026-01-01T10:00:00.000Z" (Samples.campus IR.postgresql));
    reflexivity.
Defined.





(** C5 (counterexample).  A column whose default is [null] gets no
    [DEFAULT] clause at all: [generateColumn] skips the clause for [null]
    as it does for a missing default. *)
Lemma null_default_prints_no_clause :
  Column.defaultValue Samples.note_column = Some IR.DNull
  /\ SQL.generateColumn IR.mysql Samples.note_column Samples.users = "  `note` TEXT"
  /\ includes "DEFAULT NULL"
       (SQL.generateColumn IR.mysql Samples.note_column Samples.users) = false.
Proof. repeat split; reflexivity. Qed.

(** C5 (amended).  The line of every column is in the output, and its
    last part is the [DEFAULT] clause, printed only for a default that is
    present and not [null].  A boolean prints as [TRUE]/[FALSE] for
    PostgreSQL and [1]/[0] for MySQL, a number as [toString()] gives it (a
    safe integer in decimal), a string whose upper-cased text holds
    [CURRENT_TIMESTAMP], [NOW()] or [UUID] as it is, and every other string
    between single quotes with each single quote doubled.
    [formatDefaultValue] itself maps [null] to [NULL]. *)
Theorem default_value_formatting (now : string) (s : Schema.t) (t : Table.t)
    (c : Column.t) :
  In t (Schema.tables s) ->
  In c (Table.columns t) ->
  let d := Schema.dialect s in
  let line := SQL.generateColumn d c t in
  let stem :=
    "  " +:+ SQL.quote d (Column.name c) +:+ " " +:+ SQL.getColumnType d c t
      +:+ (if negb (Column.isNullable c) && negb (Column.isPrimaryKey c)
           then " NOT NULL" else "")
      +:+ (if Column.isUnique c && negb (Column.isPrimaryKey c) then " UNIQUE" else "") in
  Shape.within line (SQL.compile now s)
  /\ match Column.defaultValue c with
     | None => line = stem
     | Some IR.DNull => line = stem /\ SQL.formatDefaultValue d c = "NULL"
     | Some (IR.DBool b) =>
         line = stem +:+ " DEFAULT " +:+ match d with
                                         | IR.postgresql => if b then "TRUE" else "FALSE"
                                         | IR.mysql => if b then "1" else "0"
                                         end
     | Some (IR.DNum (Number.int z _)) => line = stem +:+ " DEFAULT " +:+ number_toString z
     | Some (IR.DNum (Number.other text _)) => line = stem +:+ " DEFAULT " +:+ text
     | Some (IR.DStr v) =>
         (Shape.sql_function_marker v -> line = stem +:+ " DEFAULT " +:+ v)
         /\ (~ Shape.sql_function_marker v ->
             line = stem +:+ " DEFAULT '" +:+ replace_char "'" "''" v +:+ "'")
     end.
Proof.
  intros Ht Hc d line stem. split; [apply column_line_within; assumption|].
  unfold line. rewrite generateColumn_line. fold stem.
  assert (Hstem : forall x y, "  " +:+ SQL.quote d (Column.name c) +:+ " "
                    +:+ SQL.getColumnType d c t +:+ x +:+ y +:+ ""
                  = ("  " +:+ SQL.quote d (Column.name c) +:+ " "
                    +:+ SQL.getColumnType d c t +:+ x +:+ y)).
  { intros x y. rewrite !append_nil_r. reflexivity. }
  assert (Hclause : forall x y z, "  " +:+ SQL.quote d (Column.name c) +:+ " "
                    +:+ SQL.getColumnType d c t +:+ x +:+ y +:+ z
                  = ("  " +:+ SQL.quote d (Column.name c) +:+ " "
                    +:+ SQL.getColumnType d c t +:+ x +:+ y) +:+ z).
  { intros x y z. rewrite !append_assoc. reflexivity. }
  unfold SQL.has_default, SQL.formatDefaultValue, stem.
  destruct (Column.defaultValue c) as [[|b|[z Hz|text Htext]|v]|].
  - split; [apply Hstem|reflexivity].
  - rewrite Hclause. f_equal.
    unfold d. destruct (Schema.dialect s), b; reflexivity.
  - apply Hclause.
  - apply Hclause.
  - assert (Hdec : SQL.is_sql_function v = true <-> Shape.sql_function_marker v).
    { unfold SQL.is_sql_function, Shape.sql_function_marker.
      rewrite !orb_true_iff, !includes_units_within. tauto. }
    split; intros Hm.
    + apply Hdec in Hm. rewrite Hm. apply Hclause.
    + destruct (SQL.is_sql_function v) eqn:E.
      * exfalso. apply Hm, Hdec. reflexivity.
      * rewrite Hclause. reflexivity.
  - apply Hstem.
Qed.

Lemma default_value_formatting_witness :
  SQL.generateColumn IR.mysql Samples.surname_column Cases.accounts
  = "  `surname` VARCHAR(40) NOT NULL DEFAULT 'O''Brien'"
  /\ SQL.generateColumn IR.mysql Cases.active_column Cases.accounts
     = "  `active` TINYINT(1) NOT NULL DEFAULT 1"
  /\ SQL.generateColumn IR.postgresql Cases.active_column Cases.accounts
     = "  " +:+ SQL.quote IR.postgresql "active" +:+ " BOOLEAN NOT NULL DEFAULT TRUE"
  /\ SQL.generateColumn IR.mysql Cases.quota_column Cases.accounts
     = "  `quota` INT NOT NULL DEFAULT 42"
  /\ SQL.generateColumn IR.mysql Cases.ratio_column Cases.accounts
     = "  `ratio` FLOAT NOT NULL DEFAULT 0.5"
  /\ SQL.generateColumn IR.mysql Cases.joined_column Cases.accounts
     = "  `joined` TIMESTAMP NOT NULL DEFAULT now()"
  /\ Shape.within (SQL.generateColumn IR.mysql Cases.joined_column Cases.accounts)
       (SQL.compile "2026-01-01T10:00:00.000Z" (Cases.registry IR.mysql)).
Proof.
  assert (Hacc : forall d, In Cases.accounts (Schema.tables (Cases.registry d))).
  { intros d. left. reflexivity. }
  split; [|split; [|split; [|split; [|split; [|split]]]]].
  - apply (default_value_formatting "2026-01-01T10:00:00.000Z" (Cases.registry IR.mysql)
             Cases.accounts Samples.surname_column (Hacc _)).
    + right. left. reflexivity.
    + intros [H|[H|H]]; apply includes_units_within in H; discriminate H.
  - apply (default_value_formatting "2026-01-01T10:00:00.000Z" (Cases.registry IR.mysql)
             Cases.accounts Cases.active_column (Hacc _)).
    do 2 right. left. reflexivity.
  - apply (default_value_formatting "2026-01-01T10:00:00.000Z" (Cases.registry IR.postgresql)
             Cases.accounts Cases.active_column (Hacc _)).
    do 2 right. left. reflexivity.
  - apply (default_value_formatting "2026-01-01T10:00:00.000Z" (Cases.registry IR.mysql)
             Cases.accounts Cases.quota_column (Hacc _)).
    do 3 right. left. reflexivity.
  - apply (default_value_formatting "2026-01-01T10:00:00.000Z" (Cases.registry IR.mysql)
             Cases.accounts Cases.ratio_column (Hacc _)).
    do 4 right. left. reflexivity.
  - apply (default_value_formatting "2026-01-01T10:00:00.000Z" (Cases.registry IR.mysql)
             Cases.accounts Cases.joined_column (Hacc _)).
    + do 5 right. left. reflexivity.
    + right. left. apply includes_units_within. reflexivity.
  - apply (default_value_formatting "2026-01-01T10:00:00.000Z" (Cases.registry IR.mysql)
             Cases.accounts Cases.joined_column (Hacc _)).
    do 5 right. left. reflexivity.
Defined.

(** C6 (counterexample).  With a foreign key and a many-to-many
    relationship the [ALTER TABLE] of the foreign key stands at line 19 and
    the [CREATE TABLE] of the junction table at line 27, after it. *)
Lemma junction_table_follows_foreign_key :
  lines (SQL.compile "2026-01-01T10:00:00.000Z" (Samples.academy IR.mysql)) !! 19
  = Some "ALTER TABLE `courses`"
  /\ lines (SQL.compile "2026-01-01T10:00:00.000Z" (Samples.academy IR.mysql)) !! 27
     = Some "CREATE TABLE `users_courses` (".
Proof. split; vm_compute; reflexivity. Qed.

(** C6 (amended).  When the texts of the schema hold no line feed, the
    output is four runs of lines, in this order.  The first holds the
    [CREATE TABLE] line of every table of [S.tables] and no [ALTER TABLE]
    line; the second holds the [ALTER TABLE] line of every declared foreign
    key and no [CREATE TABLE] line; the third holds the [CREATE TABLE]
    lines of the junction tables and no [ALTER TABLE] line; the fourth is
    the section of the stored procedures.  So every table of [S.tables] is
    created before any foreign-key constraint is added, and every junction
    table after all of them. *)
Theorem tables_precede_foreign_keys (now : string) (s : Schema.t) :
  single_line now = true ->
  Shape.schema_single_line s = true ->
  exists front constraints junctions procedures : list string,
    lines (SQL.compile now s) = front ++ constraints ++ junctions ++ procedures
    /\ List.filter Shape.is_create_table front
       = map (SQL.createTableLine (Schema.dialect s)) (Schema.tables s)
    /\ List.filter Shape.is_alter_table front = []
    /\ List.filter Shape.is_alter_table constraints
       = map (SQL.alterTableLine (Schema.dialect s)) (Shape.foreignKeyOwners s)
    /\ List.filter Shape.is_create_table constraints = []
    /\ List.filter Shape.is_create_table junctions
       = map (SQL.junctionCreateLine (Schema.dialect s)) (Shape.junctionTables s)
    /\ List.filter Shape.is_alter_table junctions = []
    /\ procedures
       = match Schema.storedProcedures s with
         | [] => []
         | _ => "" :: lines (SQL.generateStoredProcedures s)
         end.
Proof.
  intros Hnow Hs.
  pose proof (schema_tables_single s Hs) as Ht.
  pose proof (schema_relationships_single s Hs) as Hr.
  exists (Shape.frontLines now s),
    (Shape.after_blank (SQL.nonblank (SQL.push_if (SQL.generateForeignKeys s)))),
    (Shape.after_blank (SQL.nonblank (SQL.push_if (SQL.generateJunctionTables s)))),
    (Shape.after_blank (SQL.nonblank (SQL.push_if (SQL.generateStoredProcedures s)))).
  assert (Hfk : SQL.generateForeignKeys s = ""
                \/ exists r, SQL.generateForeignKeys s = String "-" r).
  { unfold SQL.generateForeignKeys.
    destruct (SQL.foreignKeyStatements s); [left|right; eexists]; reflexivity. }
  assert (Hjn : SQL.generateJunctionTables s = ""
                \/ exists r, SQL.generateJunctionTables s = String "-" r).
  { unfold SQL.generateJunctionTables.
    destruct (SQL.junctionStatements s); [left|right; eexists]; reflexivity. }
  split.
  { rewrite compile_lines. f_equal. unfold Shape.backLines, Shape.backSections,
      SQL.trailingSections.
    rewrite !nonblank_app, !after_blank_app. reflexivity. }
  rewrite (marked_frontLines _ (or_introl eq_refl) now s Hnow Hs).
  rewrite (marked_frontLines _ (or_intror eq_refl) now s Hnow Hs).
  rewrite !(marked_group _ (or_introl eq_refl) _ Hfk), !(marked_group _ (or_intror eq_refl) _ Hfk).
  rewrite !(marked_group _ (or_introl eq_refl) _ Hjn), !(marked_group _ (or_intror eq_refl) _ Hjn).
  rewrite (marked_generateForeignKeys _ (or_introl eq_refl) s Ht).
  rewrite (marked_generateForeignKeys _ (or_intror eq_refl) s Ht).
  rewrite (marked_generateJunctionTables _ (or_introl eq_refl) s Hr).
  rewrite (marked_generateJunctionTables _ (or_intror eq_refl) s Hr).
  rewrite (create_lines_kept (SQL.createTableLine (Schema.dialect s))),
    (create_lines_kept (SQL.junctionCreateLine (Schema.dialect s))),
    (alter_lines_kept (SQL.alterTableLine (Schema.dialect s))),
    (lines_dropped Shape.is_create_table (SQL.alterTableLine (Schema.dialect s))),
    (lines_dropped Shape.is_alter_table (SQL.createTableLine (Schema.dialect s))),
    (lines_dropped Shape.is_alter_table (SQL.junctionCreateLine (Schema.dialect s)));
    try reflexivity; try (intros x; apply starts_with_app).
  repeat (split; [reflexivity|]).
  rewrite nonblank_push_if
    by (unfold SQL.generateStoredProcedures;
        destruct (Schema.storedProcedures s); [left|right; eexists]; reflexivity).
  unfold SQL.generateStoredProcedures.
  destruct (Schema.storedProcedures s); reflexivity.
Qed.

Lemma tables_precede_foreign_keys_witness :
  exists front constraints junctions procedures : list string,
    lines (SQL.compile "2026-01-01T10:00:00.000Z" (Samples.academy IR.mysql))
    = front ++ constraints ++ junctions ++ procedures
    /\ List.filter Shape.is_create_table front
       = map (SQL.createTableLine IR.mysql) [Samples.users; Samples.taught_courses]
    /\ List.filter Shape.is_alter_table front = []
    /\ List.filter Shape.is_alter_table constraints
       = map (SQL.alterTableLine IR.mysql) [Samples.taught_courses]
    /\ List.filter Shape.is_create_table constraints = []
    /\ List.filter Shape.is_create_table junctions
       = map (SQL.junctionCreateLine IR.mysql)
             [Junction.mk "users_courses" "users_id" "courses_id"]
    /\ List.filter Shape.is_alter_table junctions = []
    /\ procedures = [].
Proof.
  apply (tables_precede_foreign_keys "2026-01-01T10:00:00.000Z" (Samples.academy IR.mysql));
    reflexivity.
Defined.

(** C7 (counterexample).  Two tables that reference each other, without
    explicit relationships: the pass emits the line of the first foreign
    key only, so the foreign key of [departments] to [employees] gets no
    line from [employees] to [departments] labelled [has_departments]. *)
Lemma mutual_foreign_keys_share_one_line :
  In ("departments", "employees") (Shape.fkPairs Samples.staff)
  /\ Schema.relationships Samples.staff = []
  /\ Mermaid.generateImplicitRelationships Samples.staff
     = [Mermaid.implicitLine "departments" "employees"]
  /\ includes (Mermaid.implicitLine "employees" "departments")
       (Mermaid.compile Samples.staff) = false.
Proof. split; [right; left; reflexivity|]. repeat split; vm_compute; reflexivity. Qed.

(** C7 (amended).  When no table name holds a hyphen, the lines the diagram
    pass synthesizes are made from a list of pairs (referenced table, owning
    table), each printed as a one-to-many line from the referenced to the
    owning table labelled [has_<owning table>] and present in the diagram.
    Every such pair comes from a foreign key whose two tables no explicit
    relationship joins and which is the first, in the order of the tables
    and of their foreign keys, to join these two tables.  Conversely the
    first foreign key to join two tables that no explicit relationship
    joins gets its line, in its own direction; every later foreign key on
    the same two tables shares it, in whichever direction it runs; and no
    two lines join the same two tables. *)
Theorem implicit_relationship_lines (s : Schema.t) :
  Shape.hyphen_free_names s = true ->
  exists emitted : list (string * string),
    Mermaid.generateImplicitRelationships s = map Shape.pairLine emitted
    /\ (forall referenced owner,
          In (referenced, owner) emitted ->
          Shape.within
            ("    " +:+ Mermaid.sanitizeName referenced +:+ " ||--o{ "
               +:+ Mermaid.sanitizeName owner +:+ " : " +:+ SQL.dquote
               +:+ "has_" +:+ owner +:+ SQL.dquote)
            (Mermaid.compile s))
    /\ (forall referenced owner,
          In (referenced, owner) emitted ->
          ~ Shape.covered s owner referenced
          /\ exists before after,
               Shape.fkPairs s = before ++ (owner, referenced) :: after
               /\ forall p, In p before -> ~ Shape.same_pair p (owner, referenced))
    /\ (forall before owner referenced after,
          Shape.fkPairs s = before ++ (owner, referenced) :: after ->
          ~ Shape.covered s owner referenced ->
          (forall p, In p before -> ~ Shape.same_pair p (owner, referenced)) ->
          In (referenced, owner) emitted)
    /\ (forall owner referenced,
          In (owner, referenced) (Shape.fkPairs s) ->
          ~ Shape.covered s owner referenced ->
          In (referenced, owner) emitted \/ In (owner, referenced) emitted)
    /\ (forall i j p q,
          emitted !! i = Some p -> emitted !! j = Some q -> Shape.same_pair p q -> i = j).
Proof.
  intros Hnames.
  pose proof (pass_invariant_fold (Mermaid.explicitKeys s) (Shape.fkPairs s)) as Hinv.
  pose proof (emitted_from_first (Mermaid.explicitKeys s) (Shape.fkPairs s)) as Hfrom.
  pose proof (first_is_emitted (Mermaid.explicitKeys s)) as Hfirst.
  fold (Shape.pairPass s) in Hinv, Hfrom.
  assert (Hpass : forall before o r after,
            Shape.fkPairs s = before ++ (o, r) :: after ->
            fold_left Shape.pairStep (before ++ (o, r) :: after) ([], Mermaid.explicitKeys s)
            = Shape.pairPass s).
  { intros before o r after Heq. unfold Shape.pairPass. rewrite Heq. reflexivity. }
  destruct (Shape.pairPass s) as [E K] eqn:Hpair.
  destruct Hinv as [Hkeys Hsrc Hseen Honce]. simpl in *.
  assert (Hlines : Mermaid.generateImplicitRelationships s = map Shape.pairLine E).
  { rewrite implicit_lines, Hpair. reflexivity. }
  assert (Hrels : forall r, In r (Schema.relationships s) ->
                    Shape.hyphen_free (Relationship.sourceTable r) = true).
  { intros r Hr. apply andb_prop in Hnames as [_ H].
    pose proof (proj1 (forallb_forall _ _) H r Hr) as Hr'. simpl in Hr'.
    apply andb_prop in Hr' as [Hr' _]. exact Hr'. }
  assert (Hpairs : forall o r, In (o, r) (Shape.fkPairs s) ->
                     Shape.hyphen_free o = true /\ Shape.hyphen_free r = true).
  { intros o r Hin. apply andb_prop in Hnames as [H _].
    unfold Shape.fkPairs in Hin. apply in_flat_map in Hin as (t & Ht & Hin).
    apply in_map_iff in Hin as (fk & Heq & Hfk). injection Heq as <- <-.
    pose proof (proj1 (forallb_forall _ _) H t Ht) as Ht'. simpl in Ht'.
    apply andb_prop in Ht' as [Hname Hfks]. split; [exact Hname|].
    exact (proj1 (forallb_forall _ _) Hfks fk Hfk). }
  assert (Hexplicit : forall a b, Shape.hyphen_free a = true ->
            Mermaid.relKey a b ∈ Mermaid.explicitKeys s ->
            exists rel, In rel (Schema.relationships s)
              /\ Relationship.sourceTable rel = a /\ Relationship.targetTable rel = b).
  { intros a b Ha (rel & Hrel & Heq)%explicitKeys_spec. exists rel.
    destruct (relKey_inj _ _ _ _ Ha (Hrels rel Hrel) Heq) as [-> ->]. auto. }
  exists E. split; [exact Hlines|]. split; [|split; [|split; [|split]]].
  - intros r o Hin. unfold Mermaid.compile. apply within_join.
    rewrite !in_app_iff. do 3 right. rewrite Hlines.
    apply (in_map Shape.pairLine E (r, o) Hin).
  - intros r o Hin. destruct (Hsrc r o Hin) as (Hps & Hk1 & Hk2). split.
    + intros (rel & Hrel & [[<- <-]|[<- <-]]); [apply Hk1|apply Hk2];
        apply explicitKeys_spec; exists rel; auto.
    + apply Hfrom, Hin.
  - intros before o r after Heq Hcov Hbefore.
    assert (Hin : In (o, r) (Shape.fkPairs s)).
    { rewrite Heq. apply in_app_iff. right. left. reflexivity. }
    destruct (Hpairs o r Hin) as [Ho Hr].
    pose proof (Hpass before o r after Heq) as Hrun.
    change E with (fst (E, K)). rewrite <- Hrun. apply Hfirst.
    + intros a b Hab. apply Hpairs. rewrite Heq.
      apply in_app_iff in Hab as [Hab|[Hab|[]]]; apply in_app_iff; [left; exact Hab|].
      right. left. exact Hab.
    + intros Hk. destruct (Hexplicit o r Ho Hk) as (rel & Hrel & H1 & H2).
      apply Hcov. exists rel. auto.
    + intros Hk. destruct (Hexplicit r o Hr Hk) as (rel & Hrel & H1 & H2).
      apply Hcov. exists rel. auto.
    + exact Hbefore.
  - intros o r Hin Hcov.
    destruct (Hpairs o r Hin) as [Ho Hr].
    assert (Hcase : forall a b, Shape.hyphen_free a = true ->
              Mermaid.relKey a b ∈ K ->
              (exists rel, In rel (Schema.relationships s)
                 /\ Relationship.sourceTable rel = a /\ Relationship.targetTable rel = b)
              \/ In (b, a) E).
    { intros a b Ha [H|(r' & o' & HE & Heq)]%Hkeys.
      - left. apply Hexplicit; assumption.
      - right. destruct (Hsrc r' o' HE) as (Hps & _).
        destruct (Hpairs o' r' Hps) as [Ho' _].
        destruct (relKey_inj _ _ _ _ Ha Ho' Heq) as [-> ->]. exact HE. }
    destruct (Hseen o r Hin) as [H|H].
    + destruct (Hcase o r Ho H) as [(rel & Hrel & H1 & H2)|HE]; [|left; exact HE].
      exfalso. apply Hcov. exists rel. auto.
    + destruct (Hcase r o Hr H) as [(rel & Hrel & H1 & H2)|HE]; [|right; exact HE].
      exfalso. apply Hcov. exists rel. auto.
  - intros i j [r o] [r' o'] Hi Hj Hsame.
    destruct (Nat.lt_trichotomy i j) as [Hlt|[Heq|Hgt]]; [|exact Heq|]; exfalso.
    + destruct (Honce i j r o r' o' Hlt Hi Hj) as [H1 H2].
      destruct Hsame as [Heq|Heq]; simpl in Heq; injection Heq as -> ->;
        [apply H1|apply H2]; reflexivity.
    + destruct (Honce j i r' o' r o Hgt Hj Hi) as [H1 H2].
      destruct Hsame as [Heq|Heq]; simpl in Heq; injection Heq as -> ->;
        [apply H1|apply H2]; reflexivity.
Qed.

Lemma implicit_relationship_lines_witness :
  exists emitted : list (string * string),
    Mermaid.generateImplicitRelationships Samples.staff = map Shape.pairLine emitted
    /\ In ("departments", "employees") emitted
    /\ (forall i j p q,
          emitted !! i = Some p -> emitted !! j = Some q -> Shape.same_pair p q -> i = j).
Proof.
  destruct (implicit_relationship_lines Samples.staff eq_refl)
    as (emitted & Hlines & _ & _ & Hfirst & _ & Honce).
  exists emitted. split; [exact Hlines|]. split; [|exact Honce].
  apply (Hfirst [] "employees" "departments" [("departments", "employees")]).
  - reflexivity.
  - intros (rel & [] & _).
  - intros p [].
Defined.

(** C8 (failing input).  [compile] is a total function.  On a schema
    without tables, relationships and stored procedures the output is the
    header followed by a blank line and the bare [-- Tables] heading: it is
    not the header alone. *)
Theorem compile_empty_schema (now id name description : string)
    (d : IR.SQLDialect) (createdAt updatedAt : string) :
  let s := Schema.mk id name description d [] [] [] createdAt updatedAt in
  SQL.compile now s = SQL.generateHeader now s +:+ nl +:+ nl +:+ "-- Tables" +:+ nl
  /\ SQL.compile now s <> SQL.generateHeader now s.
Proof.
  intros s.
  assert (H : SQL.compile now s
              = SQL.generateHeader now s +:+ nl +:+ nl +:+ "-- Tables" +:+ nl).
  { unfold SQL.compile. rewrite nonblank_sections. destruct d; reflexivity. }
  split; [exact H|].
  rewrite H. intros Heq. apply append_eq_self in Heq. discriminate.
Qed.

(** C9 (counterexample).  [updateRelationship] merges whatever fields it
    is given: setting the cardinality of a one-to-many relationship to
    many-to-many leaves it without a junction descriptor. *)
Lemma updateRelationship_breaks_junction_invariant :
  Forall Shape.junction_invariant (Schema.relationships Samples.school)
  /\ exists s' r,
       Store.schema
         (Store.updateRelationship "2026-01-01T09:30:00.000Z" "2026-01-01T09:30:00.001Z"
            "r2" Samples.to_many_to_many Samples.loaded) = Some s'
       /\ In r (Schema.relationships s')
       /\ Relationship.cardinality r = IR.many_to_many
       /\ Relationship.junctionTable r = None
       /\ ~ Shape.junction_invariant r.
Proof.
  split.
  - repeat constructor.
    + intros [x Hx]. discriminate Hx.
    + intros H. discriminate H.
  - eexists. eexists. split; [reflexivity|]. split; [left; reflexivity|].
    split; [reflexivity|]. split; [reflexivity|].
    intros [_ H]. destruct (H eq_refl) as [x Hx]. discriminate Hx.
Qed.

(** C9 (amended).  On a loaded schema, [changeCardinality] on an existing
    relationship sets, on every relationship with that id, the new
    cardinality together with the descriptor: for many-to-many the
    descriptor named [<sourceTable>_<targetTable>] with the columns
    [<sourcetable>_id] and [<targettable>_id] in lower case, built from the
    relationship found, and for any other cardinality none; the other
    relationships are kept.  So [changeCardinality] preserves the
    invariant, as do [deleteRelationship] and [deleteTable];
    [addRelationship] and [updateRelationship] preserve it when the
    relationship they store satisfies it. *)
Theorem junction_descriptor_invariant (stamp now : string) (st : Store.t) (s : Schema.t) :
  Store.schema st = Some s ->
  Forall Shape.junction_invariant (Schema.relationships s) ->
  (forall relationshipId cardinality rel,
     find (fun r => String.eqb (Relationship.id r) relationshipId) (Schema.relationships s)
     = Some rel ->
     let descriptor :=
       match cardinality with
       | IR.many_to_many =>
           Some (Junction.mk
                   (Relationship.sourceTable rel +:+ "_" +:+ Relationship.targetTable rel)
                   (toLowerCase (Relationship.sourceTable rel) +:+ "_id")
                   (toLowerCase (Relationship.targetTable rel) +:+ "_id"))
       | _ => None
       end in
     exists s',
       Store.schema (Store.changeCardinality stamp now relationshipId cardinality st) = Some s'
       /\ Schema.relationships s'
          = map (fun r =>
                   if String.eqb (Relationship.id r) relationshipId
                   then Store.with_cardinality cardinality descriptor r else r)
                (Schema.relationships s)
       /\ (forall r, In r (Schema.relationships s') ->
             Relationship.id r = relationshipId ->
             Relationship.cardinality r = cardinality
             /\ Relationship.junctionTable r = descriptor)
       /\ Forall Shape.junction_invariant (Schema.relationships s'))
  /\ (forall relationshipId,
        exists s',
          Store.schema (Store.deleteRelationship stamp now relationshipId st) = Some s'
          /\ Forall Shape.junction_invariant (Schema.relationships s'))
  /\ (forall tableId,
        exists s',
          Store.schema (Store.deleteTable stamp now tableId st) = Some s'
          /\ Forall Shape.junction_invariant (Schema.relationships s'))
  /\ (forall fresh relationship,
        Shape.junction_invariant relationship ->
        exists s',
          Store.schema (Store.addRelationship stamp now fresh relationship st) = Some s'
          /\ Forall Shape.junction_invariant (Schema.relationships s'))
  /\ (forall relationshipId updates,
        (forall r, In r (Schema.relationships s) ->
           Relationship.id r = relationshipId ->
           Shape.junction_invariant (RelationshipPatch.apply r updates)) ->
        exists s',
          Store.schema (Store.updateRelationship stamp now relationshipId updates st) = Some s'
          /\ Forall Shape.junction_invariant (Schema.relationships s')).
Proof.
  intros Hs Hinv.
  split; [|split; [|split; [|split]]].
  - intros relationshipId cardinality rel Hfind descriptor.
    unfold Store.changeCardinality, Store.updateAndRecompile. rewrite Hs, Hfind.
    eexists. split; [reflexivity|]. simpl Schema.relationships. fold descriptor.
    split; [reflexivity|]. split.
    + intros r [r0 [Hr Hin]]%in_map_iff Hid.
      destruct (String.eqb (Relationship.id r0) relationshipId) eqn:E.
      * subst r. auto.
      * subst r. apply String.eqb_neq in E. contradiction.
    + apply List.Forall_forall. intros r [r0 [Hr Hin]]%in_map_iff.
      destruct (String.eqb (Relationship.id r0) relationshipId).
      * subst r. unfold Shape.junction_invariant, descriptor. simpl.
        destruct cardinality; split;
          first [ discriminate
                | intros [x Hx]; discriminate Hx
                | intros _; reflexivity
                | intros _; eexists; reflexivity ].
      * subst r. apply (proj1 (List.Forall_forall _ _) Hinv r0 Hin).
  - intros relationshipId.
    unfold Store.deleteRelationship, Store.updateAndRecompile. rewrite Hs.
    eexists. split; [reflexivity|]. simpl Schema.relationships.
    apply List.Forall_forall. intros r [Hin _]%List.filter_In.
    apply (proj1 (List.Forall_forall _ _) Hinv r Hin).
  - intros tableId. unfold Store.deleteTable. rewrite Hs.
    destruct (find (fun t => String.eqb (Table.id t) tableId) (Schema.tables s)) as [table|].
    + unfold Store.updateAndRecompile. rewrite Hs.
      eexists. split; [reflexivity|]. simpl Schema.relationships.
      apply List.Forall_forall. intros r [Hin _]%List.filter_In.
      apply (proj1 (List.Forall_forall _ _) Hinv r Hin).
    + exists s. auto.
  - intros fresh relationship Hrel.
    unfold Store.addRelationship, Store.updateAndRecompile. rewrite Hs.
    eexists. split; [reflexivity|]. simpl Schema.relationships.
    apply Forall_app. split; [exact Hinv|]. constructor; [|constructor]. exact Hrel.
  - intros relationshipId updates Hup.
    unfold Store.updateRelationship, Store.updateAndRecompile. rewrite Hs.
    eexists. split; [reflexivity|]. simpl Schema.relationships.
    apply List.Forall_forall. intros r [r0 [Hr Hin]]%in_map_iff.
    destruct (String.eqb (Relationship.id r0) relationshipId) eqn:E.
    + subst r. apply String.eqb_eq in E. apply Hup; assumption.
    + subst r. apply (proj1 (List.Forall_forall _ _) Hinv r0 Hin).
Qed.

Lemma junction_descriptor_invariant_witness :
  (exists s',
     Store.schema
       (Store.changeCardinality "2026-01-01T09:30:00.000Z" "2026-01-01T09:30:00.001Z"
          "r2" IR.many_to_many Samples.loaded) = Some s'
     /\ Schema.relationships s'
        = [Store.with_cardinality IR.many_to_many
             (Some (Junction.mk "users_courses" "users_id" "courses_id")) Samples.teaches]
     /\ Forall Shape.junction_invariant (Schema.relationships s'))
  /\ (exists s',
        Store.schema
          (Store.changeCardinality "2026-01-01T09:30:00.000Z" "2026-01-01T09:30:00.001Z"
             "r4" IR.many_to_many Cases.enrolled) = Some s'
        /\ Schema.relationships s'
           = [Store.with_cardinality IR.many_to_many
                (Some (Junction.mk (String "201" "cole_Classe") (String "233" "cole_id")
                         "classe_id"))
                Cases.inscrit]).
Proof.
  assert (Hinv : forall r, Relationship.cardinality r = IR.one_to_many ->
                   Relationship.junctionTable r = None ->
                   Forall Shape.junction_invariant [r]).
  { intros r Hc Hj. repeat constructor.
    - intros [x Hx]. rewrite Hj in Hx. discriminate Hx.
    - intros H. rewrite Hc in H. discriminate H. }
  split.
  - destruct (junction_descriptor_invariant "2026-01-01T09:30:00.000Z"
                "2026-01-01T09:30:00.001Z" Samples.loaded Samples.school eq_refl
                (Hinv Samples.teaches eq_refl eq_refl))
      as [Hchange _].
    destruct (Hchange "r2" IR.many_to_many Samples.teaches eq_refl)
      as (s' & Hs' & Hrels & _ & Hall).
    exists s'. split; [exact Hs'|]. split; [exact Hrels|exact Hall].
  - destruct (junction_descriptor_invariant "2026-01-01T09:30:00.000Z"
                "2026-01-01T09:30:00.001Z" Cases.enrolled Cases.lycee eq_refl
                (Hinv Cases.inscrit eq_refl eq_refl))
      as [Hchange _].
    destruct (Hchange "r4" IR.many_to_many Cases.inscrit eq_refl)
      as (s' & Hs' & Hrels & _).
    exists s'. split; [exact Hs'|exact Hrels].
Defined.

(** C10 (counterexample).  [addTable] keeps the id it is given, so two
    tables can share one.  [deleteTable] then removes both, but only the
    relationships that name the first: the relationship to [lessons] stays
    while the table [lessons] is gone, so an endpoint that was resolvable
    no longer is, and a table other than the one found has been removed. *)
Lemma deleteTable_with_shared_id :
  exists s s',
    Store.schema Cases.twins = Some s
    /\ map Table.id (Schema.tables s) = ["t1"; "t2"; "t2"]
    /\ map Table.name (Schema.tables s) = ["users"; "courses"; "lessons"]
    /\ Shape.resolvable s
    /\ Store.schema
         (Store.deleteTable "2026-01-01T09:30:00.000Z" "2026-01-01T09:30:00.001Z" "t2"
            Cases.twins) = Some s'
    /\ map Table.name (Schema.tables s') = ["users"]
    /\ map Relationship.targetTable (Schema.relationships s') = ["lessons"]
    /\ ~ Shape.resolvable s'.
Proof.
  eexists. eexists. split; [reflexivity|]. split; [reflexivity|]. split; [reflexivity|].
  split; [|split; [reflexivity|split; [reflexivity|split; [reflexivity|]]]].
  - intros r [<-|[<-|[]]]; split.
    + exists Samples.users. split; [left; reflexivity|reflexivity].
    + exists Samples.taught_courses. split; [right; left; reflexivity|reflexivity].
    + exists Samples.users. split; [left; reflexivity|reflexivity].
    + exists (Store.table_with_id "t2" Cases.lessons).
      split; [right; right; left; reflexivity|reflexivity].
  - intros H.
    destruct (H (Store.with_id "r3" Cases.attends) (or_introl eq_refl))
      as [_ (t & [<-|[]] & Hname)].
    discriminate Hname.
Qed.

(** C10 (amended).  [deleteTable] with an id no table has, or without a
    schema, leaves the whole state as it is.  Otherwise it keeps exactly
    the tables with another id, in order, and exactly the relationships
    neither of whose endpoints is the name of the first table with that id;
    stored procedures and the other schema fields but [updatedAt] are kept,
    and both outputs are recompiled.  When ids identify tables, every table
    but the one found is kept and relationship endpoints that were
    resolvable stay so. *)
Theorem deleteTable_frame (stamp now tableId : string) (st : Store.t) :
  match Store.schema st with
  | None => Store.deleteTable stamp now tableId st = st
  | Some s =>
      match find (fun t => String.eqb (Table.id t) tableId) (Schema.tables s) with
      | None => Store.deleteTable stamp now tableId st = st
      | Some table =>
          exists s',
            Store.schema (Store.deleteTable stamp now tableId st) = Some s'
            /\ Schema.tables s'
               = List.filter (fun t => negb (String.eqb (Table.id t) tableId)) (Schema.tables s)
            /\ (forall t, In t (Schema.tables s')
                          <-> In t (Schema.tables s) /\ Table.id t <> tableId)
            /\ (forall r, In r (Schema.relationships s')
                          <-> In r (Schema.relationships s)
                              /\ Relationship.sourceTable r <> Table.name table
                              /\ Relationship.targetTable r <> Table.name table)
            /\ Schema.relationships s'
               = List.filter
                   (fun r => negb (String.eqb (Relationship.sourceTable r) (Table.name table))
                             && negb (String.eqb (Relationship.targetTable r) (Table.name table)))
                   (Schema.relationships s)
            /\ Schema.storedProcedures s' = Schema.storedProcedures s
            /\ (Schema.id s', Schema.name s', Schema.description s', Schema.dialect s',
                Schema.createdAt s')
               = (Schema.id s, Schema.name s, Schema.description s, Schema.dialect s,
                  Schema.createdAt s)
            /\ Store.compiledSQL (Store.deleteTable stamp now tableId st) = SQL.compile now s'
            /\ Store.compiledMermaid (Store.deleteTable stamp now tableId st)
               = Mermaid.compile s'
            /\ (NoDup (map Table.id (Schema.tables s)) ->
                (forall t, In t (Schema.tables s')
                           <-> In t (Schema.tables s) /\ t <> table)
                /\ (Shape.resolvable s -> Shape.resolvable s'))
      end
  end.
Proof.
  unfold Store.deleteTable.
  destruct (Store.schema st) as [s|] eqn:Hs; [|reflexivity].
  destruct (find (fun t => String.eqb (Table.id t) tableId) (Schema.tables s))
    as [table|] eqn:Hfind; [|reflexivity].
  unfold Store.updateAndRecompile. rewrite Hs.
  eexists. split; [reflexivity|]. simpl.
  assert (Htables : forall t,
    In t (List.filter (fun t => negb (String.eqb (Table.id t) tableId)) (Schema.tables s))
    <-> In t (Schema.tables s) /\ Table.id t <> tableId).
  { intros t. rewrite List.filter_In, negb_true_iff, String.eqb_neq. reflexivity. }
  assert (Hrels : forall r,
    In r (List.filter
            (fun r => negb (String.eqb (Relationship.sourceTable r) (Table.name table))
                      && negb (String.eqb (Relationship.targetTable r) (Table.name table)))
            (Schema.relationships s))
    <-> In r (Schema.relationships s)
        /\ Relationship.sourceTable r <> Table.name table
        /\ Relationship.targetTable r <> Table.name table).
  { intros r. rewrite List.filter_In, andb_true_iff, !negb_true_iff, !String.eqb_neq.
    reflexivity. }
  repeat (split; [first [reflexivity | exact Htables | exact Hrels]|]).
  intros Hnodup.
  apply find_some in Hfind as [Htable Hid]. apply String.eqb_eq in Hid.
  assert (Hother : forall t, In t (Schema.tables s) -> t <> table -> Table.id t <> tableId).
  { intros t Ht Hne Heq. apply Hne.
    apply (unique_by_id (Schema.tables s) t table Hnodup Ht Htable). congruence. }
  split.
  - intros t. rewrite Htables. split.
    + intros [Ht Hne]. split; [exact Ht|]. intros ->. contradiction.
    + intros [Ht Hne]. split; [exact Ht|]. apply Hother; assumption.
  - intros Hres r [Hr [Hsrc Htgt]]%Hrels.
    destruct (Hres r Hr) as [(t1 & Ht1 & Hn1) (t2 & Ht2 & Hn2)]. split.
    + exists t1. split; [|exact Hn1]. apply Htables. split; [exact Ht1|].
      apply Hother; [exact Ht1|]. intros ->. congruence.
    + exists t2. split; [|exact Hn2]. apply Htables. split; [exact Ht2|].
      apply Hother; [exact Ht2|]. intros ->. congruence.
Qed.

Lemma deleteTable_frame_witness :
  exists s',
    Store.schema
      (Store.deleteTable "2026-01-01T09:30:00.000Z" "2026-01-01T09:30:00.001Z" "t2"
         Samples.loaded) = Some s'
    /\ Schema.tables s' = [Samples.users]
    /\ Schema.relationships s' = []
    /\ Shape.resolvable s'.
Proof.
  pose proof (deleteTable_frame "2026-01-01T09:30:00.000Z" "2026-01-01T09:30:00.001Z" "t2"
                Samples.loaded) as H.
  simpl in H. destruct H as (s' & Hs' & Ht & _ & _ & Hr & _ & _ & _ & _ & Hres).
  exists s'. split; [exact Hs'|]. split; [exact Ht|]. split; [exact Hr|].
  apply Hres.
  - apply NoDup_cons_2; [intros [H|[]]%list_elem_of_In; discriminate H|].
    apply NoDup_cons_2; [intros []%list_elem_of_In|apply NoDup_nil_2].
  - intros r [<-|[]]. split.
    + exists Samples.users. split; [left; reflexivity|reflexivity].
    + exists Samples.taught_courses. split; [right; left; reflexivity|reflexivity].
Defined.

End Claims.

(** * Further properties of the compilers and of the store *)

(** ** The SQL compiler: further properties *)

Section SqlExtras.
Import Text.

(** X1. Every declared foreign key gives its [ALTER TABLE] statement in the
    output: constraint name, column, referenced table and column, the
    [ON DELETE] action, and the [ON UPDATE] action when there is one. *)
Theorem foreign_key_statement_emitted (now : string) (s : Schema.t) (t : Table.t)
    (fk : ForeignKey.t) :
  In t (Schema.tables s) ->
  In fk (Table.foreignKeys t) ->
  let d := Schema.dialect s in
  Shape.within
    ("ALTER TABLE " +:+ SQL.tableName d t +:+ nl +:+
     "  ADD CONSTRAINT " +:+ SQL.quote d (ForeignKey.constraintName fk) +:+ nl +:+
     "  FOREIGN KEY (" +:+ SQL.quote d (ForeignKey.columnName fk) +:+ ")" +:+ nl +:+
     "  REFERENCES " +:+ SQL.quote d (ForeignKey.referencedTable fk) +:+ " ("
       +:+ SQL.quote d (ForeignKey.referencedColumn fk) +:+ ")" +:+ nl +:+
     "  ON DELETE " +:+ IR.action_text (ForeignKey.onDelete fk)
       +:+ match ForeignKey.onUpdate fk with
           | Some a => " ON UPDATE " +:+ IR.action_text a
           | None => ""
           end
       +:+ ";")
    (SQL.compile now s).
Proof.
  intros Ht Hfk d.
  assert (Hin : In (SQL.foreignKeyStatement d t fk) (SQL.foreignKeyStatements s)).
  { unfold SQL.foreignKeyStatements. apply in_flat_map. exists t. split; [exact Ht|].
    apply in_map, Hfk. }
  eapply within_trans;
    [|apply (foreignKeys_section_within now s (not_nil_of_In _ _ Hin))].
  unfold SQL.generateForeignKeys.
  destruct (SQL.foreignKeyStatements s) as [|x xs]; [contradiction|].
  apply within_app_r, within_app_r.
  eapply within_trans; [|apply within_join, Hin].
  unfold SQL.foreignKeyStatement, SQL.alterTableLine.
  rewrite !append_assoc. apply within_refl.
Qed.

Lemma foreign_key_statement_emitted_witness :
  Shape.within
    ("ALTER TABLE `courses`" +:+ nl +:+
     "  ADD CONSTRAINT `fk_courses_teacher`" +:+ nl +:+
     "  FOREIGN KEY (`teacher_id`)" +:+ nl +:+
     "  REFERENCES `users` (`id`)" +:+ nl +:+
     "  ON DELETE CASCADE;")
    (SQL.compile "2026-01-01T10:00:00.000Z" (Samples.academy IR.mysql)).
Proof.
  apply (foreign_key_statement_emitted "2026-01-01T10:00:00.000Z"
           (Samples.academy IR.mysql) Samples.taught_courses Samples.teacher_fk).
  - right. left. reflexivity.
  - left. reflexivity.
Defined.

(** Upper-casing the name of an index method gives code units below
    U+0100, so that nothing is lost when they are read back as a text. *)
Lemma index_method_upper (ty : IR.IndexType) :
  units (of_units (toUpperCase (IR.index_type_text ty))) = toUpperCase (IR.index_type_text ty).
Proof. destruct ty; reflexivity. Qed.

(** X2. Every index gives one [CREATE INDEX] statement in the output,
    [UNIQUE] when the index is unique, over its quoted columns in order.
    The method clause [USING] is printed for PostgreSQL and a method other
    than btree only; MySQL never gets it. *)
Theorem index_statement_emitted (now : string) (s : Schema.t) (t : Table.t)
    (i : Index.t) :
  In t (Schema.tables s) ->
  In i (Table.indexes t) ->
  let d := Schema.dialect s in
  Shape.within
    ("CREATE " +:+ (if Index.isUnique i then "UNIQUE " else "") +:+ "INDEX "
       +:+ SQL.quote d (Index.name i) +:+ " ON " +:+ SQL.tableName d t
       +:+ Laws.methodClause d (Index.type i)
       +:+ " (" +:+ join ", " (map (SQL.quote d) (Index.columns i)) +:+ ");")
    (SQL.compile now s).
Proof.
  intros Ht Hi d.
  assert (Hin : In (SQL.indexStatement d t i) (SQL.indexStatements s)).
  { unfold SQL.indexStatements. apply in_flat_map. exists t. split; [exact Ht|].
    apply in_map, Hi. }
  eapply within_trans; [|apply (indexes_section_within now s (not_nil_of_In _ _ Hin))].
  unfold SQL.generateIndexes.
  destruct (SQL.indexStatements s) as [|x xs]; [contradiction|].
  apply within_app_r, within_app_r.
  eapply within_trans; [|apply within_join, Hin].
  unfold SQL.indexStatement.
  replace (match Index.type i with
           | Some ty =>
               if SQL.is_postgresql d && negb (String.eqb (IR.index_type_text ty) "btree")
               then " USING " +:+ of_units (toUpperCase (IR.index_type_text ty))
               else ""
           | None => ""
           end) with (Laws.methodClause d (Index.type i))
    by (destruct d, (Index.type i) as [[]|]; reflexivity).
  apply within_refl.
Qed.

Lemma index_statement_emitted_witness :
  Shape.within "CREATE UNIQUE INDEX `idx_users_mail` ON `auth`.`users` (`mail`);"
    (SQL.compile "2026-01-01T10:00:00.000Z" (Cases.directory IR.mysql)).
Proof.
  apply (index_statement_emitted "2026-01-01T10:00:00.000Z" (Cases.directory IR.mysql)
           Cases.members Cases.mail_index).
  - left. reflexivity.
  - left. reflexivity.
Defined.

(** X3. For PostgreSQL an enum column with at least one value gives a
    [CREATE TYPE <table>_<column>_enum AS ENUM (...)] statement listing the
    values between single quotes, and the column is typed by that name. *)
Theorem enum_type_emitted (now : string) (s : Schema.t) (t : Table.t) (c : Column.t)
    (v : string) (vs : list string) :
  Schema.dialect s = IR.postgresql ->
  In t (Schema.tables s) ->
  In c (Table.columns t) ->
  Column.type c = IR.enum ->
  Column.enumValues c = Some (v :: vs) ->
  Shape.within
    ("CREATE TYPE " +:+ Table.name t +:+ "_" +:+ Column.name c +:+ "_enum AS ENUM ("
       +:+ join ", " (map (fun x => "'" +:+ x +:+ "'") (v :: vs)) +:+ ");")
    (SQL.compile now s)
  /\ SQL.getColumnType IR.postgresql c t
     = Table.name t +:+ "_" +:+ Column.name c +:+ "_enum".
Proof.
  intros Hd Ht Hc Hty Hvs. split.
  - assert (Hin : In ("CREATE TYPE " +:+ SQL.enumTypeName t c +:+ " AS ENUM ("
                        +:+ SQL.enumLiterals (v :: vs) +:+ ");") (SQL.enumStatements s)).
    { unfold SQL.enumStatements. apply in_flat_map. exists t. split; [exact Ht|].
      apply in_flat_map. exists c. split; [exact Hc|]. rewrite Hty, Hvs. left. reflexivity. }
    eapply within_trans;
      [|apply (enum_section_within now s Hd (not_nil_of_In _ _ Hin))].
    unfold SQL.generateEnumTypes.
    destruct (SQL.enumStatements s) as [|x xs]; [contradiction|].
    apply within_app_r, within_app_r.
    eapply within_trans; [|apply within_join, Hin].
    unfold SQL.enumTypeName, SQL.enumLiterals. rewrite !append_assoc. apply within_refl.
  - unfold SQL.getColumnType. rewrite Hty. reflexivity.
Qed.

Lemma enum_type_emitted_witness :
  Shape.within "CREATE TYPE users_role_enum AS ENUM ('admin', 'guest');"
    (SQL.compile "2026-01-01T10:00:00.000Z" (Cases.directory IR.postgresql))
  /\ SQL.getColumnType IR.postgresql Cases.role_column Cases.members = "users_role_enum".
Proof.
  apply (enum_type_emitted "2026-01-01T10:00:00.000Z" (Cases.directory IR.postgresql)
           Cases.members Cases.role_column "admin" ["guest"]); try reflexivity.
  - left. reflexivity.
  - right. left. reflexivity.
Defined.



End SqlExtras.

(** ** Namespaces, sized types, literals and procedures *)

Section SqlExtras2.
Import Text.

Lemma truthy_spec (x : string) : truthy x = true <-> x <> "".
Proof. destruct x; simpl; split; congruence. Qed.

Lemma named_namespace_spec (n : string) :
  truthy n && negb (String.eqb n "public") = true <-> Laws.named_namespace n.
Proof.
  unfold Laws.named_namespace.
  rewrite andb_true_iff, negb_true_iff, truthy_spec, String.eqb_neq. reflexivity.
Qed.

Lemma set_add_In (acc : list string) (x n : string) :
  In n (set_add acc x) <-> In n acc \/ n = x.
Proof.
  unfold set_add. destruct (existsb (String.eqb x) acc) eqn:E.
  - split; [auto|]. intros [H| ->]; [exact H|].
    apply existsb_exists in E as (y & Hy & Heq). apply String.eqb_eq in Heq as ->. exact Hy.
  - rewrite in_app_iff. simpl. split; intros [H|H]; auto.
    + destruct H as [H|[]]. auto.
Qed.

Lemma set_add_NoDup (acc : list string) (x : string) :
  NoDup acc -> NoDup (set_add acc x).
Proof.
  intros Hnd. unfold set_add. destruct (existsb (String.eqb x) acc) eqn:E; [exact Hnd|].
  apply NoDup_app. split; [exact Hnd|]. split; [|apply NoDup_singleton].
  intros y Hy Hx%list_elem_of_singleton. subst y.
  assert (Hex : existsb (String.eqb x) acc = true).
  { apply existsb_exists. exists x. split; [apply list_elem_of_In, Hy|apply String.eqb_refl]. }
  congruence.
Qed.

Lemma schemaNames_fold (ts : list Table.t) (acc : list string) :
  let result :=
    fold_left
      (fun schemas t =>
         match Table.schema t with
         | Some n =>
             if truthy n && negb (String.eqb n "public") then set_add schemas n
             else schemas
         | None => schemas
         end) ts acc in
  (NoDup acc -> NoDup result)
  /\ (forall n, In n result
        <-> In n acc
            \/ exists t, In t ts /\ Table.schema t = Some n /\ Laws.named_namespace n).
Proof.
  revert acc. induction ts as [|t ts IH]; intros acc; simpl.
  - split; [auto|]. intros n. split; [auto|]. intros [H|(t & [] & _)]. exact H.
  - destruct (IH (match Table.schema t with
                  | Some n =>
                      if truthy n && negb (String.eqb n "public") then set_add acc n
                      else acc
                  | None => acc
                  end)) as [IHnd IHin].
    split.
    + intros Hnd. apply IHnd.
      destruct (Table.schema t) as [n|]; [|exact Hnd].
      destruct (truthy n && negb (String.eqb n "public")); [|exact Hnd].
      apply set_add_NoDup, Hnd.
    + intros n. rewrite IHin. clear IHnd IHin IH.
      destruct (Table.schema t) as [m|] eqn:Hm.
      * destruct (truthy m && negb (String.eqb m "public")) eqn:E.
        -- rewrite set_add_In. apply named_namespace_spec in E. split.
           ++ intros [[H| ->]|(t' & Ht' & H)]; [auto| |].
              ** right. exists t. auto.
              ** right. exists t'. auto.
           ++ intros [H|(t' & [<-|Ht'] & Hs & Hn)]; [auto| |].
              ** left. right. congruence.
              ** right. exists t'. auto.
        -- split.
           ++ intros [H|(t' & Ht' & H)]; [auto|]. right. exists t'. auto.
           ++ intros [H|(t' & [<-|Ht'] & Hs & Hn)]; [auto| |].
              ** exfalso. assert (m = n) by congruence. subst m.
                 apply named_namespace_spec in Hn. congruence.
              ** right. exists t'. auto.
      * split.
        -- intros [H|(t' & Ht' & H)]; [auto|]. right. exists t'. auto.
        -- intros [H|(t' & [<-|Ht'] & Hs & Hn)]; [auto|congruence|].
           right. exists t'. auto.
Qed.

Lemma schemaNames_In (s : Schema.t) (n : string) :
  In n (SQL.schemaNames s)
  <-> exists t, In t (Schema.tables s) /\ Table.schema t = Some n /\ Laws.named_namespace n.
Proof.
  unfold SQL.schemaNames.
  destruct (schemaNames_fold (Schema.tables s) []) as [_ H]. rewrite H.
  split; [intros [[]|H']; exact H'|auto].
Qed.

(** X5. [generateSchemaStatements] writes one [CREATE SCHEMA IF NOT EXISTS]
    statement per namespace, for the namespaces of the tables other than
    the empty one and [public], each once however many tables share it; for
    PostgreSQL these statements, when there are any, stand in the output
    right after the header; for MySQL, or when there is none, the header is
    followed by a section heading. *)
Theorem namespaces_collected_once (now : string) (s : Schema.t) :
  exists names : list string,
    NoDup names
    /\ (forall n, In n names
          <-> exists t, In t (Schema.tables s) /\ Table.schema t = Some n
                        /\ n <> "" /\ n <> "public")
    /\ SQL.generateSchemaStatements s
       = join nl (map (fun n => "CREATE SCHEMA IF NOT EXISTS "
                                  +:+ SQL.quote (Schema.dialect s) n +:+ ";") names)
    /\ (Schema.dialect s = IR.postgresql -> names <> [] ->
        exists rest : string,
          SQL.compile now s
          = SQL.generateHeader now s +:+ nl +:+ nl
              +:+ SQL.generateSchemaStatements s +:+ nl +:+ nl +:+ rest)
    /\ (Schema.dialect s = IR.mysql \/ names = [] ->
        exists rest : string,
          SQL.compile now s = SQL.generateHeader now s +:+ nl +:+ nl +:+ "-- " +:+ rest).
Proof.
  exists (SQL.schemaNames s).
  split; [|split; [apply schemaNames_In|split; [|split]]].
  - unfold SQL.schemaNames.
    destruct (schemaNames_fold (Schema.tables s) []) as [H _]. apply H, NoDup_nil_2.
  - unfold SQL.generateSchemaStatements. destruct (SQL.schemaNames s); reflexivity.
  - intros Hd Hne.
    assert (Hex : existsb (fun t => truthy_opt (Table.schema t)) (Schema.tables s) = true).
    { destruct (SQL.schemaNames s) as [|n ns] eqn:E; [contradiction|].
      assert (Hn : In n (SQL.schemaNames s)) by (rewrite E; left; reflexivity).
      apply schemaNames_In in Hn as (t & Ht & Hs & Hnn & _).
      apply existsb_exists. exists t. split; [exact Ht|]. rewrite Hs. simpl.
      apply truthy_spec, Hnn. }
    assert (Hkept : truthy (trim (SQL.generateSchemaStatements s)) = true).
    { unfold SQL.generateSchemaStatements.
      destruct (SQL.schemaNames s) as [|n ns]; [contradiction|].
      simpl map. rewrite join_cons. apply trim_truthy. reflexivity. }
    unfold SQL.compile. rewrite nonblank_sections.
    unfold SQL.preambleSections. rewrite Hd. cbn [SQL.is_postgresql andb]. rewrite Hex.
    rewrite <- List.app_assoc, (nonblank_app [SQL.generateSchemaStatements s]).
    assert (Hone : SQL.nonblank [SQL.generateSchemaStatements s]
                   = [SQL.generateSchemaStatements s]).
    { unfold SQL.nonblank. cbn [List.filter]. rewrite Hkept. reflexivity. }
    rewrite Hone.
    match goal with
    | |- context [SQL.nonblank ?l] => remember (SQL.nonblank l) as tail eqn:Etail
    end.
    assert (Htail : In (SQL.generateTables s) tail).
    { subst tail. apply List.filter_In. split; [|apply tables_kept].
      apply in_app_iff. right. left. reflexivity. }
    destruct tail as [|x tail]; [contradiction|]. cbn [app].
    eexists. rewrite join_cons, join_cons. reflexivity.
  - intros Hcase.
    assert (Hgss : Schema.dialect s = IR.postgresql -> SQL.generateSchemaStatements s = "").
    { intros Hd. destruct Hcase as [H|H]; [congruence|].
      unfold SQL.generateSchemaStatements. rewrite H. reflexivity. }
    assert (Htables : forall L,
              exists rest,
                join (nl +:+ nl)
                  (SQL.generateHeader now s :: SQL.nonblank ([SQL.generateTables s] ++ L))
                = SQL.generateHeader now s +:+ nl +:+ nl +:+ "-- " +:+ rest).
    { intros L. rewrite nonblank_app. unfold SQL.nonblank at 1. cbn [List.filter].
      rewrite tables_kept. cbn [app]. unfold SQL.generateTables.
      eexists. rewrite join_cons, join_cons, !append_assoc. reflexivity. }
    unfold SQL.compile. rewrite nonblank_sections. unfold SQL.preambleSections.
    destruct (SQL.is_postgresql (Schema.dialect s)) eqn:Hpg.
    + assert (Hd : Schema.dialect s = IR.postgresql).
      { destruct (Schema.dialect s); [discriminate Hpg|reflexivity]. }
      rewrite (Hgss Hd). cbn [andb].
      rewrite <- List.app_assoc, nonblank_app.
      replace (SQL.nonblank
                 (if existsb (fun t => truthy_opt (Table.schema t)) (Schema.tables s)
                  then [""] else [])) with (@nil string)
        by (destruct (existsb _ _); reflexivity).
      cbn [app]. unfold SQL.generateEnumTypes.
      destruct (SQL.enumStatements s) as [|e es]; [apply Htables|].
      change (SQL.push_if ("-- Enum Types" +:+ nl +:+ join nl (e :: es)))
        with ["-- Enum Types" +:+ nl +:+ join nl (e :: es)].
      rewrite nonblank_app. unfold SQL.nonblank at 1. cbn [List.filter].
      replace (truthy (trim ("-- Enum Types" +:+ nl +:+ join nl (e :: es)))) with true
        by (symmetry; apply trim_truthy; reflexivity).
      cbn [app]. eexists. rewrite join_cons, join_cons, !append_assoc. reflexivity.
    + cbn [andb app]. apply Htables.
Qed.

Lemma namespaces_collected_once_witness :
  exists rest : string,
    SQL.compile "2026-01-01T10:00:00.000Z" (Cases.directory IR.postgresql)
    = SQL.generateHeader "2026-01-01T10:00:00.000Z" (Cases.directory IR.postgresql)
        +:+ nl +:+ nl
        +:+ "CREATE SCHEMA IF NOT EXISTS " +:+ SQL.quote IR.postgresql "auth" +:+ ";"
        +:+ nl +:+ nl +:+ rest.
Proof.
  destruct (namespaces_collected_once "2026-01-01T10:00:00.000Z"
              (Cases.directory IR.postgresql)) as (names & _ & Hin & _ & Hout & _).
  destruct (Hout eq_refl) as [rest Hrest].
  - intros Hnil.
    assert (H : In "auth" names).
    { apply Hin. exists Cases.members. split; [left; reflexivity|].
      split; [reflexivity|]. split; discriminate. }
    rewrite Hnil in H. contradiction.
  - exists rest. exact Hrest.
Defined.

(** X6. For PostgreSQL the namespace of a table, unless empty or [public],
    is created in the output by [CREATE SCHEMA IF NOT EXISTS]. *)
Theorem namespace_created (now : string) (s : Schema.t) (t : Table.t) (n : string) :
  Schema.dialect s = IR.postgresql ->
  In t (Schema.tables s) ->
  Table.schema t = Some n ->
  n <> "" -> n <> "public" ->
  Shape.within ("CREATE SCHEMA IF NOT EXISTS " +:+ SQL.dquote +:+ n +:+ SQL.dquote +:+ ";")
    (SQL.compile now s).
Proof.
  intros Hd Ht Hs Hne Hpub.
  assert (Hin : In n (SQL.schemaNames s)).
  { apply schemaNames_In. exists t. repeat split; assumption. }
  assert (Hstmt : exists x xs,
            SQL.generateSchemaStatements s
            = join nl (map (fun m => "CREATE SCHEMA IF NOT EXISTS "
                                       +:+ SQL.quote IR.postgresql m +:+ ";") (x :: xs))
            /\ In n (x :: xs)).
  { unfold SQL.generateSchemaStatements. rewrite Hd.
    destruct (SQL.schemaNames s) as [|x xs]; [contradiction|]. eauto. }
  destruct Hstmt as (x & xs & Hgen & Hn).
  replace ("CREATE SCHEMA IF NOT EXISTS " +:+ SQL.dquote +:+ n +:+ SQL.dquote +:+ ";")
    with ("CREATE SCHEMA IF NOT EXISTS " +:+ SQL.quote IR.postgresql n +:+ ";")
    by (unfold SQL.quote; rewrite !append_assoc; reflexivity).
  eapply within_trans.
  - apply (within_join nl _ _
             (in_map (fun m => "CREATE SCHEMA IF NOT EXISTS "
                                 +:+ SQL.quote IR.postgresql m +:+ ";") (x :: xs) n Hn)).
  - rewrite <- Hgen. apply section_within.
    + unfold SQL.sections, SQL.preambleSections. rewrite !in_app_iff, Hd.
      right. left. left.
      assert (Hex : existsb (fun t => truthy_opt (Table.schema t)) (Schema.tables s) = true).
      { apply existsb_exists. exists t. split; [exact Ht|]. rewrite Hs. simpl.
        apply truthy_spec, Hne. }
      simpl. rewrite Hex. left. reflexivity.
    + rewrite Hgen. simpl map. rewrite join_cons. apply trim_truthy. reflexivity.
Qed.

Lemma namespace_created_witness :
  Shape.within ("CREATE SCHEMA IF NOT EXISTS " +:+ SQL.dquote +:+ "auth" +:+ SQL.dquote +:+ ";")
    (SQL.compile "2026-01-01T10:00:00.000Z" (Cases.directory IR.postgresql)).
Proof.
  apply (namespace_created "2026-01-01T10:00:00.000Z" (Cases.directory IR.postgresql)
           Cases.members "auth"); try reflexivity; try discriminate.
  left. reflexivity.
Defined.

Lemma num_or_nonzero (o : option Z) (dflt : Z) : dflt <> 0%Z -> SQL.num_or o dflt <> 0%Z.
Proof.
  intros H. unfold SQL.num_or. destruct o as [n|]; [|exact H].
  destruct (Z.eqb_spec n 0); assumption.
Qed.

(** X7. A length, precision or scale of 0 is never printed: a [varchar] or
    [char] column without a length, or with length 0, gets 255, and a
    [decimal] or [numeric] column gets precision 10 and scale 2 in place of
    a missing or zero one; so a scale of 0 cannot be expressed. *)
Theorem sized_types_never_zero (d : IR.SQLDialect) (c : Column.t) (t : Table.t) :
  match Column.type c with
  | IR.varchar | IR.char =>
      exists n : Z,
        n <> 0%Z
        /\ SQL.getColumnType d c t
           = SQL.typeMapping d (Column.type c) +:+ "(" +:+ number_toString n +:+ ")"
        /\ (Column.length c = None \/ Column.length c = Some 0%Z -> n = 255%Z)
  | IR.decimal | IR.numeric =>
      exists p sc : Z,
        p <> 0%Z /\ sc <> 0%Z
        /\ SQL.getColumnType d c t
           = SQL.typeMapping d (Column.type c) +:+ "(" +:+ number_toString p +:+ ", "
               +:+ number_toString sc +:+ ")"
        /\ (Column.precision c = None \/ Column.precision c = Some 0%Z -> p = 10%Z)
        /\ (Column.scale c = None \/ Column.scale c = Some 0%Z -> sc = 2%Z)
  | _ => True
  end.
Proof.
  assert (Hdef : forall o dflt, o = None \/ o = Some 0%Z -> SQL.num_or o dflt = dflt).
  { intros o dflt [-> | ->]; reflexivity. }
  unfold SQL.getColumnType.
  destruct (Column.type c); try exact I.
  - exists (SQL.num_or (Column.length c) 255). split; [apply num_or_nonzero; discriminate|].
    split; [reflexivity|apply Hdef].
  - exists (SQL.num_or (Column.length c) 255). split; [apply num_or_nonzero; discriminate|].
    split; [reflexivity|apply Hdef].
  - exists (SQL.num_or (Column.precision c) 10), (SQL.num_or (Column.scale c) 2).
    split; [apply num_or_nonzero; discriminate|].
    split; [apply num_or_nonzero; discriminate|].
    split; [reflexivity|]. split; apply Hdef.
  - exists (SQL.num_or (Column.precision c) 10), (SQL.num_or (Column.scale c) 2).
    split; [apply num_or_nonzero; discriminate|].
    split; [apply num_or_nonzero; discriminate|].
    split; [reflexivity|]. split; apply Hdef.
Qed.

(** X8. Escaping is faithful: two texts with the same escaped form are the
    same text, so a quoted default or comment stands for one value only. *)
Theorem escapeString_injective (a b : string) :
  SQL.escapeString a = SQL.escapeString b -> a = b.
Proof.
  unfold SQL.escapeString. revert b.
  induction a as [|x a IH]; intros [|y b]; simpl.
  - reflexivity.
  - destruct (Ascii.eqb y "'"); rewrite ?append_cons; discriminate.
  - destruct (Ascii.eqb x "'"); rewrite ?append_cons; discriminate.
  - destruct (Ascii.eqb_spec x "'") as [-> |Hx], (Ascii.eqb_spec y "'") as [-> |Hy];
      rewrite ?append_cons, ?append_nil_l; intros H.
    + f_equal. apply IH. congruence.
    + exfalso. apply Hy. congruence.
    + exfalso. apply Hx. congruence.
    + injection H as -> H. f_equal. apply IH, H.
Qed.

Lemma escapeString_injective_witness : "O'Brien" = "O'Brien".
Proof.
  apply (escapeString_injective "O'Brien" "O'Brien"). reflexivity.
Defined.

(** X9. The body of every stored procedure is in the output as it was
    given: for PostgreSQL between [AS $$] and [$$;], after the return type
    ([VOID] when none is declared) and the language ([plpgsql] when none is
    declared); for MySQL between [BEGIN] and [END //]. *)
Theorem procedure_body_verbatim (now : string) (s : Schema.t) (proc : Procedure.t) :
  In proc (Schema.storedProcedures s) ->
  Shape.within
    match Schema.dialect s with
    | IR.postgresql =>
        "RETURNS "
          +:+ match Procedure.returnType proc with
              | None | Some IR.ret_void => "VOID"
              | Some IR.ret_table => "TABLE"
              | Some (IR.ret_type c) => SQL.typeMapping IR.postgresql c
              end +:+ nl +:+
        "LANGUAGE "
          +:+ match Procedure.language proc with
              | None => "plpgsql"
              | Some l => IR.language_text l
              end +:+ nl +:+
        "AS $$" +:+ nl +:+ Procedure.body proc +:+ nl +:+ "$$;"
    | IR.mysql =>
        "BEGIN" +:+ nl +:+ Procedure.body proc +:+ nl +:+ "END //" +:+ nl +:+ "DELIMITER ;"
    end
    (SQL.compile now s).
Proof.
  intros Hin.
  eapply within_trans;
    [|apply (procedures_section_within now s (not_nil_of_In _ _ Hin))].
  unfold SQL.generateStoredProcedures.
  destruct (Schema.storedProcedures s) as [|x xs] eqn:E; [contradiction|].
  apply within_app_r, within_app_r.
  eapply within_trans;
    [|apply within_join;
      apply (in_map (fun proc =>
                       if SQL.is_postgresql (Schema.dialect s)
                       then SQL.generatePostgresFunction (Schema.dialect s) proc
                       else SQL.generateMySQLProcedure (Schema.dialect s) proc)
                    (x :: xs) proc Hin)].
  destruct (Schema.dialect s); simpl.
  - unfold SQL.generateMySQLProcedure. do 11 apply within_app_r.
    rewrite ?append_assoc. apply within_refl.
  - unfold SQL.generatePostgresFunction. do 9 apply within_app_r.
    replace (match Procedure.returnType proc with
             | Some (IR.ret_type c) => SQL.typeMapping IR.postgresql c
             | Some IR.ret_void => "VOID"
             | Some IR.ret_table => "TABLE"
             | None => "VOID"
             end)
      with (match Procedure.returnType proc with
            | None | Some IR.ret_void => "VOID"
            | Some IR.ret_table => "TABLE"
            | Some (IR.ret_type c) => SQL.typeMapping IR.postgresql c
            end) by (destruct (Procedure.returnType proc) as [[]|]; reflexivity).
    rewrite ?append_assoc. apply within_refl.
Qed.

Lemma procedure_body_verbatim_witness :
  Shape.within
    ("RETURNS VOID" +:+ nl +:+ "LANGUAGE plpgsql" +:+ nl +:+
     "AS $$" +:+ nl +:+ "BEGIN DELETE FROM sessions; END;" +:+ nl +:+ "$$;")
    (SQL.compile "2026-01-01T10:00:00.000Z" Cases.housekeeping).
Proof.
  apply (procedure_body_verbatim "2026-01-01T10:00:00.000Z" Cases.housekeeping Cases.purge).
  left. reflexivity.
Defined.

(** X10. Every table gives one contiguous [CREATE TABLE] statement in the
    output: the opening line, the entries of its column list separated by
    a comma and a line feed, and the closing line, which carries the
    engine and charset for MySQL and nothing for PostgreSQL. *)
Theorem table_statement_emitted (now : string) (s : Schema.t) (t : Table.t) :
  In t (Schema.tables s) ->
  let d := Schema.dialect s in
  Shape.within
    ("CREATE TABLE " +:+ SQL.tableName d t +:+ " (" +:+ nl +:+
     join ("," +:+ nl) (SQL.columnDefs d t) +:+ nl +:+
     ")" +:+ match d with
             | IR.mysql => " ENGINE=InnoDB DEFAULT CHARSET=utf8mb4"
             | IR.postgresql => ""
             end +:+ ";")
    (SQL.compile now s).
Proof.
  intros Ht d.
  eapply within_trans; [|apply tables_section_within].
  unfold SQL.generateTables. apply within_app_r, within_app_r.
  eapply within_trans; [|apply within_join, (in_map (SQL.generateTable d) _ t Ht)].
  unfold SQL.generateTable, SQL.tableLines.
  rewrite (List.app_assoc [SQL.createTableLine d t]), (List.app_assoc _ [_] (SQL.commentStatements d t)).
  eapply within_trans; [|apply within_join_run; discriminate].
  unfold SQL.createTableLine, SQL.engineSuffix, join. simpl String.concat.
  replace (if SQL.is_mysql d then " ENGINE=InnoDB DEFAULT CHARSET=utf8mb4" else "")
    with (match d with
          | IR.mysql => " ENGINE=InnoDB DEFAULT CHARSET=utf8mb4"
          | IR.postgresql => ""
          end) by (destruct d; reflexivity).
  rewrite !append_assoc. apply within_refl.
Qed.

Lemma table_statement_emitted_witness :
  Shape.within
    ("CREATE TABLE `users` (" +:+ nl +:+
     "  `id` INT AUTO_INCREMENT," +:+ nl +:+
     "  PRIMARY KEY (`id`)" +:+ nl +:+
     ") ENGINE=InnoDB DEFAULT CHARSET=utf8mb4;")
    (SQL.compile "2026-01-01T10:00:00.000Z" (Samples.blog IR.mysql)).
Proof.
  apply (table_statement_emitted "2026-01-01T10:00:00.000Z" (Samples.blog IR.mysql)
           Samples.users).
  left. reflexivity.
Defined.

End SqlExtras2.

(** ** The Mermaid compiler: further properties *)

Section MermaidExtras.
Import Text.

Lemma all_chars_map (p : ascii -> bool) (s : string) :
  p "_"%char = true -> Laws.all_chars p (replace_outside p s) = true.
Proof.
  intros Hp. unfold replace_outside. induction s as [|c s IH]; [reflexivity|].
  simpl. rewrite IH, andb_true_r. destruct (p c) eqn:E; [exact E|exact Hp].
Qed.

Lemma replace_outside_fixed (p : ascii -> bool) (s : string) :
  Laws.all_chars p s = true -> replace_outside p s = s.
Proof.
  unfold replace_outside. induction s as [|c s IH]; [reflexivity|].
  simpl. intros [Hc Hs]%andb_prop. rewrite Hc, (IH Hs). reflexivity.
Qed.

Lemma replace_outside_length (p : ascii -> bool) (s : string) :
  String.length (replace_outside p s) = String.length s.
Proof.
  unfold replace_outside. induction s as [|c s IH]; [reflexivity|].
  simpl. rewrite IH. reflexivity.
Qed.

Lemma all_chars_single_line (p : ascii -> bool) (s : string) :
  p "010"%char = false -> Laws.all_chars p s = true -> single_line s = true.
Proof.
  intros Hp. induction s as [|c s IH]; [reflexivity|].
  simpl. intros [Hc Hs]%andb_prop. rewrite (IH Hs), andb_true_r.
  destruct (Ascii.eqb_spec c "010") as [-> |]; [congruence|reflexivity].
Qed.

Lemma single_line_sanitizeName (x : string) : single_line (Mermaid.sanitizeName x) = true.
Proof.
  apply (all_chars_single_line Mermaid.is_word_char); [reflexivity|].
  apply all_chars_map. reflexivity.
Qed.

Lemma lines_join_single (l : list string) :
  l <> [] -> forallb single_line l = true -> lines (join nl l) = l.
Proof.
  induction l as [|x l IH]; [contradiction|]. intros _ [Hx Hl]%andb_prop.
  destruct l as [|y l]; [apply lines_single, Hx|].
  change (join nl (x :: y :: l)) with (x +:+ nl +:+ join nl (y :: l)).
  rewrite lines_app_nl, (lines_single x Hx), IH by (auto; discriminate). reflexivity.
Qed.

(** X11. A sanitized name holds letters, digits and underscores only, is
    as long as the name it comes from, and is left alone by a second
    sanitization; a name that is already clean is not changed. *)
Theorem sanitizeName_clean (name : string) :
  Laws.all_chars Mermaid.is_word_char (Mermaid.sanitizeName name) = true
  /\ String.length (Mermaid.sanitizeName name) = String.length name
  /\ Mermaid.sanitizeName (Mermaid.sanitizeName name) = Mermaid.sanitizeName name
  /\ (Laws.all_chars Mermaid.is_word_char name = true -> Mermaid.sanitizeName name = name).
Proof.
  assert (H : Laws.all_chars Mermaid.is_word_char (Mermaid.sanitizeName name) = true).
  { apply all_chars_map. reflexivity. }
  split; [exact H|]. split; [apply replace_outside_length|].
  split; [apply replace_outside_fixed, H|apply replace_outside_fixed].
Qed.

Lemma sanitizeName_clean_witness : Mermaid.sanitizeName "order_items" = "order_items".
Proof.
  apply (proj2 (proj2 (proj2 (sanitizeName_clean "order_items")))). reflexivity.
Defined.

Lemma single_line_columnLine (c : Column.t) :
  single_line (Mermaid.generateColumnLine c) = true.
Proof.
  unfold Mermaid.generateColumnLine.
  destruct (Column.isPrimaryKey c), (Column.isUnique c); simpl;
    rewrite !single_line_app, single_line_sanitizeName; unfold Mermaid.mapColumnType;
    destruct (Column.type c); reflexivity.
Qed.

(** X12. The entity block of a table is made of whole lines whatever its
    names hold, line feeds included: the opening line with the sanitized
    table name, one line per column, and the closing line. *)
Theorem entity_block_lines (t : Table.t) :
  lines (join nl (Mermaid.generateTableDefinition t)) = Mermaid.generateTableDefinition t
  /\ length (Mermaid.generateTableDefinition t) = 2 + length (Table.columns t)
  /\ head (Mermaid.generateTableDefinition t)
     = Some ("    " +:+ Mermaid.sanitizeName (Table.name t) +:+ " {")
  /\ last (Mermaid.generateTableDefinition t) = Some "    }".
Proof.
  unfold Mermaid.generateTableDefinition. split; [|split; [|split]].
  - apply lines_join_single; [discriminate|].
    rewrite !forallb_app. simpl.
    rewrite !single_line_app, single_line_sanitizeName. simpl.
    rewrite andb_true_r.
    induction (Table.columns t) as [|c cs IH]; [reflexivity|].
    simpl. rewrite single_line_app, single_line_columnLine, IH. reflexivity.
  - rewrite !length_app, length_map. simpl. lia.
  - reflexivity.
  - rewrite List.app_assoc. apply last_snoc.
Qed.

(** X13. Every explicit relationship gives one line in the diagram, from
    the sanitized source to the sanitized target table with the connector
    of its cardinality, labelled by its sanitized name or, when the name is
    empty, by [<source>_to_<target>]. *)
Theorem relationship_line_emitted (s : Schema.t) (r : Relationship.t) :
  In r (Schema.relationships s) ->
  Shape.within
    ("    " +:+ Mermaid.sanitizeName (Relationship.sourceTable r) +:+ " "
       +:+ Laws.connector (Relationship.cardinality r) +:+ " "
       +:+ Mermaid.sanitizeName (Relationship.targetTable r) +:+ " : " +:+ SQL.dquote
       +:+ match Relationship.name r with
           | "" => Relationship.sourceTable r +:+ "_to_" +:+ Relationship.targetTable r
           | name => Mermaid.sanitizeRelationName name
           end
       +:+ SQL.dquote)
    (Mermaid.compile s).
Proof.
  intros Hin.
  assert (Heq : Mermaid.generateRelationship r
    = "    " +:+ Mermaid.sanitizeName (Relationship.sourceTable r) +:+ " "
       +:+ Laws.connector (Relationship.cardinality r) +:+ " "
       +:+ Mermaid.sanitizeName (Relationship.targetTable r) +:+ " : " +:+ SQL.dquote
       +:+ match Relationship.name r with
           | "" => Relationship.sourceTable r +:+ "_to_" +:+ Relationship.targetTable r
           | name => Mermaid.sanitizeRelationName name
           end
       +:+ SQL.dquote).
  { unfold Mermaid.generateRelationship, Mermaid.generateRelationName.
    destruct (Relationship.cardinality r), (Relationship.name r); reflexivity. }
  rewrite <- Heq. unfold Mermaid.compile. apply within_join.
  rewrite !in_app_iff. right. right. left. apply in_map, Hin.
Qed.

Lemma relationship_line_emitted_witness :
  Shape.within ("    users }o--o{ courses : " +:+ SQL.dquote +:+ "enrols" +:+ SQL.dquote)
    (Mermaid.compile (Samples.campus IR.mysql)).
Proof.
  apply (relationship_line_emitted (Samples.campus IR.mysql) Samples.enrolment).
  left. reflexivity.
Defined.

Lemma pairStep_length (st : list (string * string) * gset string) (p : string * string) :
  length (fst (Shape.pairStep st p)) <= S (length (fst st)).
Proof.
  destruct st as [E K], p as [o r]. unfold Shape.pairStep.
  destruct (negb (bool_decide (Mermaid.relKey o r ∈ K))
            && negb (bool_decide (Mermaid.relKey r o ∈ K))); simpl.
  - rewrite length_app. simpl. lia.
  - lia.
Qed.

Lemma pairPass_length (ps : list (string * string))
    (st : list (string * string) * gset string) :
  length (fst (fold_left Shape.pairStep ps st)) <= length (fst st) + length ps.
Proof.
  revert st. induction ps as [|p ps IH]; intros st; simpl; [lia|].
  pose proof (IH (Shape.pairStep st p)) as H1.
  pose proof (pairStep_length st p) as H2. lia.
Qed.

(** X14. The pass synthesizes at most one line per foreign key, so none
    for a schema without foreign keys; and it synthesizes none at all when
    every foreign key joins two tables that an explicit relationship
    already joins, in either direction. *)
Theorem implicit_lines_bounded (s : Schema.t) :
  length (Mermaid.generateImplicitRelationships s) <= length (Shape.fkPairs s)
  /\ ((forall owner referenced,
         In (owner, referenced) (Shape.fkPairs s) -> Shape.covered s owner referenced) ->
      Mermaid.generateImplicitRelationships s = []).
Proof.
  rewrite implicit_lines, length_map. split.
  - apply (pairPass_length (Shape.fkPairs s) ([], Mermaid.explicitKeys s)).
  - intros Hcov.
    pose proof (pass_invariant_fold (Mermaid.explicitKeys s) (Shape.fkPairs s)) as Hinv.
    fold (Shape.pairPass s) in Hinv.
    destruct (Shape.pairPass s) as [E K]. destruct Hinv as [_ Hsrc _ _]. simpl in *.
    destruct E as [|[r o] E]; [reflexivity|]. exfalso.
    destruct (Hsrc r o (or_introl eq_refl)) as (Hps & Hk1 & Hk2).
    destruct (Hcov o r Hps) as (rel & Hrel & [[H1 H2]|[H1 H2]]);
      [apply Hk1|apply Hk2]; apply explicitKeys_spec; exists rel; subst; auto.
Qed.

Lemma implicit_lines_bounded_witness :
  Mermaid.generateImplicitRelationships Samples.school = [].
Proof.
  apply (proj2 (implicit_lines_bounded Samples.school)).
  intros owner referenced [[= <- <-]|[]].
  exists Samples.teaches. split; [left; reflexivity|right; split; reflexivity].
Defined.

(** X15. The diagram is the bare header [erDiagram] exactly when the
    schema has no tables and no relationships. *)
Theorem empty_diagram (s : Schema.t) :
  Mermaid.compile s = "erDiagram"
  <-> Schema.tables s = [] /\ Schema.relationships s = [].
Proof.
  split.
  - unfold Mermaid.compile. intros H.
    assert (Hrest : flat_map Mermaid.generateTableDefinition (Schema.tables s)
                    ++ map Mermaid.generateRelationship (Schema.relationships s)
                    ++ Mermaid.generateImplicitRelationships s = []).
    { destruct (flat_map Mermaid.generateTableDefinition (Schema.tables s)
                ++ map Mermaid.generateRelationship (Schema.relationships s)
                ++ Mermaid.generateImplicitRelationships s) as [|x rest];
        [reflexivity|]. exfalso.
      change (["erDiagram"] ++ x :: rest) with ("erDiagram" :: x :: rest) in H.
      rewrite join_cons in H. unfold nl in H.
      rewrite !append_cons, append_nil_l in H. discriminate H. }
    apply app_eq_nil in Hrest as [Ht Hrest]. apply app_eq_nil in Hrest as [Hr _].
    split.
    + destruct (Schema.tables s); [reflexivity|discriminate Ht].
    + destruct (Schema.relationships s); [reflexivity|discriminate Hr].
  - intros [Ht Hr]. unfold Mermaid.compile, Mermaid.generateImplicitRelationships,
      Mermaid.implicitPass. rewrite Ht, Hr. reflexivity.
Qed.

Lemma empty_diagram_witness :
  Mermaid.compile
    (Types.createEmptySchema "1767261600000-k3j9x2m1q" "2026-01-01T10:00:00.000Z"
       "2026-01-01T10:00:00.000Z" None) = "erDiagram".
Proof.
  apply (proj2 (empty_diagram (Types.createEmptySchema "1767261600000-k3j9x2m1q"
           "2026-01-01T10:00:00.000Z" "2026-01-01T10:00:00.000Z" None))).
  split; reflexivity.
Defined.

(** X16. The themed diagram is the plain diagram under one added first
    line, the Mermaid init directive naming the theme ([default] when none
    is given). *)
Theorem themed_diagram_lines (s : Schema.t) (theme : option Mermaid.Theme) :
  lines (Mermaid.compileMermaidWithTheme s theme)
  = ("%%{init: {'theme': '" +:+ Mermaid.theme_text (default Mermaid.theme_default theme)
       +:+ "'}}%%")
    :: lines (Mermaid.compileMermaid s).
Proof.
  unfold Mermaid.compileMermaidWithTheme.
  rewrite !append_assoc.
  rewrite <- (append_assoc "%%{init: {'theme': '"),
    <- (append_assoc _ "'}}%%" (nl +:+ Mermaid.compileMermaid s)).
  rewrite lines_app_nl, lines_single; [reflexivity|].
  destruct theme as [[]|]; reflexivity.
Qed.

End MermaidExtras.

(** ** The store: invariants of the reachable states *)

Section StoreInvariants.

Lemma updateAndRecompile_in_sync (stamp now : string) (st : Store.t)
    (f : Schema.t -> Schema.t) :
  Laws.in_sync st -> Laws.in_sync (Store.updateAndRecompile stamp now st f).
Proof.
  intros H. unfold Store.updateAndRecompile.
  destruct (Store.schema st) as [s|] eqn:E; [|exact H].
  unfold Laws.in_sync. simpl. split; [exists now|]; reflexivity.
Qed.

Lemma run_in_sync (a : Actions.t) (st : Store.t) :
  Laws.in_sync st -> Laws.in_sync (Actions.run a st).
Proof.
  intros H. destruct a; simpl;
    try (apply updateAndRecompile_in_sync; exact H);
    try exact H.
  - unfold Laws.in_sync. simpl. split; [exists now|]; reflexivity.
  - unfold Laws.in_sync. simpl. auto.
  - unfold Store.updateSchema. destruct (Store.schema st) eqn:E; [|exact H].
    apply updateAndRecompile_in_sync, H.
  - unfold Store.setDialect. destruct (Store.schema st) eqn:E; [|exact H].
    apply updateAndRecompile_in_sync, H.
  - unfold Store.deleteTable. destruct (Store.schema st) as [s|] eqn:E; [|exact H].
    destruct (find _ _); [|exact H]. apply updateAndRecompile_in_sync, H.
  - unfold Store.changeCardinality. destruct (Store.schema st) as [s|] eqn:E; [|exact H].
    destruct (find _ _); [|exact H]. apply updateAndRecompile_in_sync, H.
  - unfold Store.recompile. destruct (Store.schema st) as [s|] eqn:E; [|exact H].
    unfold Laws.in_sync. simpl. split; [exists now|]; reflexivity.
Qed.

Lemma updateAndRecompile_selection (stamp now : string) (st : Store.t)
    (f : Schema.t -> Schema.t) :
  Store.selectedTableId (Store.updateAndRecompile stamp now st f) = Store.selectedTableId st
  /\ Store.selectedRelationshipId (Store.updateAndRecompile stamp now st f)
     = Store.selectedRelationshipId st.
Proof.
  unfold Store.updateAndRecompile. destruct (Store.schema st); split; reflexivity.
Qed.

Lemma run_one_selection (a : Actions.t) (st : Store.t) :
  Laws.one_selection st -> Laws.one_selection (Actions.run a st).
Proof.
  unfold Laws.one_selection. intros H.
  assert (Hup : forall stamp now f,
    Store.selectedTableId (Store.updateAndRecompile stamp now st f) = None
    \/ Store.selectedRelationshipId (Store.updateAndRecompile stamp now st f) = None).
  { intros stamp now f.
    destruct (updateAndRecompile_selection stamp now st f) as [-> ->]. exact H. }
  destruct a; simpl; try apply Hup; try exact H; auto.
  - unfold Store.updateSchema. destruct (Store.schema st); [apply Hup|exact H].
  - unfold Store.setDialect. destruct (Store.schema st); [apply Hup|exact H].
  - unfold Store.deleteTable. destruct (Store.schema st); [|exact H].
    destruct (find _ _); [apply Hup|exact H].
  - unfold Store.changeCardinality. destruct (Store.schema st); [|exact H].
    destruct (find _ _); [apply Hup|exact H].
  - unfold Store.recompile. destruct (Store.schema st); exact H.
Qed.

(** X17. Whatever sequence of actions is run from the initial state, the
    cached outputs belong to the schema held: both are empty when there is
    no schema, and otherwise the diagram is the compilation of the schema
    and the SQL is its compilation at some clock reading. *)
Theorem outputs_follow_schema (actions : list Actions.t) :
  Laws.in_sync (Actions.after actions).
Proof.
  unfold Actions.after.
  induction actions as [|a actions IH] using rev_ind.
  - split; reflexivity.
  - rewrite fold_left_app. simpl. apply run_in_sync, IH.
Qed.

(** X18. Whatever sequence of actions is run from the initial state, a
    table and a relationship are never selected together. *)
Theorem selection_is_exclusive (actions : list Actions.t) :
  Store.selectedTableId (Actions.after actions) = None
  \/ Store.selectedRelationshipId (Actions.after actions) = None.
Proof.
  unfold Actions.after.
  induction actions as [|a actions IH] using rev_ind.
  - left. reflexivity.
  - rewrite fold_left_app. simpl. apply run_one_selection, IH.
Qed.

(** X19. Without a schema every editing action leaves the whole state as
    it is: nothing is created, stamped or compiled. *)
Theorem edits_need_a_schema (a : Actions.t) (st : Store.t) :
  Actions.edits a = true -> Store.schema st = None -> Actions.run a st = st.
Proof.
  intros Ha Hs.
  destruct a; try discriminate Ha; simpl;
    unfold Store.updateSchema, Store.setDialect, Store.addTable, Store.updateTable,
      Store.deleteTable, Store.addColumn, Store.updateColumn, Store.deleteColumn,
      Store.addRelationship, Store.updateRelationship, Store.deleteRelationship,
      Store.changeCardinality, Store.addIndex, Store.deleteIndex, Store.addForeignKey,
      Store.deleteForeignKey, Store.addStoredProcedure, Store.updateStoredProcedure,
      Store.deleteStoredProcedure, Store.recompile, Store.updateAndRecompile;
    rewrite Hs; reflexivity.
Qed.

Lemma edits_need_a_schema_witness :
  Actions.run
    (Actions.DeleteTable "2026-01-01T09:30:00.000Z" "2026-01-01T09:30:00.001Z" "t1")
    Store.initial = Store.initial.
Proof.
  apply (edits_need_a_schema
           (Actions.DeleteTable "2026-01-01T09:30:00.000Z" "2026-01-01T09:30:00.001Z" "t1")
           Store.initial); reflexivity.
Defined.

End StoreInvariants.

(** ** The store: edits of tables and relationships *)

Section StoreEdits.
Import Text.

Lemma map_unknown {A : Type} (p : A -> bool) (f : A -> A) (l : list A) :
  (forall x, In x l -> p x = false) -> map (fun x => if p x then f x else x) l = l.
Proof.
  induction l as [|x l IH]; [reflexivity|]. intros H. simpl.
  rewrite (H x (or_introl eq_refl)), IH by (intros y Hy; apply H; right; exact Hy).
  reflexivity.
Qed.

Lemma map_table_unknown (tableId : string) (f : Table.t -> Table.t) (s : Schema.t) :
  (forall t, In t (Schema.tables s) -> Table.id t <> tableId) ->
  Store.map_table tableId f s = s.
Proof.
  intros H. unfold Store.map_table, Store.with_tables.
  rewrite (map_unknown (fun t => String.eqb (Table.id t) tableId)).
  - destruct s. reflexivity.
  - intros t Ht. apply String.eqb_neq, H, Ht.
Qed.

(** X20. An edit aimed at a table id that no table has changes no table,
    but it is not ignored the way [deleteTable] ignores an unknown id: the
    schema is stamped with the new [updatedAt] and both outputs are
    compiled again.  This holds for [updateTable] and for the column,
    index and foreign-key actions. *)
Theorem unknown_table_edits_only_stamp (stamp now fresh tableId : string)
    (st : Store.t) (s : Schema.t) :
  Store.schema st = Some s ->
  (forall t, In t (Schema.tables s) -> Table.id t <> tableId) ->
  let stamped :=
    Store.mk (Some (Store.with_updatedAt stamp s))
      (SQL.compile now (Store.with_updatedAt stamp s))
      (Mermaid.compile (Store.with_updatedAt stamp s))
      (Store.isLoading st) (Store.isGenerating st) (Store.error st)
      (Store.selectedTableId st) (Store.selectedRelationshipId st) (Store.userPrompt st) in
  (forall updates, Store.updateTable stamp now tableId updates st = stamped)
  /\ (forall column, Store.addColumn stamp now fresh tableId column st = stamped)
  /\ (forall columnId updates,
        Store.updateColumn stamp now tableId columnId updates st = stamped)
  /\ (forall columnId, Store.deleteColumn stamp now tableId columnId st = stamped)
  /\ (forall index, Store.addIndex stamp now fresh tableId index st = stamped)
  /\ (forall indexId, Store.deleteIndex stamp now tableId indexId st = stamped)
  /\ (forall fk, Store.addForeignKey stamp now fresh tableId fk st = stamped)
  /\ (forall fkId, Store.deleteForeignKey stamp now tableId fkId st = stamped).
Proof.
  intros Hs Hid stamped.
  assert (Hgen : forall f,
    Store.updateAndRecompile stamp now st (Store.map_table tableId f) = stamped).
  { intros f. unfold Store.updateAndRecompile. rewrite Hs.
    rewrite map_table_unknown; [reflexivity|exact Hid]. }
  repeat split; intros; apply Hgen.
Qed.

Lemma unknown_table_edits_only_stamp_witness :
  Store.schema
    (Store.deleteColumn "2026-01-01T09:30:00.000Z" "2026-01-01T09:30:00.001Z" "t9" "c1"
       Samples.loaded)
  = Some (Store.with_updatedAt "2026-01-01T09:30:00.000Z" Samples.school).
Proof.
  assert (Hid : forall t, In t (Schema.tables Samples.school) -> Table.id t <> "t9").
  { intros t [<-|[<-|[]]]; discriminate. }
  destruct (unknown_table_edits_only_stamp "2026-01-01T09:30:00.000Z"
              "2026-01-01T09:30:00.001Z" "f" "t9" Samples.loaded Samples.school
              eq_refl Hid) as (_ & _ & _ & H & _).
  rewrite (H "c1"). reflexivity.
Defined.

(** X21. [deleteTable] never touches the selection: when the selected
    table is the one deleted, the store goes on naming a table that is
    gone. *)
Theorem deleteTable_keeps_selection (stamp now tableId : string) (st : Store.t) :
  Store.selectedTableId (Store.deleteTable stamp now tableId st) = Store.selectedTableId st
  /\ Store.selectedRelationshipId (Store.deleteTable stamp now tableId st)
     = Store.selectedRelationshipId st
  /\ (Store.selectedTableId st = Some tableId ->
      forall s', Store.schema (Store.deleteTable stamp now tableId st) = Some s' ->
      Store.selectedTableId (Store.deleteTable stamp now tableId st) = Some tableId
      /\ forall t, In t (Schema.tables s') -> Table.id t <> tableId).
Proof.
  assert (Hsel : Store.selectedTableId (Store.deleteTable stamp now tableId st)
                 = Store.selectedTableId st
                 /\ Store.selectedRelationshipId (Store.deleteTable stamp now tableId st)
                    = Store.selectedRelationshipId st).
  { unfold Store.deleteTable. destruct (Store.schema st); [|auto].
    destruct (find _ _); [|auto]. apply updateAndRecompile_selection. }
  destruct Hsel as [H1 H2]. split; [exact H1|]. split; [exact H2|].
  intros Hsel s' Hs'. split; [rewrite H1; exact Hsel|].
  revert Hs'. unfold Store.deleteTable.
  destruct (Store.schema st) as [s|] eqn:Hs; [|rewrite Hs; discriminate].
  destruct (find (fun t => String.eqb (Table.id t) tableId) (Schema.tables s))
    as [table|] eqn:Hfind.
  - unfold Store.updateAndRecompile. rewrite Hs. simpl. intros [= <-]. simpl.
    intros t [_ Ht]%List.filter_In. apply String.eqb_neq, negb_true_iff, Ht.
  - rewrite Hs. intros [= <-] t Ht Hid.
    apply (find_none _ _ Hfind) in Ht. apply String.eqb_neq in Ht. contradiction.
Qed.

Lemma deleteTable_keeps_selection_witness :
  Store.selectedTableId
    (Store.deleteTable "2026-01-01T09:30:00.000Z" "2026-01-01T09:30:00.001Z" "t2"
       (Store.selectTable (Some "t2") Samples.loaded)) = Some "t2"
  /\ forall t,
       In t (Schema.tables
               (Store.with_relationships []
                  (Store.with_tables [Samples.users]
                     (Store.with_updatedAt "2026-01-01T09:30:00.000Z" Samples.school)))) ->
       Table.id t <> "t2".
Proof.
  destruct (deleteTable_keeps_selection "2026-01-01T09:30:00.000Z"
              "2026-01-01T09:30:00.001Z" "t2"
              (Store.selectTable (Some "t2") Samples.loaded)) as (_ & _ & H).
  apply (H eq_refl). reflexivity.
Defined.

Lemma find_last_added {A : Type} (p : A -> bool) (l : list A) (x : A) :
  (forall y, In y l -> p y = false) -> p x = true -> find p (l ++ [x]) = Some x.
Proof.
  intros Hl Hx. induction l as [|y l IH]; simpl; [rewrite Hx; reflexivity|].
  rewrite (Hl y (or_introl eq_refl)). apply IH. intros z Hz. apply Hl. right. exact Hz.
Qed.

Lemma filter_last_added {A : Type} (p : A -> bool) (l : list A) (x : A) :
  (forall y, In y l -> p y = false) -> p x = true ->
  List.filter (fun y => negb (p y)) (l ++ [x]) = l.
Proof.
  intros Hl Hx. rewrite List.filter_app. simpl. rewrite Hx. simpl. rewrite List.app_nil_r.
  induction l as [|y l IH]; [reflexivity|]. simpl.
  rewrite (Hl y (or_introl eq_refl)). simpl. f_equal. apply IH.
  intros z Hz. apply Hl. right. exact Hz.
Qed.

(** X22. Adding a table under an id that no table has and deleting it
    again by that id gives back the tables and the stored procedures as
    they were; of the relationships, those that name a table with the name
    of the added one are lost. *)
Theorem addTable_deleteTable (stamp1 now1 stamp2 now2 fresh : string) (table : Table.t)
    (st : Store.t) (s : Schema.t) :
  Store.schema st = Some s ->
  let newId := or_else (Table.id table) fresh in
  (forall t, In t (Schema.tables s) -> Table.id t <> newId) ->
  exists s',
    Store.schema
      (Store.deleteTable stamp2 now2 newId (Store.addTable stamp1 now1 fresh table st))
    = Some s'
    /\ Schema.tables s' = Schema.tables s
    /\ Schema.storedProcedures s' = Schema.storedProcedures s
    /\ Schema.relationships s'
       = List.filter
           (fun r => negb (String.eqb (Relationship.sourceTable r) (Table.name table))
                     && negb (String.eqb (Relationship.targetTable r) (Table.name table)))
           (Schema.relationships s).
Proof.
  intros Hs newId Hfresh.
  assert (Hl : forall t, In t (Schema.tables s) -> String.eqb (Table.id t) newId = false).
  { intros t Ht. apply String.eqb_neq, Hfresh, Ht. }
  assert (Hx : String.eqb (Table.id (Store.table_with_id newId table)) newId = true).
  { apply String.eqb_refl. }
  unfold Store.addTable, Store.updateAndRecompile at 1. rewrite Hs.
  unfold Store.deleteTable. simpl Store.schema. simpl Schema.tables. fold newId.
  rewrite (find_last_added _ _ _ Hl Hx).
  unfold Store.updateAndRecompile. simpl.
  eexists. split; [reflexivity|]. simpl. fold newId.
  split; [|split; reflexivity].
  apply (filter_last_added (fun t => String.eqb (Table.id t) newId) _ _ Hl Hx).
Qed.

Lemma addTable_deleteTable_witness :
  exists s',
    Store.schema
      (Store.deleteTable "2026-01-01T09:31:00.000Z" "2026-01-01T09:31:00.001Z" "t5"
         (Store.addTable "2026-01-01T09:30:00.000Z" "2026-01-01T09:30:00.001Z"
            "1767261600000-k3j9x2m1q" Cases.members Samples.loaded))
    = Some s'
    /\ Schema.tables s' = Schema.tables Samples.school
    /\ Schema.storedProcedures s' = Schema.storedProcedures Samples.school
    /\ Schema.relationships s' = [].
Proof.
  apply (addTable_deleteTable "2026-01-01T09:30:00.000Z" "2026-01-01T09:30:00.001Z"
           "2026-01-01T09:31:00.000Z" "2026-01-01T09:31:00.001Z" "1767261600000-k3j9x2m1q"
           Cases.members Samples.loaded Samples.school eq_refl).
  intros t [<-|[<-|[]]]; discriminate.
Defined.

(** X23. Adding a relationship under an id that no relationship has and
    deleting it again by that id gives back the relationships as they
    were. *)
Theorem addRelationship_deleteRelationship (stamp1 now1 stamp2 now2 fresh : string)
    (relationship : Relationship.t) (st : Store.t) (s : Schema.t) :
  Store.schema st = Some s ->
  let newId := or_else (Relationship.id relationship) fresh in
  (forall r, In r (Schema.relationships s) -> Relationship.id r <> newId) ->
  exists s',
    Store.schema
      (Store.deleteRelationship stamp2 now2 newId
         (Store.addRelationship stamp1 now1 fresh relationship st))
    = Some s'
    /\ Schema.relationships s' = Schema.relationships s
    /\ Schema.tables s' = Schema.tables s.
Proof.
  intros Hs newId Hfresh.
  assert (Hl : forall r, In r (Schema.relationships s) ->
                 String.eqb (Relationship.id r) newId = false).
  { intros r Hr. apply String.eqb_neq, Hfresh, Hr. }
  assert (Hx : String.eqb (Relationship.id (Store.with_id newId relationship)) newId = true).
  { apply String.eqb_refl. }
  unfold Store.addRelationship, Store.deleteRelationship, Store.updateAndRecompile.
  rewrite Hs. simpl. eexists. split; [reflexivity|]. simpl. fold newId.
  split; [|reflexivity].
  apply (filter_last_added (fun r => String.eqb (Relationship.id r) newId) _ _ Hl Hx).
Qed.

Lemma addRelationship_deleteRelationship_witness :
  exists s',
    Store.schema
      (Store.deleteRelationship "2026-01-01T09:31:00.000Z" "2026-01-01T09:31:00.001Z" "r1"
         (Store.addRelationship "2026-01-01T09:30:00.000Z" "2026-01-01T09:30:00.001Z"
            "1767261600000-k3j9x2m1q" Samples.enrolment Samples.loaded))
    = Some s'
    /\ Schema.relationships s' = Schema.relationships Samples.school
    /\ Schema.tables s' = Schema.tables Samples.school.
Proof.
  apply (addRelationship_deleteRelationship "2026-01-01T09:30:00.000Z"
           "2026-01-01T09:30:00.001Z" "2026-01-01T09:31:00.000Z" "2026-01-01T09:31:00.001Z"
           "1767261600000-k3j9x2m1q" Samples.enrolment Samples.loaded Samples.school eq_refl).
  intros r [<-|[]]. discriminate.
Defined.



(** X25. Switching the dialect compiles the SQL again for the new dialect
    and leaves the diagram, the tables and the relationships as they
    were. *)
Theorem setDialect_keeps_diagram (stamp now : string) (dialect : IR.SQLDialect)
    (st : Store.t) (s : Schema.t) :
  Store.schema st = Some s ->
  exists s',
    Store.schema (Store.setDialect stamp now dialect st) = Some s'
    /\ Schema.dialect s' = dialect
    /\ Schema.tables s' = Schema.tables s
    /\ Schema.relationships s' = Schema.relationships s
    /\ Store.compiledSQL (Store.setDialect stamp now dialect st) = SQL.compile now s'
    /\ Store.compiledMermaid (Store.setDialect stamp now dialect st) = Mermaid.compile s.
Proof.
  intros Hs. unfold Store.setDialect, Store.updateAndRecompile. rewrite Hs.
  eexists. split; [reflexivity|]. simpl. repeat split.
Qed.

Lemma setDialect_keeps_diagram_witness :
  exists s',
    Store.schema
      (Store.setDialect "2026-01-01T09:30:00.000Z" "2026-01-01T09:30:00.001Z" IR.mysql
         Samples.loaded) = Some s'
    /\ Schema.dialect s' = IR.mysql
    /\ Store.compiledMermaid
         (Store.setDialect "2026-01-01T09:30:00.000Z" "2026-01-01T09:30:00.001Z" IR.mysql
            Samples.loaded) = Mermaid.compile Samples.school.
Proof.
  destruct (setDialect_keeps_diagram "2026-01-01T09:30:00.000Z" "2026-01-01T09:30:00.001Z"
              IR.mysql Samples.loaded Samples.school eq_refl)
    as (s' & Hs' & Hd & _ & _ & _ & Hm).
  exists s'. split; [exact Hs'|]. split; [exact Hd|exact Hm].
Defined.

Lemma find_map_id (relationshipId : string) (g : Relationship.t -> Relationship.t)
    (rs : list Relationship.t) :
  (forall r, Relationship.id (g r) = Relationship.id r) ->
  find (fun r => String.eqb (Relationship.id r) relationshipId) (map g rs)
  = option_map g (find (fun r => String.eqb (Relationship.id r) relationshipId) rs).
Proof.
  intros Hg. induction rs as [|r rs IH]; [reflexivity|]. simpl. rewrite Hg.
  destruct (String.eqb (Relationship.id r) relationshipId); [reflexivity|exact IH].
Qed.

Lemma changeCardinality_schema (stamp now relationshipId : string) (c : IR.Cardinality)
    (st : Store.t) (s : Schema.t) :
  Store.schema st = Some s ->
  exists s1,
    Store.schema (Store.changeCardinality stamp now relationshipId c st) = Some s1
    /\ Schema.relationships s1
       = match find (fun r => String.eqb (Relationship.id r) relationshipId)
                    (Schema.relationships s) with
         | None => Schema.relationships s
         | Some rel =>
             map (fun r =>
                    if String.eqb (Relationship.id r) relationshipId
                    then Store.with_cardinality c
                           match c with
                           | IR.many_to_many => Some (Store.junctionFor rel)
                           | _ => None
                           end r
                    else r)
                 (Schema.relationships s)
         end.
Proof.
  intros Hs. unfold Store.changeCardinality. rewrite Hs.
  destruct (find _ _) as [rel|].
  - unfold Store.updateAndRecompile. rewrite Hs. eexists. split; reflexivity.
  - exists s. split; [exact Hs|reflexivity].
Qed.

(** X26. Of two cardinality changes made to the same relationship the
    last one wins: the relationships are those the second change alone
    would give, descriptor included. *)
Theorem changeCardinality_last_wins (stamp1 now1 stamp2 now2 relationshipId : string)
    (c1 c2 : IR.Cardinality) (st : Store.t) :
  option_map Schema.relationships
    (Store.schema
       (Store.changeCardinality stamp2 now2 relationshipId c2
          (Store.changeCardinality stamp1 now1 relationshipId c1 st)))
  = option_map Schema.relationships
      (Store.schema (Store.changeCardinality stamp2 now2 relationshipId c2 st)).
Proof.
  destruct (Store.schema st) as [s|] eqn:Hs.
  - destruct (changeCardinality_schema stamp1 now1 relationshipId c1 st s Hs)
      as (s1 & Hs1 & Hr1).
    destruct (changeCardinality_schema stamp2 now2 relationshipId c2 _ s1 Hs1)
      as (s2 & -> & Hr2).
    destruct (changeCardinality_schema stamp2 now2 relationshipId c2 st s Hs)
      as (s3 & -> & Hr3).
    simpl. f_equal. rewrite Hr2, Hr3, Hr1.
    destruct (find (fun r => String.eqb (Relationship.id r) relationshipId)
                   (Schema.relationships s)) as [rel|] eqn:Hfind.
    + rewrite find_map_id, Hfind.
      * simpl option_map. apply find_some in Hfind as [_ Hid]. rewrite Hid.
        rewrite map_map. apply map_ext. intros r.
        destruct (String.eqb (Relationship.id r) relationshipId) eqn:E; simpl.
        -- rewrite E. destruct c2; reflexivity.
        -- rewrite E. reflexivity.
      * intros r. destruct (String.eqb (Relationship.id r) relationshipId); reflexivity.
    + rewrite Hfind. reflexivity.
  - assert (H : forall stamp now c, Store.changeCardinality stamp now relationshipId c st = st).
    { intros. unfold Store.changeCardinality. rewrite Hs. reflexivity. }
    rewrite !H. reflexivity.
Qed.

End StoreEdits.

(** ** Export helpers *)

Section ExportExtras.
Import Text.

Lemma lower_char_not_capital (c : ascii) : is_capital (lower_char c) = false.
Proof.
  destruct c as [[] [] [] [] [] [] [] []]; reflexivity.
Qed.

Lemma lower_char_whitespace (c : ascii) : is_whitespace (lower_char c) = is_whitespace c.
Proof.
  destruct c as [[] [] [] [] [] [] [] []]; reflexivity.
Qed.

Lemma replace_runs_plain (p : ascii -> bool) (b : bool) (s : string) :
  p "_"%char = true ->
  Laws.all_chars (fun c => is_whitespace c || p c) s = true ->
  Laws.all_chars (fun c => negb (is_whitespace c) && p c) (replace_runs b s) = true.
Proof.
  intros Hp. revert b. induction s as [|c s IH]; intros b; [reflexivity|].
  simpl. intros [Hc Hs]%andb_prop.
  destruct (is_whitespace c) eqn:E.
  - destruct b; [apply IH, Hs|]. simpl. rewrite Hp, (IH true Hs). reflexivity.
  - simpl. rewrite E. simpl in Hc. rewrite Hc, (IH false Hs). reflexivity.
Qed.

Lemma all_chars_app (p : ascii -> bool) (a b : string) :
  Laws.all_chars p (a +:+ b) = Laws.all_chars p a && Laws.all_chars p b.
Proof.
  induction a as [|c a IH]; [reflexivity|].
  rewrite append_cons. simpl. rewrite IH, andb_assoc. reflexivity.
Qed.

(** A text without whitespace and capital letters is left as it is. *)
Lemma plain_text_kept (x : string) :
  Laws.all_chars (fun c => negb (is_whitespace c) && negb (is_capital c)) x = true ->
  collapse_whitespace (toLowerCase x) = x.
Proof.
  unfold collapse_whitespace, toLowerCase.
  induction x as [|c x IH]; [reflexivity|]. cbn [Laws.all_chars].
  intros [[Hw Hc]%andb_prop Hx]%andb_prop.
  apply negb_true_iff in Hw. apply negb_true_iff in Hc.
  assert (Hl : lower_char c = c) by (unfold lower_char; rewrite Hc; reflexivity).
  cbn [map_chars replace_runs]. rewrite Hl, Hw, (IH Hx). reflexivity.
Qed.

(** X27. The file names offered for download hold no whitespace and no
    capital letter, whatever the name of the schema; a name that holds
    neither is kept as it is, followed by the suffix of the format. *)
Theorem download_names_are_plain (s : Schema.t) :
  let plain := fun c => negb (is_whitespace c) && negb (is_capital c) in
  Laws.all_chars plain (ExportOptions.sqlFileName s) = true
  /\ Laws.all_chars plain (ExportOptions.mermaidFileName s) = true
  /\ Laws.all_chars plain (ExportOptions.jsonFileName s) = true
  /\ (Laws.all_chars plain (Schema.name s) = true ->
      ExportOptions.sqlFileName s = Schema.name s +:+ "_schema.sql"
      /\ ExportOptions.mermaidFileName s = Schema.name s +:+ "_diagram.mmd"
      /\ ExportOptions.jsonFileName s = Schema.name s +:+ "_schema.json").
Proof.
  intros plain.
  assert (H : Laws.all_chars plain
                (collapse_whitespace (toLowerCase (Schema.name s))) = true).
  { apply (replace_runs_plain (fun c => negb (is_capital c))); [reflexivity|].
    unfold toLowerCase. induction (Schema.name s) as [|c n IH]; [reflexivity|].
    simpl. rewrite lower_char_not_capital, orb_true_r, IH. reflexivity. }
  unfold ExportOptions.sqlFileName, ExportOptions.mermaidFileName,
    ExportOptions.jsonFileName, ExportOptions.fileName.
  rewrite !all_chars_app, H.
  split; [reflexivity|]. split; [reflexivity|]. split; [reflexivity|].
  intros Hplain. rewrite (plain_text_kept _ Hplain). repeat split.
Qed.

Lemma download_names_are_plain_witness :
  ExportOptions.sqlFileName (Samples.blog IR.mysql) = "blog_schema.sql"
  /\ ExportOptions.sqlFileName Cases.housekeeping <> "Housekeeping_schema.sql"
  /\ ExportOptions.jsonFileName Cases.lowercase = "my_shop_schema.json".
Proof.
  split; [reflexivity|]. split; [discriminate|].
  apply (download_names_are_plain Cases.lowercase). reflexivity.
Defined.

End ExportExtras.
